(** * Neo.form.field.FileUpload: the upload session state machine

    A shallow embedding of [src/form/field/FileUpload.mjs] and the
    properties its specification states about it.

    Conventions.
    - JavaScript strings are [string]s (byte sequences); the code only
      splits them at ASCII characters ([.], digits, the unit letters).
    - Byte counts ([file.size], [loaded]) are non-negative integers below
      2^53, where the arithmetic of Numbers on integers is exact; they are
      modelled in [Z] / [N].  A configured size limit can spell a larger
      integer: it is rounded to a double as the code computes it.
    - An [async] method is split at each [await] into the part that runs
      synchronously and the continuation the event loop resumes later. *)

From Stdlib Require Import ZArith NArith List String Ascii Bool Lia.
Import ListNotations.

Local Open Scope string_scope.
Local Open Scope Z_scope.

Set Warnings "-register-all".

(** ** Host values *)

Module JS.

(** The values the widget can meet in a configuration object or in a parsed
    JSON document.  A Number literal is kept as [mantissa * 10 ^ exponent];
    [Builtin k] is the member [k] inherited from [Object.prototype]. *)
Inductive value : Type :=
| Undefined
| Null
| Bool (b : bool)
| Num (mantissa exponent : Z)
| Str (s : string)
| Arr (items : list value)
| Obj (fields : list (string * value))
| Builtin (name : string).

(** A Number is falsy exactly when its double is zero: the literal is zero,
    or so small that it rounds to zero (at most 2^-1075, ties to even). *)
Definition is_zero (m e : Z) : bool :=
  (m =? 0) || ((e <? 0) && (Z.abs m * 2 ^ 1075 <=? 10 ^ (- e))).

(** ToBoolean. *)
Definition truthy (v : value) : bool :=
  match v with
  | Undefined | Null => false
  | Bool b => b
  | Num m e => negb (is_zero m e)
  | Str s => negb (s =? "")%string
  | Arr _ | Obj _ | Builtin _ => true
  end.

(** Own property lookup; when a key is written twice the last one wins. *)
Fixpoint own (fields : list (string * value)) (k : string) : option value :=
  match fields with
  | [] => None
  | (k', v) :: rest =>
      match own rest k with
      | Some v' => Some v'
      | None => if (k' =? k)%string then Some v else None
      end
  end.

(** The property names every plain object inherits. *)
Definition Object_prototype : list string :=
  [ "constructor"; "__defineGetter__"; "__defineSetter__"; "hasOwnProperty";
    "__lookupGetter__"; "__lookupSetter__"; "isPrototypeOf";
    "propertyIsEnumerable"; "toString"; "valueOf"; "__proto__";
    "toLocaleString" ].

Definition inherited (k : string) : bool :=
  existsb (fun n => (n =? k)%string) Object_prototype.

(** [o[k]] on a plain object. *)
Definition lookup (fields : list (string * value)) (k : string) : value :=
  match own fields k with
  | Some v => v
  | None => if inherited k then Builtin k else Undefined
  end.

(** [v[k]]; [None] is the TypeError of reading a property of [null] or
    [undefined].  On primitives and arrays the members they own or inherit
    ([length], indices, methods) are not modelled: the widget reads only
    [success] and [message] from a value that may be one of them, and these
    names are absent from every built-in prototype. *)
Definition get (v : value) (k : string) : option value :=
  match v with
  | Undefined | Null => None
  | Obj fields => Some (lookup fields k)
  | _ => Some Undefined
  end.

(** [Object.keys]: each own key once, at the place it was first written.
    Keys that are array indices, which [Object.keys] lists first and in
    ascending order, are not treated apart. *)
Fixpoint keys_from (seen : list string) (fields : list (string * value)) : list string :=
  match fields with
  | [] => []
  | (k, _) :: rest =>
      if existsb (fun n => (n =? k)%string) seen then keys_from seen rest
      else k :: keys_from (k :: seen) rest
  end.

Definition keys (fields : list (string * value)) : list string :=
  keys_from [] fields.

(** [Array.prototype.join] on strings. *)
Fixpoint join (sep : string) (l : list string) : string :=
  match l with
  | [] => ""
  | [x] => x
  | x :: rest => x ++ sep ++ join sep rest
  end.

End JS.

(** ** Strings *)

Definition is_digit (c : ascii) : bool :=
  let n := N_of_ascii c in ((48 <=? n) && (n <=? 57))%N.

Definition digit_value (c : ascii) : Z :=
  Z.of_N (N_of_ascii c) - 48.

Definition lower (c : ascii) : ascii :=
  let n := N_of_ascii c in
  if ((65 <=? n) && (n <=? 90))%N then ascii_of_N (n + 32) else c.

Definition upper (c : ascii) : ascii :=
  let n := N_of_ascii c in
  if ((97 <=? n) && (n <=? 122))%N then ascii_of_N (n - 32) else c.

(** [String.prototype.toLowerCase] / [toUpperCase] on ASCII text. *)
Fixpoint toLowerCase (s : string) : string :=
  match s with
  | EmptyString => EmptyString
  | String c rest => String (lower c) (toLowerCase rest)
  end.

Fixpoint toUpperCase (s : string) : string :=
  match s with
  | EmptyString => EmptyString
  | String c rest => String (upper c) (toUpperCase rest)
  end.

(** [s.lastIndexOf(ch)], with the index of the first character of [s]
    being [i]; -1 when [ch] does not occur. *)
Fixpoint lastIndexOf_from (i : Z) (ch : ascii) (s : string) : Z :=
  match s with
  | EmptyString => -1
  | String c rest =>
      let later := lastIndexOf_from (i + 1) ch rest in
      if later >? -1 then later
      else if Ascii.eqb c ch then i else -1
  end.

Definition lastIndexOf (ch : ascii) (s : string) : Z :=
  lastIndexOf_from 0 ch s.

(** [s.slice(n)] for [0 <= n]. *)
Fixpoint drop (n : nat) (s : string) : string :=
  match n, s with
  | O, _ => s
  | S n', String _ rest => drop n' rest
  | S _, EmptyString => EmptyString
  end.

Definition slice (n : Z) (s : string) : string :=
  drop (Z.to_nat n) s.

(** Decimal digits of a non-negative integer, most significant first. *)
Fixpoint digits_of (fuel : nat) (n : Z) (acc : string) : string :=
  match fuel with
  | O => acc
  | S fuel' =>
      let acc' := String (ascii_of_N (Z.to_N (48 + n mod 10))) acc in
      if n <? 10 then acc' else digits_of fuel' (n / 10) acc'
  end.

(** [String(n)] for an integer [0 <= n < 10^21]. *)
Definition decimal (n : Z) : string :=
  digits_of (S (Z.to_nat (Z.log2 n))) n "".

(** The longest prefix of decimal digits, and what follows it. *)
Fixpoint span_digits (s : string) : string * string :=
  match s with
  | String c rest =>
      if is_digit c then let (ds, out) := span_digits rest in (String c ds, out)
      else ("", s)
  | EmptyString => ("", "")
  end.

Fixpoint no_dot (s : string) : bool :=
  match s with
  | EmptyString => true
  | String c rest => negb (Ascii.eqb c ".") && no_dot rest
  end.

Fixpoint all_digits (s : string) : bool :=
  match s with
  | EmptyString => true
  | String c rest => is_digit c && all_digits rest
  end.

(** The integer that [parseInt] reads from a string of decimal digits.  The
    Number that [parseInt] returns is the double nearest to this integer,
    [to_double] of it. *)
Fixpoint parseInt_from (acc : Z) (s : string) : Z :=
  match s with
  | EmptyString => acc
  | String c rest => parseInt_from (10 * acc + digit_value c) rest
  end.

Definition parseInt (s : string) : Z := parseInt_from 0 s.

(** The Number value of an integer [0 <= n]: the double nearest to it, ties
    going to the even significand.  A double has a significand of 53 bits,
    so that an integer below 2^53 is its own Number value; above, the bits
    below the 53 leading ones are rounded away.  The largest double is below
    2^1024: a result of 2^1024 or more stands for Infinity, which like it is
    above every byte count. *)
Definition to_double (n : Z) : Z :=
  let e := Z.log2 n - 52 in
  if e <=? 0 then n
  else
    let significand := Z.shiftr n e in
    let rest := n - Z.shiftl significand e in
    let half := Z.shiftl 1 (e - 1) in
    let significand :=
      if (half <? rest) || ((rest =? half) && Z.odd significand)
      then significand + 1 else significand in
    Z.shiftl significand e.

(** ** [JSON.parse] *)

Module JSON.
Import JS.

Definition is_ws (c : ascii) : bool :=
  let n := N_of_ascii c in
  ((n =? 32) || (n =? 9) || (n =? 10) || (n =? 13))%N.

Fixpoint skip_ws (s : string) : string :=
  match s with
  | String c rest => if is_ws c then skip_ws rest else s
  | EmptyString => EmptyString
  end.

(** [expect lit s] strips the literal [lit] from the front of [s]. *)
Fixpoint expect (lit s : string) : option string :=
  match lit, s with
  | EmptyString, _ => Some s
  | String a lit', String b s' => if Ascii.eqb a b then expect lit' s' else None
  | String _ _, EmptyString => None
  end.

Definition hex_value (c : ascii) : option Z :=
  let n := Z.of_N (N_of_ascii c) in
  if (48 <=? n) && (n <=? 57) then Some (n - 48)
  else if (65 <=? n) && (n <=? 70) then Some (n - 55)
  else if (97 <=? n) && (n <=? 102) then Some (n - 87)
  else None.

Definition byte (n : Z) : ascii := ascii_of_N (Z.to_N n).

(** The bytes of one UTF-16 code unit written as [\uXXXX]. *)
Definition encode_unit (u : Z) : string :=
  if u <? 128 then String (byte u) ""
  else if u <? 2048 then String (byte (192 + u / 64)) (String (byte (128 + u mod 64)) "")
  else String (byte (224 + u / 4096))
         (String (byte (128 + (u / 64) mod 64)) (String (byte (128 + u mod 64)) "")).

Definition quote : ascii := ascii_of_N 34.

Definition escape (c : ascii) : option ascii :=
  if Ascii.eqb c quote then Some quote
  else if Ascii.eqb c "\" then Some "\"%char
  else if Ascii.eqb c "/" then Some "/"%char
  else if Ascii.eqb c "b" then Some (byte 8)
  else if Ascii.eqb c "f" then Some (byte 12)
  else if Ascii.eqb c "n" then Some (byte 10)
  else if Ascii.eqb c "r" then Some (byte 13)
  else if Ascii.eqb c "t" then Some (byte 9)
  else None.

(** The characters of a string literal, after its opening quote. *)
Fixpoint parse_chars (s : string) : option (string * string) :=
  match s with
  | EmptyString => None
  | String c rest =>
      if Ascii.eqb c quote then Some ("", rest)
      else if Ascii.eqb c "\" then
        match rest with
        | String "u" (String h1 (String h2 (String h3 (String h4 rest')))) =>
            match hex_value h1, hex_value h2, hex_value h3, hex_value h4 with
            | Some a, Some b, Some c', Some d =>
                match parse_chars rest' with
                | Some (str, out) =>
                    Some (encode_unit (4096 * a + 256 * b + 16 * c' + d) ++ str, out)
                | None => None
                end
            | _, _, _, _ => None
            end
        | String e rest' =>
            match escape e with
            | Some x =>
                match parse_chars rest' with
                | Some (str, out) => Some (String x str, out)
                | None => None
                end
            | None => None
            end
        | EmptyString => None
        end
      else if (N_of_ascii c <? 32)%N then None
      else
        match parse_chars rest with
        | Some (str, out) => Some (String c str, out)
        | None => None
        end
  end.

(** The integer part of a number: a lone [0], or digits not led by [0]. *)
Definition parse_int (s : string) : option (string * string) :=
  match s with
  | String "0" rest => Some ("0", rest)
  | _ => match span_digits s with
         | (EmptyString, _) => None
         | (ds, out) => Some (ds, out)
         end
  end.

Definition parse_frac (s : string) : option (string * string) :=
  match s with
  | String "." rest =>
      match span_digits rest with
      | (EmptyString, _) => None
      | (ds, out) => Some (ds, out)
      end
  | _ => Some ("", s)
  end.

Definition parse_exp (s : string) : option (Z * string) :=
  let digits (sign : Z) (t : string) :=
    match span_digits t with
    | (EmptyString, _) => None
    | (ds, out) => Some (sign * parseInt ds, out)
    end in
  match s with
  | String c rest =>
      if Ascii.eqb c "e" || Ascii.eqb c "E" then
        match rest with
        | String "+" t => digits 1 t
        | String "-" t => digits (-1) t
        | _ => digits 1 rest
        end
      else Some (0, s)
  | EmptyString => Some (0, s)
  end.

Definition parse_number (s : string) : option (value * string) :=
  let (sign, s0) := match s with
                    | String "-" rest => (-1, rest)
                    | _ => (1, s)
                    end in
  match parse_int s0 with
  | None => None
  | Some (int, s1) =>
      match parse_frac s1 with
      | None => None
      | Some (frac, s2) =>
          match parse_exp s2 with
          | None => None
          | Some (e, s3) =>
              Some (Num (sign * parseInt (int ++ frac))
                        (e - Z.of_nat (String.length frac)), s3)
          end
      end
  end.

(** A JSON value at the front of [s].  Every recursive call is made on a
    strictly shorter input, so [fuel] beyond the length of [s] is never
    exhausted. *)
Fixpoint parse_value (fuel : nat) (s : string) : option (value * string) :=
  match fuel with
  | O => None
  | S fuel' =>
      match skip_ws s with
      | EmptyString => None
      | String c rest =>
          if Ascii.eqb c "n" then option_map (pair Null) (expect "ull" rest)
          else if Ascii.eqb c "t" then option_map (pair (Bool true)) (expect "rue" rest)
          else if Ascii.eqb c "f" then option_map (pair (Bool false)) (expect "alse" rest)
          else if Ascii.eqb c quote then
            match parse_chars rest with
            | Some (str, out) => Some (Str str, out)
            | None => None
            end
          else if Ascii.eqb c "[" then
            match skip_ws rest with
            | String "]" out => Some (Arr [], out)
            | _ =>
                let elements :=
                  fix elements (n : nat) (t : string) : option (list value * string) :=
                    match n with
                    | O => None
                    | S n' =>
                        match parse_value fuel' t with
                        | None => None
                        | Some (v, t1) =>
                            match skip_ws t1 with
                            | String "," t2 =>
                                match elements n' t2 with
                                | Some (vs, out) => Some (v :: vs, out)
                                | None => None
                                end
                            | String "]" out => Some ([v], out)
                            | _ => None
                            end
                        end
                    end in
                match elements fuel' rest with
                | Some (vs, out) => Some (Arr vs, out)
                | None => None
                end
            end
          else if Ascii.eqb c "{" then
            match skip_ws rest with
            | String "}" out => Some (Obj [], out)
            | _ =>
                let members :=
                  fix members (n : nat) (t : string) : option (list (string * value) * string) :=
                    match n with
                    | O => None
                    | S n' =>
                        match skip_ws t with
                        | String q t1 =>
                            if Ascii.eqb q quote then
                              match parse_chars t1 with
                              | None => None
                              | Some (k, t2) =>
                                  match skip_ws t2 with
                                  | String ":" t3 =>
                                      match parse_value fuel' t3 with
                                      | None => None
                                      | Some (v, t4) =>
                                          match skip_ws t4 with
                                          | String "," t5 =>
                                              match members n' t5 with
                                              | Some (kvs, out) => Some ((k, v) :: kvs, out)
                                              | None => None
                                              end
                                          | String "}" out => Some ([(k, v)], out)
                                          | _ => None
                                          end
                                      end
                                  | _ => None
                                  end
                              end
                            else None
                        | EmptyString => None
                        end
                    end in
                match members fuel' rest with
                | Some (kvs, out) => Some (Obj kvs, out)
                | None => None
                end
            end
          else if Ascii.eqb c "-" || is_digit c then parse_number (String c rest)
          else None
      end
  end.

(** [JSON.parse(text)]; [None] is the SyntaxError it throws. *)
Definition parse (text : string) : option value :=
  match parse_value (S (String.length text)) text with
  | Some (v, rest) =>
      match skip_ws rest with
      | EmptyString => Some v
      | String _ _ => None
      end
  | None => None
  end.

(** A string literal of a JSON text: [s] between quotes. *)
Definition quoted (s : string) : string :=
  String quote (s ++ String quote "").

End JSON.

(** ** Size limits and size rendering *)

(** [sizeRE = /^(\d+)(kb|mb|gb)?$/i], as [sizeRE.exec]: the two capture
    groups of a match.  The digits are matched greedily and no unit starts
    with a digit, so the split is the only one possible. *)
Definition sizeRE (s : string) : option (string * option string) :=
  match span_digits s with
  | (EmptyString, _) => None
  | (ds, EmptyString) => Some (ds, None)
  | (ds, rest) =>
      let u := toLowerCase rest in
      if (u =? "kb")%string || (u =? "mb")%string || (u =? "gb")%string
      then Some (ds, Some rest)
      else None
  end.

Definition sizeMultiplier : list (string * Z) :=
  [ ("unit", 1); ("kb", 1000); ("mb", 1000000); ("gb", 1000000000) ].

Fixpoint assoc {A : Type} (k : string) (l : list (string * A)) : option A :=
  match l with
  | [] => None
  | (k', v) :: rest => if (k' =? k)%string then Some v else assoc k rest
  end.

Definition MAX_SAFE_INTEGER : Z := 2 ^ 53 - 1.

(** [beforeGetMaxSize(maxSize)]: the getter hook of the [maxSize] config.
    [None] as argument is a limit that is not configured ([null]); a limit
    configured as a Number reaches [sizeRE.exec] as its decimal string.
    [None] as result is [undefined].  The product is one of Numbers: of the
    double that [parseInt] returns and of the multiplier, rounded again. *)
Definition beforeGetMaxSize (maxSize : option string) : option Z :=
  match maxSize with
  | None => Some MAX_SAFE_INTEGER
  | Some s =>
      match sizeRE s with
      | Some (digits, unit) =>
          let key := toLowerCase (match unit with Some u => u | None => "unit" end) in
          match assoc key sizeMultiplier with
          | Some multiplier => Some (to_double (to_double (parseInt digits) * multiplier))
          | None => None
          end
      | None => None
      end
  end.

Definition sizes : list string := [ "Bytes"; "KB"; "MB"; "GB"; "TB" ].

(** [Math.floor(Math.log(bytes) / Math.log(1024))] for an integer
    [1 <= bytes < 2^53].  On these arguments the quotient of the two
    logarithms is an exact integer at the powers of 1024 and is below the
    next integer by more than its rounding error everywhere else, so the
    floor is the integer logarithm; [log1024_floor_spec] states it. *)
Definition log1024_floor (bytes : Z) : Z := Z.log2 bytes / 10.

Fixpoint zeros (n : nat) : string :=
  match n with
  | O => ""
  | S n' => String "0" (zeros n')
  end.

(** [(num / den).toFixed(digits)] for [0 <= num], [0 < den] and a quotient
    below 10^21, from where [toFixed] writes an exponent: the nearest
    multiple of [10 ^ -digits], the larger one at a tie. *)
Definition toFixed_scaled (num den : Z) (digits : nat) : Z :=
  (2 * num * 10 ^ Z.of_nat digits + den) / (2 * den).

Definition toFixed (num den : Z) (digits : nat) : string :=
  let n := toFixed_scaled num den digits in
  let p := 10 ^ Z.of_nat digits in
  match digits with
  | O => decimal n
  | _ =>
      let frac := decimal (n mod p) in
      decimal (n / p) ++ "." ++ zeros (digits - String.length frac) ++ frac
  end.

(** [formatSize(bytes, separator = '', postFix = '')]; [None] is a byte
    count that is [undefined]. *)
Definition formatSize (bytes : option N) (separator postFix : string) : string :=
  match bytes with
  | Some (Npos _ as b) =>
      let i := Z.min (log1024_floor (Z.of_N b)) (Z.of_nat (List.length sizes) - 1) in
      toFixed (Z.of_N b) (1024 ^ i) (if i =? 0 then 0 else 1)
        ++ separator ++ nth (Z.to_nat i) sizes "" ++ postFix
  | _ => "n/a"
  end.

(** ** The widget *)

Record File : Type := { name : string; size : N }.

(** The configs the code reads; [None] is [null]. *)
Record Config : Type := {
  uploadUrl : option string;
  documentIdParameter : string;
  downloadUrl : option string;
  documentStatusUrl : option string;
  documentDeleteUrl : option string;
  types : option (list (string * JS.value));
  _maxSize : option string
}.

Definition default_config : Config :=
  {| uploadUrl := None;
     documentIdParameter := "documentId";
     downloadUrl := None;
     documentStatusUrl := None;
     documentDeleteUrl := None;
     types := None;
     _maxSize := None |}.

(** The template [`${base}?${parameter}=${id}`], kept in its parts. *)
Record Url : Type := { base : option string; parameter : string; id : JS.value }.

(** The quotient [loaded / total], kept in its parts. *)
Record Progress : Type := { loaded : N; total : N }.

(** What the status line ([vdom.cn[1].cn[1].innerHTML]) is set to. *)
Inductive StatusLine : Type :=
| UploadingPercent (progress : Progress)
| UploadFailedPercent (progress : option Progress)
| ScanningSize (uploadSize : string)
| MalwareFound (fileSize : option string)
| FileSize (fileSize : option string)
| SuccessfullyUploaded (fileSize : option string).

(** The parts of [_vdom] the methods write. *)
Record Vdom : Type := {
  style_upload_progress : option Progress;   (* style['--upload-progress'] *)
  anchor_tag : option string;                (* cn[1].cn[0].tag *)
  anchor_href : option (option Url);         (* cn[1].cn[0].href; [Some None] is '' *)
  anchor_innerHTML : option string;          (* cn[1].cn[0].innerHTML *)
  status_innerHTML : option StatusLine;      (* cn[1].cn[1].innerHTML *)
  input_value : option string;               (* cn[3].value *)
  error_message : option JS.value            (* cn[4].cn, the html of its text node *)
}.

Inductive XMLHttpRequest : Type := NewXMLHttpRequest.

(** The instance.  [error] has a setter and no getter in the source; the
    field keeps the text last assigned through it. *)
Record Widget : Type := {
  config : Config;
  state : string;
  xhr : option XMLHttpRequest;
  documentId : JS.value;
  fileSize : option string;
  uploadSize : option N;
  progress : option Progress;
  error : JS.value;
  vdom : Vdom;
  cls : list string
}.

Definition with_state (v : string) (me : Widget) : Widget :=
  {| config := config me; state := v; xhr := xhr me; documentId := documentId me;
     fileSize := fileSize me; uploadSize := uploadSize me; progress := progress me;
     error := error me; vdom := vdom me; cls := cls me |}.

Definition with_xhr (v : option XMLHttpRequest) (me : Widget) : Widget :=
  {| config := config me; state := state me; xhr := v; documentId := documentId me;
     fileSize := fileSize me; uploadSize := uploadSize me; progress := progress me;
     error := error me; vdom := vdom me; cls := cls me |}.

Definition with_documentId (v : JS.value) (me : Widget) : Widget :=
  {| config := config me; state := state me; xhr := xhr me; documentId := v;
     fileSize := fileSize me; uploadSize := uploadSize me; progress := progress me;
     error := error me; vdom := vdom me; cls := cls me |}.

Definition with_fileSize (v : option string) (me : Widget) : Widget :=
  {| config := config me; state := state me; xhr := xhr me; documentId := documentId me;
     fileSize := v; uploadSize := uploadSize me; progress := progress me;
     error := error me; vdom := vdom me; cls := cls me |}.

Definition with_uploadSize (v : option N) (me : Widget) : Widget :=
  {| config := config me; state := state me; xhr := xhr me; documentId := documentId me;
     fileSize := fileSize me; uploadSize := v; progress := progress me;
     error := error me; vdom := vdom me; cls := cls me |}.

Definition with_progress (v : option Progress) (me : Widget) : Widget :=
  {| config := config me; state := state me; xhr := xhr me; documentId := documentId me;
     fileSize := fileSize me; uploadSize := uploadSize me; progress := v;
     error := error me; vdom := vdom me; cls := cls me |}.

Definition with_error (v : JS.value) (me : Widget) : Widget :=
  {| config := config me; state := state me; xhr := xhr me; documentId := documentId me;
     fileSize := fileSize me; uploadSize := uploadSize me; progress := progress me;
     error := v; vdom := vdom me; cls := cls me |}.

Definition with_vdom (v : Vdom) (me : Widget) : Widget :=
  {| config := config me; state := state me; xhr := xhr me; documentId := documentId me;
     fileSize := fileSize me; uploadSize := uploadSize me; progress := progress me;
     error := error me; vdom := v; cls := cls me |}.

Definition with_cls (v : list string) (me : Widget) : Widget :=
  {| config := config me; state := state me; xhr := xhr me; documentId := documentId me;
     fileSize := fileSize me; uploadSize := uploadSize me; progress := progress me;
     error := error me; vdom := vdom me; cls := v |}.

Definition with_progress_style (v : option Progress) (d : Vdom) : Vdom :=
  {| style_upload_progress := v; anchor_tag := anchor_tag d; anchor_href := anchor_href d;
     anchor_innerHTML := anchor_innerHTML d; status_innerHTML := status_innerHTML d;
     input_value := input_value d; error_message := error_message d |}.

Definition with_anchor (tag : string) (href : option Url) (d : Vdom) : Vdom :=
  {| style_upload_progress := style_upload_progress d; anchor_tag := Some tag;
     anchor_href := Some href;
     anchor_innerHTML := anchor_innerHTML d; status_innerHTML := status_innerHTML d;
     input_value := input_value d; error_message := error_message d |}.

Definition with_anchor_innerHTML (v : string) (d : Vdom) : Vdom :=
  {| style_upload_progress := style_upload_progress d; anchor_tag := anchor_tag d;
     anchor_href := anchor_href d;
     anchor_innerHTML := Some v; status_innerHTML := status_innerHTML d;
     input_value := input_value d; error_message := error_message d |}.

Definition with_status_innerHTML (v : StatusLine) (d : Vdom) : Vdom :=
  {| style_upload_progress := style_upload_progress d; anchor_tag := anchor_tag d;
     anchor_href := anchor_href d;
     anchor_innerHTML := anchor_innerHTML d; status_innerHTML := Some v;
     input_value := input_value d; error_message := error_message d |}.

Definition with_input_value (v : option string) (d : Vdom) : Vdom :=
  {| style_upload_progress := style_upload_progress d; anchor_tag := anchor_tag d;
     anchor_href := anchor_href d;
     anchor_innerHTML := anchor_innerHTML d; status_innerHTML := status_innerHTML d;
     input_value := v; error_message := error_message d |}.

Definition with_error_message (v : JS.value) (d : Vdom) : Vdom :=
  {| style_upload_progress := style_upload_progress d; anchor_tag := anchor_tag d;
     anchor_href := anchor_href d;
     anchor_innerHTML := anchor_innerHTML d; status_innerHTML := status_innerHTML d;
     input_value := input_value d; error_message := Some v |}.

(** What a method asks of its host: timers, requests, focus changes.  A
    [Timer] or a [Reply] names the code that runs when the host answers. *)
Inductive Timer : Type :=
| ClearFocus                 (* clear(), after its pause *)
| UploadStart (file : File)  (* upload(file), after its pause *)
| StatusCheck.               (* () => me.checkDocumentStatus() *)

Inductive Reply : Type :=
| DeleteReply                (* deleteDocument(), after its fetch *)
| StatusReply.               (* checkDocumentStatus(), after its fetch *)

Inductive Node : Type := ActionButton | FileInput.

Inductive Effect : Type :=
| SetTimeout (k : Timer) (ms : Z)
| Fetch (url : Url) (k : Reply)
| XhrSend (method : string) (url : option string) (file : File)
| XhrAbort
| Focus (node : Node).

(** Modelled from the spec: [NeoArray.add] and [NeoArray.remove] of
    util/Array.mjs, which is not part of the excerpt: add a tag unless it is
    there, remove a tag. *)
Definition NeoArray_add (arr : list string) (item : string) : list string :=
  if existsb (String.eqb item) arr then arr else arr ++ [item].

Definition NeoArray_remove (arr : list string) (item : string) : list string :=
  filter (fun x => negb (String.eqb item x)) arr.

(** [set error(text)]. *)
Definition set_error (text : JS.value) (me : Widget) : Widget :=
  let me := with_error text me in
  if JS.truthy text then
    let me := with_vdom (with_error_message text (vdom me)) me in
    with_cls (NeoArray_add (cls me) "neo-invalid") me
  else
    with_cls (NeoArray_remove (cls me) "neo-invalid") me.

Definition download_link (me : Widget) : Url :=
  {| base := downloadUrl (config me);
     parameter := documentIdParameter (config me);
     id := documentId me |}.

(** [afterSetState(value, oldValue)]. *)
Definition afterSetState (value oldValue : string) (me : Widget) : Widget :=
  let me :=
    if (value =? "ready")%string then
      with_vdom (with_anchor "div" None (vdom me)) me
    else if (value =? "upload-failed")%string then
      with_vdom (with_status_innerHTML (UploadFailedPercent (progress me)) (vdom me)) me
    else if (value =? "processing")%string then
      with_vdom (with_status_innerHTML
                   (ScanningSize (formatSize (uploadSize me) "" "")) (vdom me)) me
    else if (value =? "scan-failed")%string then
      let me := with_vdom (with_status_innerHTML (MalwareFound (fileSize me)) (vdom me)) me in
      set_error (JS.Str "Please check the file and try again") me
    else if (value =? "downloadable")%string then
      let me := with_vdom (with_anchor "a" (Some (download_link me)) (vdom me)) me in
      with_vdom (with_status_innerHTML (FileSize (fileSize me)) (vdom me)) me
    else if (value =? "not-downloadable")%string then
      with_vdom (with_status_innerHTML (SuccessfullyUploaded (fileSize me)) (vdom me)) me
    else me in
  let cls := NeoArray_remove (cls me) ("neo-file-upload-state-" ++ oldValue) in
  let cls := NeoArray_add cls ("neo-file-upload-state-" ++ value) in
  with_cls cls me.

(** Modelled from the spec: the setter the config system generates for
    [state_] (Neo.mjs is not part of the excerpt).  Assigning [me.state]
    stores the value and, when it has changed, runs [afterSetState]. *)
Definition set_state (value : string) (me : Widget) : Widget :=
  let oldValue := state me in
  let me := with_state value me in
  if (value =? oldValue)%string then me else afterSetState value oldValue me.

(** Modelled from the spec: the getter the config system generates for
    [maxSize_]; reading [me.maxSize] passes the stored value through
    [beforeGetMaxSize]. *)
Definition maxSize (me : Widget) : option Z :=
  beforeGetMaxSize (_maxSize (config me)).

(** The widget as constructed: [state_: 'ready'] has been applied. *)
Definition initial (c : Config) : Widget :=
  {| config := c;
     state := "ready";
     xhr := None;
     documentId := JS.Undefined;
     fileSize := None;
     uploadSize := None;
     progress := None;
     error := JS.Undefined;
     vdom := {| style_upload_progress := None; anchor_tag := Some "div";
                anchor_href := Some None; anchor_innerHTML := None;
                status_innerHTML := None; input_value := None;
                error_message := None |};
     cls := [ "neo-file-upload-field"; "neo-file-upload-state-ready" ] |}.

(** ** Methods *)

(** A method runs on the instance, may change it, may ask effects of the
    host, and ends normally or by throwing. *)
Inductive Exception : Type := SyntaxError | TypeError.

Inductive Completion (A : Type) : Type :=
| Normal (a : A) (me : Widget) (effects : list Effect)
| Abrupt (e : Exception) (me : Widget) (effects : list Effect).

Arguments Normal {A} a me effects.
Arguments Abrupt {A} e me effects.

Definition Method (A : Type) : Type := Widget -> Completion A.

Definition ret {A : Type} (a : A) : Method A :=
  fun me => Normal a me [].

Definition bind {A B : Type} (c : Method A) (k : A -> Method B) : Method B :=
  fun me =>
    match c me with
    | Normal a me' eff =>
        match k a me' with
        | Normal b me'' eff' => Normal b me'' (eff ++ eff')
        | Abrupt e me'' eff' => Abrupt e me'' (eff ++ eff')
        end
    | Abrupt e me' eff => Abrupt e me' eff
    end.

Definition read {A : Type} (f : Widget -> A) : Method A :=
  fun me => Normal (f me) me [].

Definition assign (f : Widget -> Widget) : Method unit :=
  fun me => Normal tt (f me) [].

Definition host (e : Effect) : Method unit :=
  fun me => Normal tt me [e].

Definition throw {A : Type} (e : Exception) : Method A :=
  fun me => Abrupt e me [].

Definition or_throw {A : Type} (e : Exception) (o : option A) : Method A :=
  match o with
  | Some a => ret a
  | None => throw e
  end.

Declare Scope method_scope.
Delimit Scope method_scope with method.
Notation "x <- c ;; k" := (bind c (fun x => k))
  (at level 61, c at next level, right associativity) : method_scope.
Notation "c ;; k" := (bind c (fun _ => k))
  (at level 61, right associativity) : method_scope.
Local Open Scope method_scope.

(** The instance a method leaves behind, and what it asked of the host. *)
Definition after {A : Type} (c : Completion A) : Widget :=
  match c with
  | Normal _ me _ => me
  | Abrupt _ me _ => me
  end.

Definition effects {A : Type} (c : Completion A) : list Effect :=
  match c with
  | Normal _ _ eff => eff
  | Abrupt _ _ eff => eff
  end.

Definition thrown {A : Type} (c : Completion A) : option Exception :=
  match c with
  | Normal _ _ _ => None
  | Abrupt e _ _ => Some e
  end.

(** [clear()], up to its [await] and after it. *)
Definition clear : Method unit :=
  assign (fun me => with_vdom (with_input_value (Some "") (vdom me)) me) ;;
  assign (set_state "ready") ;;
  assign (set_error (JS.Str "")) ;;
  host (SetTimeout ClearFocus 100).

Definition clear_resumed : Method unit :=
  host (Focus FileInput).

(** [upload(file)], up to its [await] and after it. *)
Definition upload (file : File) : Method unit :=
  assign (with_xhr (Some NewXMLHttpRequest)) ;;
  assign (set_state "starting") ;;
  host (SetTimeout (UploadStart file) 100).

Definition upload_resumed (file : File) : Method unit :=
  host (Focus ActionButton) ;;
  assign (fun me => with_vdom (with_anchor_innerHTML (name file) (vdom me)) me) ;;
  assign (set_state "uploading") ;;
  url <- read (fun me => uploadUrl (config me)) ;;
  host (XhrSend "POST" url file).

(** The extension the type check looks up: [file.name] after its last dot. *)
Definition extension (file_name : string) : string :=
  let pointPos := lastIndexOf "." file_name in
  if pointPos >? -1 then slice (pointPos + 1) file_name else "".

(** [me.types && !types[type]] *)
Definition type_rejected (me : Widget) (type : string) : bool :=
  match types (config me) with
  | Some types => negb (JS.truthy (JS.lookup types type))
  | None => false
  end.

(** [file.size > me.maxSize]; a comparison with [undefined] is false. *)
Definition size_exceeded (me : Widget) (file : File) : bool :=
  match maxSize me with
  | Some limit => Z.of_N (size file) >? limit
  | None => false
  end.

Definition String_of_maxSize (v : option string) : string :=
  match v with
  | Some s => s
  | None => "null"
  end.

(** [onInputValueChange({ files })] *)
Definition onInputValueChange (files : list File) : Method unit :=
  match files with
  | file :: _ =>
      let type := extension (name file) in
      me <- read (fun me => me) ;;
      if type_rejected me type then
        let types := match types (config me) with Some t => t | None => [] end in
        assign (set_error (JS.Str ("Please use these file types: ."
                                     ++ JS.join " ." (JS.keys types))))
      else if size_exceeded me file then
        assign (set_error (JS.Str ("File size exceeds "
                                     ++ toUpperCase (String_of_maxSize (_maxSize (config me))))))
      else
        assign (with_fileSize (Some (formatSize (Some (size file)) "" ""))) ;;
        assign (set_error (JS.Str "")) ;;
        upload file
  | [] => assign (set_state "ready")
  end.

(** [onUploadProgress({ loaded, total })] *)
Definition onUploadProgress (loaded total : N) : Method unit :=
  let progress := {| loaded := loaded; total := total |} in
  assign (with_progress (Some progress)) ;;
  assign (fun me => with_vdom (with_progress_style (Some progress) (vdom me)) me) ;;
  assign (fun me => with_vdom (with_status_innerHTML (UploadingPercent progress) (vdom me)) me) ;;
  assign (with_uploadSize (Some loaded)).

(** [onUploadAbort(e)] *)
Definition onUploadAbort : Method unit :=
  assign (with_xhr None) ;;
  clear.

(** [onUploadError(e)], with [e.type]. *)
Definition onUploadError (type : string) : Method unit :=
  assign (with_xhr None) ;;
  assign (set_state "upload-failed") ;;
  assign (set_error (JS.Str type)).

(** [String(status).slice(0, 1) === '2'] *)
Definition is_2xx (status : N) : bool :=
  match decimal (Z.of_N status) with
  | String "2" _ => true
  | _ => false
  end.

(** What [(await statusResponse.json()).status] comes to.  [json()] rejects
    with a SyntaxError when the body of the reply is no JSON text; reading
    [status] of the JSON [null] throws a TypeError; otherwise the read gives
    the status that the service reports, which by the contract of the
    service is a string.  A JSON body that carries no string status is
    outside that contract and is not modelled. *)
Inductive Json : Type :=
| Malformed
| JsonNull
| Document (reported : string).

(** What a fetch resolves to: the HTTP status line and the body. *)
Record HttpResponse : Type := {
  status : N;
  statusText : string;
  json : Json
}.

Definition status_link (me : Widget) : Url :=
  {| base := documentStatusUrl (config me);
     parameter := documentIdParameter (config me);
     id := documentId me |}.

Definition delete_link (me : Widget) : Url :=
  {| base := documentDeleteUrl (config me);
     parameter := documentIdParameter (config me);
     id := documentId me |}.

(** [checkDocumentStatus()], up to its [await fetch] and after it.  The
    method has no handler: what [await statusResponse.json()] or the read of
    [status] throws ends it, and so does an [await fetch] that throws. *)
Definition checkDocumentStatus : Method unit :=
  state <- read state ;;
  if (state =? "processing")%string then
    url <- read status_link ;;
    host (Fetch url StatusReply)
  else ret tt.

Definition checkDocumentStatus_resumed (statusResponse : HttpResponse) : Method unit :=
  if is_2xx (status statusResponse) then
    status <- match json statusResponse with
              | Malformed => throw SyntaxError
              | JsonNull => throw TypeError
              | Document status => ret status
              end ;;
    if (status =? "scanning")%string then host (SetTimeout StatusCheck 2000)
    else assign (set_state status)
  else
    assign (set_error (JS.Str ("Document status service error: "
                                 ++ statusText statusResponse))).

(** [fetch] rejects with a TypeError when the request cannot be made or no
    reply comes; the [await] throws it on. *)
Definition checkDocumentStatus_failed : Method unit :=
  throw TypeError.

(** [deleteDocument()], up to its [await fetch] and after it. *)
Definition deleteDocument : Method unit :=
  url <- read delete_link ;;
  host (Fetch url DeleteReply).

Definition deleteDocument_resumed (statusResponse : HttpResponse) : Method unit :=
  if is_2xx (status statusResponse) then
    clear ;;
    assign (set_state "ready")
  else
    assign (set_error (JS.Str ("Document delete service error: "
                                 ++ statusText statusResponse))).

Definition deleteDocument_failed : Method unit :=
  throw TypeError.

(** A URL config that is [null] or empty is falsy. *)
Definition configured (url : option string) : bool :=
  match url with
  | Some u => negb (u =? "")%string
  | None => false
  end.

(** [onUploadDone({ loaded, target : xhr })], with [xhr.response]. *)
Definition onUploadDone (loaded : N) (xhr_response : string) : Method unit :=
  assign (with_xhr None) ;;
  if negb (loaded =? 0)%N then
    response <- or_throw SyntaxError (JSON.parse xhr_response) ;;
    success <- or_throw TypeError (JS.get response "success") ;;
    if JS.truthy success then
      documentIdParameter <- read (fun me => documentIdParameter (config me)) ;;
      id <- or_throw TypeError (JS.get response documentIdParameter) ;;
      assign (with_documentId id) ;;
      documentStatusUrl <- read (fun me => documentStatusUrl (config me)) ;;
      if configured documentStatusUrl then
        assign (set_state "processing") ;;
        checkDocumentStatus
      else
        assign (set_state "downloadable")
    else
      message <- or_throw TypeError (JS.get response "message") ;;
      assign (set_error message) ;;
      assign (set_state "upload-failed")
  else ret tt.

(** [abortUpload()]: [this.xhr?.abort()] *)
Definition abortUpload : Method unit :=
  xhr <- read xhr ;;
  match xhr with
  | Some _ => host XhrAbort
  | None => ret tt
  end.

(** [onActionButtonClick()] *)
Definition onActionButtonClick : Method unit :=
  state <- read state ;;
  if (state =? "uploading")%string then abortUpload
  else if (state =? "upload-failed")%string || (state =? "scan-failed")%string then
    clear ;;
    assign (set_state "ready")
  else if (state =? "processing")%string || (state =? "downloadable")%string
          || (state =? "not-downloadable")%string then
    deleteDocument
  else ret tt.

(** ** The event loop *)

(** What the host delivers to the widget: DOM events, the events of the
    transfer, a timer that has elapsed, a fetch that has resolved or has
    been rejected. *)
Inductive Event : Type :=
| InputChange (files : list File)
| ButtonClick
| UploadProgress (loaded total : N)
| UploadError (type : string)
| UploadAbort
| LoadEnd (loaded : N) (xhr_response : string)
| Elapsed (k : Timer)
| Replied (k : Reply) (statusResponse : HttpResponse)
| Failed (k : Reply).

(** The listener each event reaches. *)
Definition dispatch (ev : Event) : Method unit :=
  match ev with
  | InputChange files => onInputValueChange files
  | ButtonClick => onActionButtonClick
  | UploadProgress loaded total => onUploadProgress loaded total
  | UploadError type => onUploadError type
  | UploadAbort => onUploadAbort
  | LoadEnd loaded xhr_response => onUploadDone loaded xhr_response
  | Elapsed ClearFocus => clear_resumed
  | Elapsed (UploadStart file) => upload_resumed file
  | Elapsed StatusCheck => checkDocumentStatus
  | Replied DeleteReply statusResponse => deleteDocument_resumed statusResponse
  | Replied StatusReply statusResponse => checkDocumentStatus_resumed statusResponse
  | Failed DeleteReply => deleteDocument_failed
  | Failed StatusReply => checkDocumentStatus_failed
  end.

Definition File_eqb (a b : File) : bool :=
  (name a =? name b)%string && (size a =? size b)%N.

Definition Timer_eqb (a b : Timer) : bool :=
  match a, b with
  | ClearFocus, ClearFocus => true
  | UploadStart f, UploadStart g => File_eqb f g
  | StatusCheck, StatusCheck => true
  | _, _ => false
  end.

Definition Reply_eqb (a b : Reply) : bool :=
  match a, b with
  | DeleteReply, DeleteReply => true
  | StatusReply, StatusReply => true
  | _, _ => false
  end.

(** The effects whose answer the host still owes. *)
Definition waits (e : Effect) : bool :=
  match e with
  | SetTimeout _ _ | Fetch _ _ | XhrSend _ _ _ => true
  | XhrAbort | Focus _ => false
  end.

(** [answers ev e]: event [ev] is an answer to the pending effect [e]. *)
Definition answers (ev : Event) (e : Effect) : bool :=
  match ev, e with
  | Elapsed k, SetTimeout k' _ => Timer_eqb k k'
  | Replied k _, Fetch _ k' => Reply_eqb k k'
  | Failed k, Fetch _ k' => Reply_eqb k k'
  | UploadProgress _ _, XhrSend _ _ _ => true
  | UploadError _, XhrSend _ _ _ => true
  | UploadAbort, XhrSend _ _ _ => true
  | LoadEnd _ _, XhrSend _ _ _ => true
  | _, _ => false
  end.

(** [take p l] removes the first element of [l] that satisfies [p]. *)
Fixpoint take (p : Effect -> bool) (l : list Effect) : option (list Effect) :=
  match l with
  | [] => None
  | e :: rest =>
      if p e then Some rest
      else match take p rest with
           | Some rest' => Some (e :: rest')
           | None => None
           end
  end.

Record System : Type := { widget : Widget; pending : list Effect }.

Definition boot (c : Config) : System :=
  {| widget := initial c; pending := [] |}.

(** One turn of the event loop.  The user may act at any time; a timer, a
    reply, a rejection or [loadend] needs a pending effect and settles it; the other
    events of a transfer need a pending transfer and leave it pending.  An
    exception ends the turn, and what the listener did before stays. *)
Definition turn (ev : Event) (s : System) : option System :=
  let deliver (pending : list Effect) :=
    let c := dispatch ev (widget s) in
    Some {| widget := after c; pending := pending ++ filter waits (effects c) |} in
  match ev with
  | InputChange _ | ButtonClick => deliver (pending s)
  | Elapsed _ | Replied _ _ | Failed _ | LoadEnd _ _ =>
      match take (answers ev) (pending s) with
      | Some rest => deliver rest
      | None => None
      end
  | UploadProgress _ _ | UploadError _ | UploadAbort =>
      if existsb (answers ev) (pending s) then deliver (pending s) else None
  end.

Fixpoint run (evs : list Event) (s : System) : option System :=
  match evs with
  | [] => Some s
  | ev :: rest =>
      match turn ev s with
      | Some s' => run rest s'
      | None => None
      end
  end.

(** ** Fixtures: a configured widget and a session on it *)

Definition demo_config : Config :=
  {| uploadUrl := Some "/upload";
     documentIdParameter := "documentId";
     downloadUrl := Some "/download";
     documentStatusUrl := Some "/status";
     documentDeleteUrl := Some "/delete";
     types := Some [("pdf", JS.Bool true)];
     _maxSize := Some "100mb" |}.

Definition report_pdf : File := {| name := "report.pdf"; size := 2048 |}.

(** A reply whose body is a JSON document with the status [reported]. *)
Definition http (code : N) (text reported : string) : HttpResponse :=
  {| status := code; statusText := text; json := Document reported |}.

(** [{"success":true,"documentId":7}] and
    [{"success":false,"message":"virus"}] *)
Definition upload_accepted : string :=
  "{" ++ JSON.quoted "success" ++ ":true," ++ JSON.quoted "documentId" ++ ":7}".

Definition upload_rejected : string :=
  "{" ++ JSON.quoted "success" ++ ":false," ++ JSON.quoted "message" ++ ":"
      ++ JSON.quoted "virus" ++ "}".

(** The widget while [report.pdf] is being transferred. *)
Definition uploading_widget : Widget :=
  after (upload_resumed report_pdf
           (after (onInputValueChange [report_pdf] (initial demo_config)))).

(** The widget once the upload has been acknowledged and is being scanned. *)
Definition processing_widget : Widget :=
  after (onUploadDone 31 upload_accepted uploading_widget).

(** A session in which the user deletes the document while a status check
    is scheduled: the upload is acknowledged, the first poll says scanning
    and schedules the next check; the user clicks the action button, so that
    the delete request leaves; the scheduled check fires before the delete
    service has answered; the delete service answers 200; the status
    service answers the second poll. *)
Definition delete_during_poll : list Event :=
  [ InputChange [report_pdf];
    Elapsed (UploadStart report_pdf);
    LoadEnd 31 upload_accepted;
    Replied StatusReply (http 200 "OK" "scanning");
    ButtonClick;
    Elapsed StatusCheck;
    Replied DeleteReply (http 200 "OK" "");
    Replied StatusReply (http 200 "OK" "downloadable") ].

(** The state, and what the host still owes, after the first [n] events. *)
Definition state_after (n : nat) (evs : list Event) : option string :=
  option_map (fun s => state (widget s)) (run (firstn n evs) (boot demo_config)).

Definition pending_after (n : nat) (evs : list Event) : option (list Effect) :=
  option_map pending (run (firstn n evs) (boot demo_config)).

(** ** Vocabulary of the properties *)

(** The units of a size limit and what they multiply by; a limit may spell
    them in any mix of letter cases. *)
Definition unit_multipliers : list (string * Z) :=
  [ ("kb", 1000); ("mb", 1000000); ("gb", 1000000000) ].

(** The three-digit HTTP status codes. *)
Definition status_codes : list N := map N.of_nat (seq 100 900).

(** [acknowledges ev]: the event is the completion of an upload that carried
    bytes and whose body is JSON with a truthy [success]. *)
Definition acknowledges (ev : Event) : bool :=
  match ev with
  | LoadEnd loaded xhr_response =>
      negb (loaded =? 0)%N
      && match JSON.parse xhr_response with
         | Some response =>
             match JS.get response "success" with
             | Some success => JS.truthy success
             | None => false
             end
         | None => false
         end
  | _ => false
  end.

(** A method that leaves the document identifier as it finds it. *)
Definition keeps_documentId {A : Type} (m : Method A) : Prop :=
  forall me, documentId (after (m me)) = documentId me.

(** A method that never throws. *)
Definition completes {A : Type} (m : Method A) : Prop :=
  forall me, thrown (m me) = None.

(** ** Vocabulary of the further properties *)

(** [preserves P m]: the method keeps the property [P] of the instance. *)
Definition preserves {A : Type} (P : Widget -> Prop) (m : Method A) : Prop :=
  forall me, P me -> P (after (m me)).

(** The states the code assigns as string literals. *)
Definition assigned_literals : list string :=
  [ "ready"; "starting"; "uploading"; "upload-failed"; "processing"; "downloadable" ].

(** The status that an event reports for the state to take: that of a 2xx
    reply of the status service whose body carries one, unless it is
    scanning. *)
Definition reported_status (ev : Event) : list string :=
  match ev with
  | Replied StatusReply statusResponse =>
      if is_2xx (status statusResponse) then
        match json statusResponse with
        | Document status => if (status =? "scanning")%string then [] else [status]
        | Malformed | JsonNull => []
        end
      else []
  | _ => []
  end.

(** The states the listener of an event can assign: the literals and the
    status the event reports. *)
Definition assigned_states (ev : Event) : list string :=
  assigned_literals ++ reported_status ev.

(** The statuses that have been reported in a run. *)
Fixpoint reported_statuses (evs : list Event) : list string :=
  match evs with
  | [] => []
  | ev :: rest => reported_status ev ++ reported_statuses rest
  end.

(** The tag [afterSetState] keeps in [cls] for a state. *)
Definition state_tag (v : string) : string := "neo-file-upload-state-" ++ v.

(** The widget carries the tag of its state and of no other state. *)
Definition tagged (me : Widget) : Prop :=
  forall v, In (state_tag v) (cls me) <-> v = state me.

(** The invalid tag is on exactly when the error text is not empty, and
    then the message node holds that text. *)
Definition error_shown (me : Widget) : Prop :=
  (In "neo-invalid" (cls me) <-> JS.truthy (error me) = true)
  /\ (JS.truthy (error me) = true -> error_message (vdom me) = Some (error me)).

(** [emits L m]: whatever the method asks of the host satisfies [L]. *)
Definition emits {A : Type} (L : Effect -> Prop) (m : Method A) : Prop :=
  forall me e, In e (effects (m me)) -> L e.

Definition no_status_request (e : Effect) : Prop :=
  match e with
  | Fetch _ StatusReply => False
  | _ => True
  end.

Definition no_delete_request (e : Effect) : Prop :=
  match e with
  | Fetch _ DeleteReply => False
  | _ => True
  end.

Definition no_transfer (e : Effect) : Prop :=
  match e with
  | SetTimeout (UploadStart _) _ | XhrSend _ _ _ => False
  | _ => True
  end.

(** A file that passes both checks of [onInputValueChange] under a
    configuration. *)
Definition acceptable (cfg : Config) (file : File) : Prop :=
  type_rejected (initial cfg) (extension (name file)) = false
  /\ size_exceeded (initial cfg) file = false.

(** A pending effect that concerns a transfer is about an acceptable file,
    and the transfer itself is a POST to the upload URL. *)
Definition sound_transfer (cfg : Config) (e : Effect) : Prop :=
  match e with
  | SetTimeout (UploadStart file) _ => acceptable cfg file
  | XhrSend method url file =>
      method = "POST" /\ url = uploadUrl cfg /\ acceptable cfg file
  | _ => True
  end.

(** A session that ends with a document that can be downloaded. *)
Definition upload_and_scan : list Event :=
  [ InputChange [report_pdf];
    Elapsed (UploadStart report_pdf);
    LoadEnd 31 upload_accepted;
    Replied StatusReply (http 200 "OK" "downloadable") ].

(** The widget offers the document of a file for download. *)
Definition offers_download (cfg : Config) (file : File) (id : JS.value) (me : Widget) : Prop :=
  state me = "downloadable"
  /\ documentId me = id
  /\ anchor_tag (vdom me) = Some "a"
  /\ anchor_href (vdom me)
     = Some (Some {| base := downloadUrl cfg;
                     parameter := documentIdParameter cfg;
                     id := id |})
  /\ anchor_innerHTML (vdom me) = Some (name file)
  /\ error me = JS.Str ""
  /\ xhr me = None.

(** ** Radio fields *)

Module Radio.

(** What [uncheckGroupItems] reads and writes of a registered component. *)
Record Component : Type := {
  id : string;
  ntype : string;
  name : string;
  _checked : bool;
  value : JS.value
}.

(** [matches ntype' name' item]: the component has these two properties. *)
Definition matches (ntype' name' : string) (item : Component) : bool :=
  (ntype item =? ntype')%string && (name item =? name')%string.

(** Modelled from the spec: [ComponentManager.find(config)] of
    manager/Component.mjs, which is not part of the excerpt: the registered
    components whose properties equal those of [config], here [ntype] and
    [name]. *)
Definition find (ntype' name' : string) (registry : list Component) : list Component :=
  filter (matches ntype' name') registry.

(** Modelled from the spec: the setter the config system generates for
    [checked_]; of what it does, the stored value [_checked] is kept. *)
Definition set_checked (v : bool) (item : Component) : Component :=
  {| id := id item; ntype := ntype item; name := name item; _checked := v;
     value := value item |}.

(** [uncheckGroupItems()]: the registry after the loop.  The radios that
    [find] returns are the objects of the registry, so the loop over them
    updates the registry where they stand. *)
Definition uncheckGroupItems (me : Component) (registry : list Component) : list Component :=
  map (fun item =>
         if matches "radiofield" (name me) item then
           if negb (id item =? id me)%string && _checked item
           then set_checked false item
           else item
         else item)
      registry.

(** [afterSetChecked(value, oldValue)], after the call to the method of the
    superclass, which is not part of the excerpt. *)
Definition afterSetChecked (v : bool) (me : Component) (registry : list Component)
  : list Component :=
  if v then uncheckGroupItems me registry else registry.

(** [getValue()] *)
Definition getValue (me : Component) : JS.value :=
  if _checked me then value me else JS.Undefined.

End Radio.

(** ** The side navigation list *)

Module SideNavList.

(** [onStoreLoad()]: the value it stores as [maxIndex]; a record of the
    store is the list of its fields. *)
Definition onStoreLoad (items : list (list (string * JS.value))) : Z :=
  fold_left
    (fun maxIndex record =>
       if negb (JS.truthy (JS.lookup record "isHeader")) then maxIndex + 1 else maxIndex)
    items (-1).

Definition is_item (record : list (string * JS.value)) : bool :=
  negb (JS.truthy (JS.lookup record "isHeader")).

End SideNavList.

(** ** Properties *)

(** *** The setters *)

Ltac split_ifs :=
  repeat match goal with
         | |- context [if ?b then _ else _] => destruct b
         end.

Ltac setters := unfold set_state, afterSetState, set_error; split_ifs; simpl.

Lemma state_set_state (v : string) (me : Widget) : state (set_state v me) = v.
Proof. setters; reflexivity. Qed.

Lemma xhr_set_state (v : string) (me : Widget) : xhr (set_state v me) = xhr me.
Proof. setters; reflexivity. Qed.

Lemma config_set_state (v : string) (me : Widget) : config (set_state v me) = config me.
Proof. setters; reflexivity. Qed.

Lemma documentId_set_state (v : string) (me : Widget) :
  documentId (set_state v me) = documentId me.
Proof. setters; reflexivity. Qed.

Lemma input_value_set_state (v : string) (me : Widget) :
  input_value (vdom (set_state v me)) = input_value (vdom me).
Proof. setters; reflexivity. Qed.

Lemma error_set_state (v : string) (me : Widget) :
  v <> "scan-failed" -> error (set_state v me) = error me.
Proof.
  intros Hv. unfold set_state, afterSetState.
  destruct (String.eqb_spec v "scan-failed") as [E | _]; [contradiction |].
  split_ifs; reflexivity.
Qed.

Lemma set_state_same (me : Widget) : set_state (state me) me = me.
Proof.
  unfold set_state. rewrite String.eqb_refl. destruct me; reflexivity.
Qed.

Lemma state_set_error (t : JS.value) (me : Widget) : state (set_error t me) = state me.
Proof. setters; reflexivity. Qed.

Lemma xhr_set_error (t : JS.value) (me : Widget) : xhr (set_error t me) = xhr me.
Proof. setters; reflexivity. Qed.

Lemma config_set_error (t : JS.value) (me : Widget) : config (set_error t me) = config me.
Proof. setters; reflexivity. Qed.

Lemma documentId_set_error (t : JS.value) (me : Widget) :
  documentId (set_error t me) = documentId me.
Proof. setters; reflexivity. Qed.

Lemma error_set_error (t : JS.value) (me : Widget) : error (set_error t me) = t.
Proof. setters; reflexivity. Qed.

Lemma input_value_set_error (t : JS.value) (me : Widget) :
  input_value (vdom (set_error t me)) = input_value (vdom me).
Proof. setters; reflexivity. Qed.

Lemma NeoArray_remove_spec (arr : list string) (item : string) :
  ~ In item (NeoArray_remove arr item).
Proof.
  unfold NeoArray_remove. intros H. apply filter_In in H as [_ H].
  rewrite String.eqb_refl in H. discriminate.
Qed.

Lemma NeoArray_add_spec (arr : list string) (item : string) :
  In item (NeoArray_add arr item).
Proof.
  unfold NeoArray_add. destruct (existsb (String.eqb item) arr) eqn:E.
  - apply existsb_exists in E as [x [Hx Ex]].
    apply String.eqb_eq in Ex. now subst.
  - apply in_or_app. right. now left.
Qed.

(** An error text that is set is shown: it is the text of the message node
    and the widget is tagged invalid. *)
Lemma set_error_shown (t : JS.value) (me : Widget) :
  JS.truthy t = true ->
  error_message (vdom (set_error t me)) = Some t /\ In "neo-invalid" (cls (set_error t me)).
Proof.
  intros Ht. unfold set_error. rewrite Ht. simpl. split; [reflexivity |].
  apply NeoArray_add_spec.
Qed.

(** An empty error text takes the invalid tag away. *)
Lemma set_error_hidden (t : JS.value) (me : Widget) :
  JS.truthy t = false -> ~ In "neo-invalid" (cls (set_error t me)).
Proof.
  intros Ht. unfold set_error. rewrite Ht. simpl. apply NeoArray_remove_spec.
Qed.

Create Rewrite HintDb widget.
#[local] Hint Rewrite state_set_state xhr_set_state config_set_state documentId_set_state
  input_value_set_state state_set_error xhr_set_error config_set_error
  documentId_set_error error_set_error input_value_set_error : widget.

(** *** Size limits *)

Lemma span_digits_app (ds u : string) :
  all_digits ds = true ->
  match u with String c _ => is_digit c = false | EmptyString => True end ->
  span_digits (ds ++ u) = (ds, u).
Proof.
  intros Hds Hu. induction ds as [| c ds IH]; simpl in *.
  - destruct u as [| c u]; [reflexivity |]. simpl. now rewrite Hu.
  - apply andb_true_iff in Hds as [Hc Hds]. rewrite Hc, (IH Hds). reflexivity.
Qed.

Lemma span_digits_all (ds : string) :
  all_digits ds = true -> span_digits ds = (ds, "").
Proof.
  intros H. pose proof (span_digits_app ds "" H I) as E.
  replace (ds ++ "") with ds in E; [exact E |].
  clear. induction ds as [| c ds IH]; simpl; [reflexivity | now rewrite <- IH].
Qed.

Lemma lower_letter_not_digit (c : ascii) :
  lower c = "k"%char \/ lower c = "m"%char \/ lower c = "g"%char -> is_digit c = false.
Proof.
  destruct c as [[] [] [] [] [] [] [] []]; vm_compute; intros [H | [H | H]];
    first [reflexivity | discriminate H].
Qed.

Lemma sizeRE_unit (digits unit : string) (multiplier : Z) :
  digits <> "" -> all_digits digits = true ->
  In (toLowerCase unit, multiplier) unit_multipliers ->
  sizeRE (digits ++ unit) = Some (digits, Some unit)
  /\ assoc (toLowerCase unit) sizeMultiplier = Some multiplier.
Proof.
  intros Hne Hds Hin.
  assert (Hu : exists c rest, unit = String c rest /\ is_digit c = false).
  { destruct unit as [| c rest]; simpl in Hin.
    - repeat (destruct Hin as [Hin | Hin]; [discriminate Hin |]). contradiction.
    - exists c, rest. split; [reflexivity |]. apply lower_letter_not_digit.
      simpl in Hin.
      destruct Hin as [H | [H | [H | []]]]; inversion H as [[Hc Hr Hm]]; auto. }
  destruct Hu as [c [rest [-> Hc]]].
  unfold sizeRE. rewrite (span_digits_app digits (String c rest) Hds Hc).
  destruct digits as [| d ds]; [contradiction |].
  simpl in Hin.
  destruct Hin as [H | [H | [H | []]]]; inversion H as [[Hc' Hr Hm]];
    simpl toLowerCase; rewrite <- Hc', <- Hr; split; reflexivity.
Qed.

Lemma sizeRE_plain (digits : string) :
  digits <> "" -> all_digits digits = true -> sizeRE digits = Some (digits, None).
Proof.
  intros Hne Hds. unfold sizeRE. rewrite (span_digits_all digits Hds).
  destruct digits; [contradiction | reflexivity].
Qed.

Lemma digit_value_nonneg (c : ascii) : is_digit c = true -> 0 <= digit_value c <= 9.
Proof.
  unfold is_digit, digit_value. intros H.
  apply andb_true_iff in H as [H1 H2]. apply N.leb_le in H1, H2. lia.
Qed.

Lemma parseInt_from_nonneg (s : string) (acc : Z) :
  all_digits s = true -> 0 <= acc -> 0 <= parseInt_from acc s.
Proof.
  revert acc. induction s as [| c s IH]; intros acc H Hacc;
    cbn [parseInt_from all_digits] in *; [exact Hacc |].
  apply andb_true_iff in H as [Hc Hs]. apply IH; [exact Hs |].
  pose proof (digit_value_nonneg c Hc). lia.
Qed.

Lemma parseInt_nonneg (digits : string) : all_digits digits = true -> 0 <= parseInt digits.
Proof. intros H. apply parseInt_from_nonneg; [exact H | lia]. Qed.

(** Below 2^53 the arithmetic of Numbers on integers is exact. *)
Lemma to_double_exact (n : Z) : n < 2 ^ 53 -> to_double n = n.
Proof.
  intros H. unfold to_double.
  destruct (Z.leb_spec (Z.log2 n - 52) 0) as [_ | He]; [reflexivity |].
  exfalso. destruct (Z.le_gt_cases n 0) as [Hn | Hn].
  - rewrite (Z.log2_nonpos n Hn) in He. lia.
  - apply (Z.log2_lt_pow2 n 53 Hn) in H. lia.
Qed.

(** Rounding does not take an integer from 2^53 on below 2^53. *)
Lemma to_double_large (n : Z) : 2 ^ 53 <= n -> 2 ^ 53 <= to_double n.
Proof.
  intros H. unfold to_double.
  assert (Hn : 0 < n) by lia.
  assert (Hl : 53 <= Z.log2 n) by (apply Z.log2_le_pow2; lia).
  destruct (Z.leb_spec (Z.log2 n - 52) 0) as [He | He]; [lia |].
  set (e := Z.log2 n - 52) in *.
  rewrite Z.shiftr_div_pow2 by lia.
  set (q := n / 2 ^ e).
  assert (Hpow : 2 ^ Z.log2 n = 2 ^ 52 * 2 ^ e).
  { rewrite <- Z.pow_add_r by lia. f_equal. unfold e. lia. }
  assert (Hq : 2 ^ 52 <= q).
  { apply Z.div_le_lower_bound; [apply Z.pow_pos_nonneg; lia |].
    rewrite Z.mul_comm, <- Hpow. apply Z.log2_spec. exact Hn. }
  assert (H2e : 2 <= 2 ^ e).
  { change 2 with (2 ^ 1) at 1. apply Z.pow_le_mono_r; lia. }
  match goal with
  | |- _ <= Z.shiftl ?x e =>
      assert (Hq' : q <= x) by (destruct (_ || _); lia); set (q' := x) in *
  end.
  clearbody q'. rewrite Z.shiftl_mul_pow2 by lia. change (2 ^ 53) with (2 ^ 52 * 2). nia.
Qed.

(** The product that [beforeGetMaxSize] returns, when it is below 2^53. *)
Lemma product_exact (n multiplier : Z) :
  0 <= n -> 1 <= multiplier -> n * multiplier < 2 ^ 53 ->
  to_double (to_double n * multiplier) = n * multiplier.
Proof.
  intros Hn Hm H. rewrite (to_double_exact n) by nia. now apply to_double_exact.
Qed.

(** C8. The effective maximum size: the digits of the configured string read
    as a decimal number, times 1000, 1000000 or 1000000000 when they are
    followed by kb, mb or gb in any mix of cases, times 1 when nothing
    follows them; 100mb is 100000000, 5kb is 5000, 10 is 10; a limit that
    is not configured (null) is Number.MAX_SAFE_INTEGER, 2^53 - 1.  The
    product is exact as long as it is below 2^53; from there on the code
    computes in doubles, and 9007199254740993 yields 9007199254740992. *)
Theorem beforeGetMaxSize_parses (digits unit : string) (multiplier : Z) :
  digits <> "" -> all_digits digits = true ->
  In (toLowerCase unit, multiplier) unit_multipliers ->
  (parseInt digits * multiplier < 2 ^ 53 ->
   beforeGetMaxSize (Some (digits ++ unit)) = Some (parseInt digits * multiplier))
  /\ (parseInt digits < 2 ^ 53 ->
      beforeGetMaxSize (Some digits) = Some (parseInt digits))
  /\ beforeGetMaxSize (Some "100mb") = Some 100000000
  /\ beforeGetMaxSize (Some "5kb") = Some 5000
  /\ beforeGetMaxSize (Some "10") = Some 10
  /\ beforeGetMaxSize (Some "100MB") = Some 100000000
  /\ beforeGetMaxSize None = Some 9007199254740991
  /\ beforeGetMaxSize (Some "9007199254740993") = Some 9007199254740992.
Proof.
  intros Hne Hds Hin.
  destruct (sizeRE_unit digits unit multiplier Hne Hds Hin) as [Hre Hmul].
  pose proof (parseInt_nonneg digits Hds) as Hpos.
  assert (Hm : 1 <= multiplier).
  { simpl in Hin. destruct Hin as [H | [H | [H | []]]]; injection H as _ <-; lia. }
  split; [| split; [| repeat split; vm_compute; reflexivity]].
  - intros Hb. unfold beforeGetMaxSize. rewrite Hre, Hmul.
    now rewrite product_exact.
  - intros Hb. unfold beforeGetMaxSize. rewrite (sizeRE_plain digits Hne Hds).
    change (assoc (toLowerCase "unit") sizeMultiplier) with (Some 1).
    cbv iota. rewrite product_exact by lia. f_equal. lia.
Qed.

Lemma beforeGetMaxSize_parses_witness :
  all_digits "250" = true
  /\ In (toLowerCase "Gb", 1000000000) unit_multipliers
  /\ parseInt "250" * 1000000000 < 2 ^ 53
  /\ beforeGetMaxSize (Some ("250" ++ "Gb")) = Some (parseInt "250" * 1000000000)
  /\ beforeGetMaxSize (Some "250") = Some (parseInt "250")
  /\ parseInt "250" * 1000000000 = 250000000000.
Proof.
  assert (Hunit : In (toLowerCase "Gb", 1000000000) unit_multipliers).
  { simpl. right. right. left. reflexivity. }
  assert (Hbound : parseInt "250" * 1000000000 < 2 ^ 53) by reflexivity.
  destruct (beforeGetMaxSize_parses "250" "Gb" 1000000000) as (Hunits & Hplain & _).
  - discriminate.
  - reflexivity.
  - exact Hunit.
  - split; [reflexivity |]. split; [exact Hunit |]. split; [exact Hbound |].
    split; [exact (Hunits Hbound) |]. split; [apply Hplain; reflexivity | reflexivity].
Defined.

(** *** Size rendering *)

(** [log1024_floor b] is the floor of the logarithm of [b] to base 1024. *)
Lemma log1024_floor_spec (b : Z) :
  1 <= b ->
  0 <= log1024_floor b
  /\ 1024 ^ log1024_floor b <= b < 1024 ^ (log1024_floor b + 1).
Proof.
  intros Hb. unfold log1024_floor.
  pose proof (Z.log2_nonneg b) as Hl.
  destruct (Z.log2_spec b ltac:(lia)) as [Hlo Hhi].
  set (l := Z.log2 b) in *.
  assert (Hk : 0 <= l / 10) by (apply Z.div_pos; lia).
  pose proof (Z.mul_div_le l 10 ltac:(lia)) as Hle.
  pose proof (Z.mul_succ_div_gt l 10 ltac:(lia)) as Hgt.
  change 1024 with (2 ^ 10).
  rewrite <- !Z.pow_mul_r by lia.
  repeat split; [exact Hk | |].
  - eapply Z.le_trans; [apply Z.pow_le_mono_r; [lia | exact Hle] | exact Hlo].
  - eapply Z.lt_le_trans; [exact Hhi | apply Z.pow_le_mono_r; lia].
Qed.

(** [toFixed] is off by at most half a unit of the last digit it keeps. *)
Lemma toFixed_scaled_near (num den : Z) (digits : nat) :
  0 < den ->
  2 * Z.abs (toFixed_scaled num den digits * den - num * 10 ^ Z.of_nat digits) <= den.
Proof.
  intros Hden. unfold toFixed_scaled.
  set (x := 2 * num * 10 ^ Z.of_nat digits + den).
  pose proof (Z.mul_div_le x (2 * den) ltac:(lia)) as Hle.
  pose proof (Z.mul_succ_div_gt x (2 * den) ltac:(lia)) as Hgt.
  subst x. lia.
Qed.

Lemma toFixed_scaled_integer (num : Z) : toFixed_scaled num 1 0 = num.
Proof.
  unfold toFixed_scaled. change (10 ^ Z.of_nat 0) with 1. change (2 * 1) with 2.
  replace (2 * num * 1 + 1) with (1 + num * 2) by lia.
  rewrite Z.div_add by lia. reflexivity.
Qed.

Lemma decimal_digit (d : Z) : 0 <= d < 10 -> String.length (decimal d) = 1%nat.
Proof.
  intros H.
  assert (E : d = 0 \/ d = 1 \/ d = 2 \/ d = 3 \/ d = 4 \/ d = 5 \/ d = 6 \/ d = 7
              \/ d = 8 \/ d = 9) by lia.
  repeat (destruct E as [-> | E]; [reflexivity |]). subst. reflexivity.
Qed.

(** With one digit kept the text is the integer part, a point, one digit. *)
Lemma toFixed_one_decimal (num den : Z) :
  toFixed num den 1 =
  decimal (toFixed_scaled num den 1 / 10) ++ "." ++ decimal (toFixed_scaled num den 1 mod 10).
Proof.
  unfold toFixed. change (10 ^ Z.of_nat 1) with 10.
  rewrite (decimal_digit (toFixed_scaled num den 1 mod 10)) by (apply Z.mod_pos_bound; lia).
  reflexivity.
Qed.

(** C9. For a byte count B >= 1, formatSize takes as unit index the floor of
    the base-1024 logarithm of B, clamped to the index range 0..4 of the
    table Bytes, KB, MB, GB, TB; it renders B / 1024^index with no decimals
    for Bytes, where the number shown is B itself, and with one decimal
    otherwise, where the number shown times 1024^index is off from B by at
    most half a unit of that decimal; then comes the label of the unit.
    formatSize(0) and formatSize(undefined) are n/a. *)
Theorem formatSize_spec (B : N) :
  (1 <= B)%N ->
  let b := Z.of_N B in
  let index := Z.min (log1024_floor b) 4 in
  let decimals := if index =? 0 then 0%nat else 1%nat in
  let shown := toFixed_scaled b (1024 ^ index) decimals in
  (1024 ^ log1024_floor b <= b < 1024 ^ (log1024_floor b + 1))
  /\ 0 <= index <= 4
  /\ formatSize (Some B) "" "" =
       toFixed b (1024 ^ index) decimals ++ nth (Z.to_nat index) sizes ""
  /\ (index = 0 -> shown = b /\ toFixed b (1024 ^ index) decimals = decimal b)
  /\ (index <> 0 ->
       2 * Z.abs (shown * 1024 ^ index - 10 * b) <= 1024 ^ index
       /\ toFixed b (1024 ^ index) decimals =
            decimal (shown / 10) ++ "." ++ decimal (shown mod 10))
  /\ formatSize (Some 0%N) "" "" = "n/a"
  /\ formatSize None "" "" = "n/a".
Proof.
  intros HB b index decimals shown.
  destruct (log1024_floor_spec b ltac:(lia)) as [Hk Hspec].
  assert (Hidx : 0 <= index <= 4) by (unfold index; lia).
  split; [exact Hspec |]. split; [exact Hidx |]. split.
  - destruct B as [| p]; [lia |].
    unfold formatSize. fold b. change (Z.of_nat (List.length sizes) - 1) with 4.
    fold index. fold decimals.
    replace (nth (Z.to_nat index) sizes "" ++ "") with (nth (Z.to_nat index) sizes "").
    + reflexivity.
    + generalize (nth (Z.to_nat index) sizes ""). clear.
      induction s as [| c s IH]; simpl; [reflexivity | now rewrite <- IH].
  - split; [| split; [| split; reflexivity]].
    + intros H0. unfold shown, decimals. rewrite H0. simpl (0 =? 0). cbv iota.
      change (1024 ^ 0) with 1. unfold toFixed.
      rewrite toFixed_scaled_integer. split; reflexivity.
    + intros Hn0. unfold shown, decimals.
      destruct (Z.eqb_spec index 0) as [E | _]; [contradiction |].
      split.
      * pose proof (toFixed_scaled_near b (1024 ^ index) 1 ltac:(apply Z.pow_pos_nonneg; lia)) as H.
        change (10 ^ Z.of_nat 1) with 10 in H.
        replace (10 * b) with (b * 10) by lia. exact H.
      * apply toFixed_one_decimal.
Qed.

Lemma formatSize_spec_witness :
  (1 <= 1590)%N
  /\ formatSize (Some 1590%N) "" "" = "1.6KB"
  /\ 2 * Z.abs (16 * 1024 - 10 * 1590) <= 1024.
Proof.
  assert (H1 : (1 <= 1590)%N) by lia.
  destruct (formatSize_spec 1590%N H1) as (_ & _ & Htext & _ & Hnear & _).
  split; [exact H1 |]. split.
  - rewrite Htext. reflexivity.
  - apply Hnear. discriminate.
Defined.

(** *** Abort and transfer errors *)

Lemma onUploadAbort_unfold (me : Widget) :
  onUploadAbort me =
  Normal tt
    (set_error (JS.Str "")
       (set_state "ready"
          (with_vdom (with_input_value (Some "") (vdom me)) (with_xhr None me))))
    [SetTimeout ClearFocus 100].
Proof. reflexivity. Qed.

Lemma onUploadError_unfold (type : string) (me : Widget) :
  onUploadError type me =
  Normal tt (set_error (JS.Str type) (set_state "upload-failed" (with_xhr None me))) [].
Proof. reflexivity. Qed.

(** C7. An abort event while the state is uploading resets the widget: the
    state is ready, the error text is empty and the invalid tag is gone, the
    file input is a fresh one with an empty value, and the transfer handle
    is dropped.  A transfer error event instead leaves the state
    upload-failed with the type of the event as error text. *)
Theorem onUploadAbort_resets (me : Widget) (type : string) :
  state me = "uploading" ->
  let aborted := onUploadAbort me in
  let failed := onUploadError type me in
  (state (after aborted) = "ready"
   /\ error (after aborted) = JS.Str ""
   /\ ~ In "neo-invalid" (cls (after aborted))
   /\ input_value (vdom (after aborted)) = Some ""
   /\ xhr (after aborted) = None
   /\ thrown aborted = None)
  /\ (state (after failed) = "upload-failed"
      /\ error (after failed) = JS.Str type
      /\ xhr (after failed) = None
      /\ thrown failed = None).
Proof.
  intros _ aborted failed. subst aborted failed.
  rewrite onUploadAbort_unfold, onUploadError_unfold. unfold after, thrown.
  autorewrite with widget.
  repeat split; try reflexivity.
  apply set_error_hidden. reflexivity.
Qed.

Lemma onUploadAbort_resets_witness :
  state uploading_widget = "uploading"
  /\ xhr uploading_widget = Some NewXMLHttpRequest
  /\ state (after (onUploadAbort uploading_widget)) = "ready"
  /\ xhr (after (onUploadAbort uploading_widget)) = None
  /\ error (after (onUploadError "error" uploading_widget)) = JS.Str "error".
Proof.
  assert (Hst : state uploading_widget = "uploading") by reflexivity.
  destruct (onUploadAbort_resets uploading_widget "error" Hst)
    as [(H1 & _ & _ & _ & H2 & _) (_ & H3 & _)].
  split; [exact Hst |]. split; [reflexivity |].
  split; [exact H1 |]. split; [exact H2 | exact H3].
Defined.

(** *** File selection *)

Lemma onInputValueChange_type_rejected (me : Widget) (file : File) (rest : list File) :
  type_rejected me (extension (name file)) = true ->
  onInputValueChange (file :: rest) me =
  Normal tt
    (set_error
       (JS.Str ("Please use these file types: ."
                  ++ JS.join " ." (JS.keys (match types (config me) with
                                            | Some t => t
                                            | None => []
                                            end)))) me) [].
Proof.
  intros H. unfold onInputValueChange, bind, read, assign. rewrite H. reflexivity.
Qed.

Lemma onInputValueChange_size_exceeded (me : Widget) (file : File) (rest : list File) :
  type_rejected me (extension (name file)) = false ->
  size_exceeded me file = true ->
  onInputValueChange (file :: rest) me =
  Normal tt
    (set_error
       (JS.Str ("File size exceeds "
                  ++ toUpperCase (String_of_maxSize (_maxSize (config me))))) me) [].
Proof.
  intros H1 H2. unfold onInputValueChange, bind, read, assign. rewrite H1, H2. reflexivity.
Qed.

Lemma onInputValueChange_accepted (me : Widget) (file : File) (rest : list File) :
  type_rejected me (extension (name file)) = false ->
  size_exceeded me file = false ->
  onInputValueChange (file :: rest) me =
  Normal tt
    (set_state "starting"
       (with_xhr (Some NewXMLHttpRequest)
          (set_error (JS.Str "")
             (with_fileSize (Some (formatSize (Some (size file)) "" "")) me))))
    [SetTimeout (UploadStart file) 100].
Proof.
  intros H1 H2. unfold onInputValueChange, bind, read, assign. rewrite H1, H2. reflexivity.
Qed.

Lemma upload_resumed_sends (file : File) (me : Widget) :
  effects (upload_resumed file me) =
  [Focus ActionButton; XhrSend "POST" (uploadUrl (config me)) file].
Proof.
  unfold upload_resumed, bind, read, assign, host, effects. simpl.
  rewrite config_set_state. reflexivity.
Qed.

Lemma lastIndexOf_from_no_dot (i : Z) (s : string) :
  no_dot s = true -> lastIndexOf_from i "." s = -1.
Proof.
  revert i. induction s as [| c s IH]; intros i H; simpl in *; [reflexivity |].
  apply andb_true_iff in H as [Hc Hs]. rewrite (IH (i + 1) Hs). simpl.
  apply negb_true_iff in Hc. now rewrite Hc.
Qed.

Lemma lastIndexOf_from_last (i : Z) (stem ext : string) :
  no_dot ext = true -> 0 <= i ->
  lastIndexOf_from i "." (stem ++ String "." ext) = i + Z.of_nat (String.length stem).
Proof.
  intros Hext. revert i. induction stem as [| c stem IH]; intros i Hi.
  - simpl. rewrite (lastIndexOf_from_no_dot (i + 1) ext Hext). simpl. lia.
  - cbn [append lastIndexOf_from String.length]. rewrite (IH (i + 1)) by lia.
    destruct (Z.gtb_spec (i + 1 + Z.of_nat (String.length stem)) (-1)); lia.
Qed.

Lemma drop_past (stem : string) (c : ascii) (rest : string) :
  drop (S (String.length stem)) (stem ++ String c rest) = rest.
Proof. induction stem as [| a stem IH]; [reflexivity | exact IH]. Qed.

(** The extension is what follows the last dot of the name, the empty
    string when the name has no dot. *)
Lemma extension_spec (stem ext : string) :
  no_dot ext = true ->
  extension (stem ++ "." ++ ext) = ext /\ extension ext = "".
Proof.
  intros Hext. unfold extension, lastIndexOf. split.
  - change (stem ++ "." ++ ext) with (stem ++ String "." ext).
    rewrite (lastIndexOf_from_last 0 stem ext Hext) by lia.
    destruct (Z.gtb_spec (0 + Z.of_nat (String.length stem)) (-1)); [| lia].
    unfold slice.
    replace (Z.to_nat (0 + Z.of_nat (String.length stem) + 1))
      with (S (String.length stem)) by lia.
    apply drop_past.
  - rewrite (lastIndexOf_from_no_dot 0 ext Hext). reflexivity.
Qed.

(** A key that no field carries and no plain object inherits is undefined. *)
Lemma lookup_absent (fields : list (string * JS.value)) (k : string) :
  (forall k' v, In (k', v) fields -> k' <> k) -> JS.inherited k = false ->
  JS.lookup fields k = JS.Undefined.
Proof.
  intros Hno Hinh. unfold JS.lookup. rewrite Hinh.
  assert (Hown : JS.own fields k = None).
  { induction fields as [| [k' v] fields IH]; simpl; [reflexivity |].
    rewrite IH by (intros k'' v' Hin; apply (Hno k'' v'); now right).
    destruct (String.eqb_spec k' k) as [E | _]; [| reflexivity].
    exfalso. apply (Hno k' v); [now left | exact E]. }
  now rewrite Hown.
Qed.

(** C3, as the code has it. The substring after the last dot of the file
    name is looked up in the allow-list as it is written, with its letter
    case: the file goes on to the size check and the upload exactly when
    that very key has a truthy value, and a file whose extension is spelled
    in a letter case under which the allow-list has no key is rejected with
    the error text that lists the allowed types. *)
Theorem extension_check_is_exact
  (me : Widget) (stem ext : string) (bytes : N) (rest : list File)
  (allowed : list (string * JS.value)) :
  no_dot ext = true -> types (config me) = Some allowed ->
  let file := {| name := stem ++ "." ++ ext; size := bytes |} in
  let c := onInputValueChange (file :: rest) me in
  (extension (name file) = ext /\ extension ext = "")
  /\ (JS.truthy (JS.lookup allowed ext) = false ->
      effects c = [] /\ state (after c) = state me /\ xhr (after c) = xhr me
      /\ error (after c) =
           JS.Str ("Please use these file types: ." ++ JS.join " ." (JS.keys allowed)))
  /\ (JS.truthy (JS.lookup allowed ext) = true -> size_exceeded me file = false ->
      effects c = [SetTimeout (UploadStart file) 100] /\ state (after c) = "starting"
      /\ xhr (after c) = Some NewXMLHttpRequest)
  /\ ((forall k v, In (k, v) allowed -> k <> ext) -> JS.inherited ext = false ->
      JS.truthy (JS.lookup allowed ext) = false).
Proof.
  intros Hext Htypes file c.
  assert (Hx : extension (name file) = ext) by (apply extension_spec; exact Hext).
  assert (Hrej : type_rejected me (extension (name file))
                 = negb (JS.truthy (JS.lookup allowed ext))).
  { unfold type_rejected. rewrite Htypes, Hx. reflexivity. }
  split; [split; [exact Hx | apply (extension_spec stem ext Hext)] |]. split; [| split].
  - intros Hf. rewrite Hf in Hrej. subst c.
    rewrite (onInputValueChange_type_rejected me file rest Hrej). rewrite Htypes.
    unfold after, effects. autorewrite with widget. repeat split.
  - intros Ht Hs. rewrite Ht in Hrej. subst c.
    rewrite (onInputValueChange_accepted me file rest Hrej Hs).
    unfold after, effects. autorewrite with widget. repeat split.
  - intros Hno Hinh. rewrite (lookup_absent allowed ext Hno Hinh). reflexivity.
Qed.

Lemma extension_check_is_exact_witness :
  no_dot "pdf" = true
  /\ types (config (initial demo_config)) = Some [("pdf", JS.Bool true)]
  /\ effects (onInputValueChange [ {| name := "report" ++ "." ++ "pdf"; size := 2048 |} ]
                (initial demo_config))
     = [SetTimeout (UploadStart {| name := "report.pdf"; size := 2048 |}) 100]
  /\ effects (onInputValueChange [ {| name := "report" ++ "." ++ "PDF"; size := 2048 |} ]
                (initial demo_config)) = [].
Proof.
  split; [reflexivity |]. split; [reflexivity |]. split.
  - apply (extension_check_is_exact (initial demo_config) "report" "pdf" 2048 []
             [("pdf", JS.Bool true)]); reflexivity.
  - apply (extension_check_is_exact (initial demo_config) "report" "PDF" 2048 []
             [("pdf", JS.Bool true)]); reflexivity.
Defined.

(** C3, as stated, fails: pdf is allowed and the file fits the limit, yet
    report.PDF, whose extension differs from pdf only in letter case, is
    rejected with an error text and no upload is started. *)
Lemma extension_check_not_case_insensitive :
  let me := initial demo_config in
  let file := {| name := "report.PDF"; size := 2048 |} in
  let c := onInputValueChange [file] me in
  types (config me) = Some [("pdf", JS.Bool true)]
  /\ toLowerCase (extension (name file)) = "pdf"
  /\ size_exceeded me file = false
  /\ effects c = []
  /\ state (after c) = "ready"
  /\ xhr (after c) = None
  /\ error (after c) = JS.Str "Please use these file types: .pdf".
Proof. repeat split. Qed.



(** C10. A configured maximum that is not digits with an optional unit, such
    as 12 mb, abc or 1.5mb, makes the effective maximum undefined; no size
    exceeds it, so every selected file that passes the type check goes on
    to upload: the transfer is prepared, and sent once its pause is over. *)
Theorem malformed_limit_never_rejects
  (me : Widget) (file : File) (rest : list File) (limit : string) :
  _maxSize (config me) = Some limit -> sizeRE limit = None ->
  type_rejected me (extension (name file)) = false ->
  let c := onInputValueChange (file :: rest) me in
  maxSize me = None
  /\ size_exceeded me file = false
  /\ (state (after c) = "starting"
      /\ xhr (after c) = Some NewXMLHttpRequest
      /\ error (after c) = JS.Str ""
      /\ effects c = [SetTimeout (UploadStart file) 100]
      /\ thrown c = None)
  /\ effects (upload_resumed file (after c)) =
       [Focus ActionButton; XhrSend "POST" (uploadUrl (config me)) file]
  /\ (sizeRE "12 mb" = None /\ sizeRE "abc" = None /\ sizeRE "1.5mb" = None).
Proof.
  intros Hcfg Hre Ht c.
  assert (Hmax : maxSize me = None).
  { unfold maxSize, beforeGetMaxSize. rewrite Hcfg, Hre. reflexivity. }
  assert (Hs : size_exceeded me file = false).
  { unfold size_exceeded. rewrite Hmax. reflexivity. }
  subst c. rewrite (onInputValueChange_accepted me file rest Ht Hs).
  rewrite upload_resumed_sends. unfold after, effects, thrown.
  split; [exact Hmax |]. split; [exact Hs |]. split.
  - repeat split.
    + apply state_set_state.
    + rewrite xhr_set_state. reflexivity.
    + rewrite error_set_state by discriminate. cbn [error with_xhr].
      apply error_set_error.
  - split; [| repeat split].
    rewrite config_set_state. cbn [config with_xhr]. rewrite config_set_error.
    reflexivity.
Qed.

Lemma malformed_limit_never_rejects_witness :
  let me := initial {| uploadUrl := Some "/upload"; documentIdParameter := "documentId";
                       downloadUrl := None; documentStatusUrl := None;
                       documentDeleteUrl := None; types := None;
                       _maxSize := Some "12 mb" |} in
  let huge := {| name := "huge.iso"; size := 99999999999 |} in
  sizeRE "12 mb" = None
  /\ type_rejected me (extension (name huge)) = false
  /\ maxSize me = None
  /\ effects (onInputValueChange [huge] me) = [SetTimeout (UploadStart huge) 100].
Proof.
  intros me huge.
  split; [reflexivity |]. split; [reflexivity |].
  destruct (malformed_limit_never_rejects me huge [] "12 mb" eq_refl eq_refl eq_refl)
    as (Hmax & _ & (_ & _ & _ & Heff & _) & _).
  split; [exact Hmax | exact Heff].
Defined.

(** *** Status polling *)

Lemma is_2xx_codes :
  forallb (fun n => Bool.eqb (is_2xx n) ((200 <=? n) && (n <=? 299))%N) status_codes = true.
Proof. vm_compute. reflexivity. Qed.

(** On a three-digit status code the test of the first digit is the test
    for the class 2xx. *)
Lemma is_2xx_spec (n : N) :
  (100 <= n <= 999)%N -> (is_2xx n = true <-> (200 <= n <= 299)%N).
Proof.
  intros Hn.
  assert (Hin : In n status_codes).
  { unfold status_codes. replace n with (N.of_nat (N.to_nat n)) by apply N2Nat.id.
    apply in_map. apply in_seq. lia. }
  pose proof (proj1 (forallb_forall _ _) is_2xx_codes n Hin) as H.
  apply Bool.eqb_prop in H. rewrite H. rewrite andb_true_iff, !N.leb_le. reflexivity.
Qed.

(** Outside the state processing a status check asks nothing and changes
    nothing. *)
Lemma checkDocumentStatus_guard (me : Widget) :
  state me <> "processing" -> checkDocumentStatus me = Normal tt me [].
Proof.
  intros H. unfold checkDocumentStatus, bind, read.
  destruct (String.eqb_spec (state me) "processing") as [E | _]; [contradiction |].
  reflexivity.
Qed.

Lemma checkDocumentStatus_polls (me : Widget) :
  state me = "processing" ->
  checkDocumentStatus me = Normal tt me [Fetch (status_link me) StatusReply].
Proof.
  intros H. unfold checkDocumentStatus, bind, read. rewrite H. reflexivity.
Qed.

(** The continuation of a status check on a 2xx reply whose body carries a
    status. *)
Lemma checkDocumentStatus_resumed_document
  (statusResponse : HttpResponse) (reported : string) (me : Widget) :
  is_2xx (status statusResponse) = true -> json statusResponse = Document reported ->
  checkDocumentStatus_resumed statusResponse me
  = (if (reported =? "scanning")%string then host (SetTimeout StatusCheck 2000)
     else assign (set_state reported)) me.
Proof.
  intros H Hj. unfold checkDocumentStatus_resumed. rewrite H, Hj. unfold bind, ret.
  destruct (reported =? "scanning")%string; reflexivity.
Qed.

(** C5. A poll is issued while the state is processing.  When its reply
    comes and the state is still processing: a status outside 2xx sets the
    error text, naming the status text of the reply, and leaves the state
    processing; a 2xx reply whose JSON status is scanning changes nothing
    and sets a timer of exactly 2000 ms for the next check; a 2xx reply
    with any other status makes that very string the state. *)
Theorem checkDocumentStatus_reply (me : Widget) (statusResponse : HttpResponse) :
  state me = "processing" ->
  let c := checkDocumentStatus_resumed statusResponse me in
  checkDocumentStatus me = Normal tt me [Fetch (status_link me) StatusReply]
  /\ (is_2xx (status statusResponse) = false ->
      state (after c) = "processing"
      /\ error (after c) =
           JS.Str ("Document status service error: " ++ statusText statusResponse)
      /\ effects c = [] /\ thrown c = None)
  /\ (is_2xx (status statusResponse) = true ->
      json statusResponse = Document "scanning" ->
      c = Normal tt me [SetTimeout StatusCheck 2000])
  /\ (forall reported,
        is_2xx (status statusResponse) = true ->
        json statusResponse = Document reported -> reported <> "scanning" ->
        state (after c) = reported
        /\ effects c = [] /\ thrown c = None)
  /\ ((100 <= status statusResponse <= 999)%N ->
      (is_2xx (status statusResponse) = true <-> (200 <= status statusResponse <= 299)%N)).
Proof.
  intros Hst c. subst c.
  split; [exact (checkDocumentStatus_polls me Hst) |].
  split; [| split; [| split]].
  - intros H. unfold checkDocumentStatus_resumed. rewrite H.
    unfold assign, after, effects, thrown.
    rewrite state_set_error, error_set_error. repeat split. exact Hst.
  - intros H Hs. rewrite (checkDocumentStatus_resumed_document _ _ me H Hs). reflexivity.
  - intros reported H Hj Hs. rewrite (checkDocumentStatus_resumed_document _ _ me H Hj).
    destruct (String.eqb_spec reported "scanning") as [E | _]; [contradiction |].
    unfold assign, after, effects, thrown. rewrite state_set_state. repeat split.
  - apply is_2xx_spec.
Qed.

Lemma checkDocumentStatus_reply_witness :
  state processing_widget = "processing"
  /\ is_2xx 200 = true /\ is_2xx 503 = false
  /\ state (after (checkDocumentStatus_resumed (http 200 "OK" "downloadable") processing_widget))
  = "downloadable"
  /\ checkDocumentStatus_resumed (http 200 "OK" "scanning") processing_widget
     = Normal tt processing_widget [SetTimeout StatusCheck 2000]
  /\ state (after (checkDocumentStatus_resumed (http 503 "Service Unavailable" "")
                     processing_widget)) = "processing".
Proof.
  split; [reflexivity |]. split; [reflexivity |]. split; [reflexivity |].
  split; [| split].
  - destruct (checkDocumentStatus_reply processing_widget (http 200 "OK" "downloadable")
                eq_refl) as (_ & _ & _ & H & _).
    apply (H "downloadable"); [reflexivity | reflexivity | discriminate].
  - destruct (checkDocumentStatus_reply processing_widget (http 200 "OK" "scanning")
                eq_refl) as (_ & _ & H & _).
    apply H; reflexivity.
  - destruct (checkDocumentStatus_reply processing_widget
                (http 503 "Service Unavailable" "") eq_refl) as (_ & H & _).
    apply H. reflexivity.
Defined.

(** *** Upload completion *)

(** Only a plain object has a truthy member. *)
Lemma truthy_member (response member : JS.value) (k : string) :
  JS.get response k = Some member -> JS.truthy member = true ->
  exists fields, response = JS.Obj fields.
Proof.
  intros Hget Ht. destruct response; simpl in Hget; try discriminate;
    try (injection Hget as <-; discriminate Ht).
  eexists. reflexivity.
Qed.

Lemma onUploadDone_nothing_loaded (xhr_response : string) (me : Widget) :
  onUploadDone 0 xhr_response me = Normal tt (with_xhr None me) [].
Proof. reflexivity. Qed.

Lemma onUploadDone_accepted
  (loaded : N) (xhr_response : string) (me : Widget) (fields : list (string * JS.value)) :
  loaded <> 0%N -> JSON.parse xhr_response = Some (JS.Obj fields) ->
  JS.truthy (JS.lookup fields "success") = true ->
  let id := JS.lookup fields (documentIdParameter (config me)) in
  onUploadDone loaded xhr_response me =
  if configured (documentStatusUrl (config me)) then
    Normal tt (set_state "processing" (with_documentId id (with_xhr None me)))
      [Fetch {| base := documentStatusUrl (config me);
                parameter := documentIdParameter (config me);
                id := id |} StatusReply]
  else
    Normal tt (set_state "downloadable" (with_documentId id (with_xhr None me))) [].
Proof.
  intros Hl Hp Hs id. apply N.eqb_neq in Hl.
  unfold onUploadDone, bind, assign, or_throw, ret, read.
  rewrite Hl, Hp. cbn [negb JS.get]. rewrite Hs. cbn [config with_xhr with_documentId].
  destruct (configured (documentStatusUrl (config me))); [| reflexivity].
  rewrite (checkDocumentStatus_polls _ (state_set_state "processing" _)).
  unfold status_link. rewrite config_set_state, documentId_set_state. reflexivity.
Qed.

Lemma onUploadDone_refused
  (loaded : N) (xhr_response : string) (me : Widget) (response success : JS.value) :
  loaded <> 0%N -> JSON.parse xhr_response = Some response ->
  JS.get response "success" = Some success -> JS.truthy success = false ->
  exists message,
    JS.get response "message" = Some message
    /\ onUploadDone loaded xhr_response me =
       Normal tt (set_state "upload-failed" (set_error message (with_xhr None me))) [].
Proof.
  intros Hl Hp Hg Hs. apply N.eqb_neq in Hl.
  assert (Hm : exists message, JS.get response "message" = Some message).
  { destruct response; simpl in Hg |- *; try discriminate; eexists; reflexivity. }
  destruct Hm as [message Hm]. exists message. split; [exact Hm |].
  unfold onUploadDone, bind, assign, or_throw, ret, read.
  rewrite Hl, Hp. cbn [negb]. rewrite Hg. cbn beta iota. rewrite Hs, Hm. reflexivity.
Qed.

(** How methods that keep the document identifier compose. *)
Lemma keeps_ret {A : Type} (a : A) : keeps_documentId (ret a).
Proof. intros me. reflexivity. Qed.

Lemma keeps_read {A : Type} (f : Widget -> A) : keeps_documentId (read f).
Proof. intros me. reflexivity. Qed.

Lemma keeps_host (e : Effect) : keeps_documentId (host e).
Proof. intros me. reflexivity. Qed.

Lemma keeps_throw {A : Type} (e : Exception) : keeps_documentId (@throw A e).
Proof. intros me. reflexivity. Qed.

Lemma keeps_or_throw {A : Type} (e : Exception) (o : option A) :
  keeps_documentId (or_throw e o).
Proof. destruct o; [apply keeps_ret | apply keeps_throw]. Qed.

Lemma keeps_assign (f : Widget -> Widget) :
  (forall me, documentId (f me) = documentId me) -> keeps_documentId (assign f).
Proof. intros H me. apply H. Qed.

Lemma keeps_bind {A B : Type} (c : Method A) (k : A -> Method B) :
  keeps_documentId c -> (forall a, keeps_documentId (k a)) -> keeps_documentId (bind c k).
Proof.
  intros Hc Hk me. unfold bind. specialize (Hc me).
  destruct (c me) as [a me' eff | e me' eff]; simpl in Hc; [| exact Hc].
  specialize (Hk a me'). destruct (k a me'); simpl in *; congruence.
Qed.

Lemma keeps_bind_ret {A B : Type} (a : A) (k : A -> Method B) :
  keeps_documentId (k a) -> keeps_documentId (bind (ret a) k).
Proof.
  intros H me. unfold bind, ret. specialize (H me). destruct (k a me); exact H.
Qed.

Ltac keeps :=
  repeat first
    [ apply keeps_ret | apply keeps_read | apply keeps_host | apply keeps_throw
    | apply keeps_or_throw
    | apply keeps_assign; intros; autorewrite with widget; reflexivity
    | apply keeps_bind; [| intros]
    | match goal with
      | |- keeps_documentId (if ?b then _ else _) => destruct b
      | |- keeps_documentId (match ?x with _ => _ end) => destruct x
      end ].

Lemma clear_keeps : keeps_documentId clear.
Proof. unfold clear. keeps. Qed.

Lemma checkDocumentStatus_keeps : keeps_documentId checkDocumentStatus.
Proof. unfold checkDocumentStatus. keeps. Qed.

(** Every listener but the completion of an acknowledged upload leaves the
    document identifier alone. *)
Lemma dispatch_keeps (ev : Event) :
  acknowledges ev = false -> keeps_documentId (dispatch ev).
Proof.
  intros Hack. destruct ev as [files | | l t | ty | | l body | k | k r | k]; simpl dispatch.
  - unfold onInputValueChange, upload. keeps.
  - unfold onActionButtonClick, abortUpload, deleteDocument.
    pose proof clear_keeps. keeps; assumption.
  - unfold onUploadProgress. keeps.
  - unfold onUploadError. keeps.
  - unfold onUploadAbort. pose proof clear_keeps. keeps; assumption.
  - unfold acknowledges in Hack. unfold onUploadDone.
    apply keeps_bind; [keeps | intros _].
    destruct (l =? 0)%N; cbn [negb andb] in *; [apply keeps_ret |].
    destruct (JSON.parse body) as [response |]; cbn [or_throw];
      [apply keeps_bind_ret | keeps].
    destruct (JS.get response "success") as [success |]; cbn [or_throw];
      [apply keeps_bind_ret | keeps].
    rewrite Hack. keeps.
  - destruct k; [unfold clear_resumed | unfold upload_resumed | unfold checkDocumentStatus];
      keeps.
  - destruct k; [unfold deleteDocument_resumed | unfold checkDocumentStatus_resumed].
    + pose proof clear_keeps. keeps; assumption.
    + keeps.
  - destruct k; [unfold deleteDocument_failed | unfold checkDocumentStatus_failed]; keeps.
Qed.

Lemma run_keeps (evs : list Event) (s s' : System) :
  run evs s = Some s' -> existsb acknowledges evs = false ->
  documentId (widget s') = documentId (widget s).
Proof.
  revert s. induction evs as [| ev evs IH]; intros s Hrun Hno; simpl in *.
  - injection Hrun as <-. reflexivity.
  - apply orb_false_iff in Hno as [Hev Hevs].
    destruct (turn ev s) as [s1 |] eqn:Ht; [| discriminate].
    rewrite (IH s1 Hrun Hevs).
    pose proof (dispatch_keeps ev Hev (widget s)) as Hk.
    unfold turn in Ht.
    destruct ev; simpl in Ht;
      repeat match type of Ht with
             | match ?x with _ => _ end = _ => destruct x; try discriminate
             | (if ?x then _ else _) = _ => destruct x; try discriminate
             end;
      injection Ht as <-; exact Hk.
Qed.

(** C1. When an upload completes with a non-zero loaded byte count and a
    body that is JSON: with a truthy success (true in particular) the
    widget stores as document identifier the member of the response named
    by documentIdParameter, documentId by default, then goes to processing
    and issues the first status poll if documentStatusUrl is configured,
    and straight to downloadable if it is not; with a falsy success (false
    in particular) the error text is the message of the response and the
    state is upload-failed.  With a loaded byte count of zero nothing
    changes but the transfer handle, which is dropped.  Hence in every run
    from the constructed widget a document identifier is present only
    after the completion of an acknowledged upload. *)
Theorem onUploadDone_spec
  (me : Widget) (loaded : N) (xhr_response : string) (response success : JS.value) :
  loaded <> 0%N -> JSON.parse xhr_response = Some response ->
  JS.get response "success" = Some success ->
  let c := onUploadDone loaded xhr_response me in
  (JS.truthy success = true ->
     exists id,
       JS.get response (documentIdParameter (config me)) = Some id
       /\ documentId (after c) = id /\ thrown c = None
       /\ (configured (documentStatusUrl (config me)) = true ->
           state (after c) = "processing"
           /\ effects c = [Fetch {| base := documentStatusUrl (config me);
                                    parameter := documentIdParameter (config me);
                                    id := id |} StatusReply])
       /\ (configured (documentStatusUrl (config me)) = false ->
           state (after c) = "downloadable" /\ effects c = []))
  /\ (JS.truthy success = false ->
      exists message,
        JS.get response "message" = Some message
        /\ error (after c) = message /\ state (after c) = "upload-failed"
        /\ documentId (after c) = documentId me
        /\ effects c = [] /\ thrown c = None)
  /\ onUploadDone 0 xhr_response me = Normal tt (with_xhr None me) []
  /\ documentIdParameter default_config = "documentId"
  /\ (forall (cfg : Config) (evs : list Event) (s : System),
        run evs (boot cfg) = Some s -> documentId (widget s) <> JS.Undefined ->
        existsb acknowledges evs = true).
Proof.
  intros Hl Hp Hg c. subst c.
  split; [| split; [| split; [| split]]].
  - intros Ht. destruct (truthy_member response success "success" Hg Ht) as [fields ->].
    simpl in Hg. injection Hg as <-.
    exists (JS.lookup fields (documentIdParameter (config me))).
    split; [reflexivity |].
    rewrite (onUploadDone_accepted loaded xhr_response me fields Hl Hp Ht).
    destruct (configured (documentStatusUrl (config me))); unfold after, effects, thrown;
      rewrite documentId_set_state, state_set_state; repeat split; discriminate.
  - intros Hf.
    destruct (onUploadDone_refused loaded xhr_response me response success Hl Hp Hg Hf)
      as [message [Hm ->]].
    exists message. unfold after, effects, thrown.
    rewrite state_set_state, documentId_set_state, documentId_set_error.
    rewrite error_set_state by discriminate. rewrite error_set_error.
    repeat split. exact Hm.
  - reflexivity.
  - reflexivity.
  - intros cfg evs s Hrun Hid.
    destruct (existsb acknowledges evs) eqn:E; [reflexivity |].
    exfalso. apply Hid. rewrite (run_keeps evs (boot cfg) s Hrun E). reflexivity.
Qed.

Lemma onUploadDone_spec_witness :
  JSON.parse upload_accepted
  = Some (JS.Obj [("success", JS.Bool true); ("documentId", JS.Num 7 0)])
  /\ JSON.parse upload_rejected
     = Some (JS.Obj [("success", JS.Bool false); ("message", JS.Str "virus")])
  /\ documentId (after (onUploadDone 31 upload_accepted uploading_widget)) = JS.Num 7 0
  /\ state (after (onUploadDone 31 upload_accepted uploading_widget)) = "processing"
  /\ error (after (onUploadDone 35 upload_rejected uploading_widget)) = JS.Str "virus".
Proof.
  pose proof (onUploadDone_spec uploading_widget 31 upload_accepted
                (JS.Obj [("success", JS.Bool true); ("documentId", JS.Num 7 0)])
                (JS.Bool true) ltac:(discriminate) eq_refl eq_refl) as (Hok & _).
  pose proof (onUploadDone_spec uploading_widget 35 upload_rejected
                (JS.Obj [("success", JS.Bool false); ("message", JS.Str "virus")])
                (JS.Bool false) ltac:(discriminate) eq_refl eq_refl) as (_ & Hno & _).
  destruct (Hok eq_refl) as (id & Hid & Hdoc & _ & Hproc & _).
  destruct (Hno eq_refl) as (message & Hm & Herr & _).
  injection Hid as <-. injection Hm as <-.
  split; [reflexivity |]. split; [reflexivity |].
  split; [exact Hdoc |]. split; [exact (proj1 (Hproc eq_refl)) | exact Herr].
Defined.

(** *** Exceptions *)

Lemma completes_ret {A : Type} (a : A) : completes (ret a).
Proof. intros me. reflexivity. Qed.

Lemma completes_read {A : Type} (f : Widget -> A) : completes (read f).
Proof. intros me. reflexivity. Qed.

Lemma completes_host (e : Effect) : completes (host e).
Proof. intros me. reflexivity. Qed.

Lemma completes_assign (f : Widget -> Widget) : completes (assign f).
Proof. intros me. reflexivity. Qed.

Lemma completes_bind {A B : Type} (c : Method A) (k : A -> Method B) :
  completes c -> (forall a, completes (k a)) -> completes (bind c k).
Proof.
  intros Hc Hk me. unfold bind. specialize (Hc me).
  destruct (c me) as [a me' eff | e me' eff]; simpl in Hc; [| discriminate].
  specialize (Hk a me'). destruct (k a me'); simpl in *; congruence.
Qed.

Ltac completes :=
  repeat first
    [ apply completes_ret | apply completes_read | apply completes_host
    | apply completes_assign
    | apply completes_bind; [| intros]
    | match goal with
      | |- completes (if ?b then _ else _) => destruct b
      | |- completes (match ?x with _ => _ end) => destruct x
      end ].

Lemma clear_completes : completes clear.
Proof. unfold clear. completes. Qed.

(** What [onUploadDone] throws, and what it leaves behind when it does. *)
Lemma onUploadDone_thrown (loaded : N) (xhr_response : string) (me : Widget) :
  let c := onUploadDone loaded xhr_response me in
  thrown c = (if (loaded =? 0)%N then None
              else match JSON.parse xhr_response with
                   | None => Some SyntaxError
                   | Some JS.Null | Some JS.Undefined => Some TypeError
                   | Some _ => None
                   end)
  /\ (thrown c <> None -> after c = with_xhr None me /\ effects c = []).
Proof.
  intros c. subst c.
  destruct (N.eqb_spec loaded 0) as [-> | Hl].
  { rewrite onUploadDone_nothing_loaded. split; [reflexivity | intros H; now elim H]. }
  destruct (JSON.parse xhr_response) as [response |] eqn:Hp.
  - destruct (JS.get response "success") as [success |] eqn:Hg.
    + assert (Hnone : thrown (onUploadDone loaded xhr_response me) = None).
      { destruct (JS.truthy success) eqn:Ht.
        - destruct (truthy_member response success "success" Hg Ht) as [fields ->].
          simpl in Hg. injection Hg as <-.
          rewrite (onUploadDone_accepted loaded xhr_response me fields Hl Hp Ht).
          destruct (configured (documentStatusUrl (config me))); reflexivity.
        - destruct (onUploadDone_refused loaded xhr_response me response success
                      Hl Hp Hg Ht) as [message [_ ->]].
          reflexivity. }
      rewrite Hnone. split; [| intros H; now elim H].
      destruct response; simpl in Hg; try discriminate; reflexivity.
    + apply N.eqb_neq in Hl.
      assert (E : onUploadDone loaded xhr_response me = Abrupt TypeError (with_xhr None me) []).
      { unfold onUploadDone, bind, assign, or_throw, ret, read, throw.
        rewrite Hl, Hp. cbn [negb]. rewrite Hg. reflexivity. }
      rewrite E. split; [| intros _; split; reflexivity].
      destruct response; simpl in Hg; try discriminate; reflexivity.
  - apply N.eqb_neq in Hl.
    assert (E : onUploadDone loaded xhr_response me = Abrupt SyntaxError (with_xhr None me) []).
    { unfold onUploadDone, bind, assign, or_throw, ret, read, throw.
      rewrite Hl, Hp. reflexivity. }
    rewrite E. split; [reflexivity | intros _; split; reflexivity].
Qed.

(** What the continuation of a status check throws, and that it has done
    nothing when it does. *)
Lemma checkDocumentStatus_resumed_thrown (statusResponse : HttpResponse) (me : Widget) :
  let c := checkDocumentStatus_resumed statusResponse me in
  thrown c = (if is_2xx (status statusResponse)
              then match json statusResponse with
                   | Malformed => Some SyntaxError
                   | JsonNull => Some TypeError
                   | Document _ => None
                   end
              else None)
  /\ (thrown c <> None -> after c = me /\ effects c = []).
Proof.
  intros c. subst c. unfold checkDocumentStatus_resumed, bind, ret, throw, assign, host.
  destruct (is_2xx (status statusResponse));
    [destruct (json statusResponse) as [| | reported];
       [| | destruct (reported =? "scanning")%string] |];
    cbn [thrown after effects]; split;
    first [reflexivity | intros H; now elim H | intros _; split; reflexivity].
Qed.

Lemma dispatch_completes (ev : Event) :
  (forall loaded xhr_response, ev <> LoadEnd loaded xhr_response) ->
  (forall statusResponse, ev <> Replied StatusReply statusResponse) ->
  (forall k, ev <> Failed k) ->
  completes (dispatch ev).
Proof.
  intros Hev Hreply Hfailed.
  destruct ev as [files | | l t | ty | | l body | k | k r | k]; simpl dispatch.
  - unfold onInputValueChange, upload. completes.
  - unfold onActionButtonClick, abortUpload, deleteDocument.
    pose proof clear_completes. completes; assumption.
  - unfold onUploadProgress. completes.
  - unfold onUploadError. completes.
  - unfold onUploadAbort. pose proof clear_completes. completes; assumption.
  - now elim (Hev l body).
  - destruct k; [unfold clear_resumed | unfold upload_resumed | unfold checkDocumentStatus];
      completes.
  - destruct k; [unfold deleteDocument_resumed | now elim (Hreply r)].
    pose proof clear_completes. completes; assumption.
  - now elim (Hfailed k).
Qed.

(** C4, as the code has it. Validation errors, transfer errors, rejections
    by the upload service and non-2xx replies of the status and delete
    services are set as the error text of the widget, and their listeners
    end normally.  Three things throw, and nothing in the widget catches
    them.  The completion of an upload that loaded bytes throws a
    SyntaxError when the body is not JSON, and a TypeError when the body is
    the JSON null.  The status check throws in the same two ways on a 2xx
    reply whose body is not JSON or is the JSON null.  A fetch that is
    rejected throws in the status check and in the deletion.  In each case
    the exception leaves the method, no error text is set and the state
    stays as it was; the completion of an upload has dropped the transfer
    handle, the other two have done nothing. *)
Theorem exceptions_that_escape (ev : Event) (me : Widget) :
  let c := dispatch ev me in
  thrown c = match ev with
             | LoadEnd loaded xhr_response =>
                 if (loaded =? 0)%N then None
                 else match JSON.parse xhr_response with
                      | None => Some SyntaxError
                      | Some JS.Null | Some JS.Undefined => Some TypeError
                      | Some _ => None
                      end
             | Replied StatusReply statusResponse =>
                 if is_2xx (status statusResponse)
                 then match json statusResponse with
                      | Malformed => Some SyntaxError
                      | JsonNull => Some TypeError
                      | Document _ => None
                      end
                 else None
             | Failed _ => Some TypeError
             | _ => None
             end
  /\ (thrown c <> None ->
      after c = match ev with
                | LoadEnd _ _ => with_xhr None me
                | _ => me
                end
      /\ effects c = []
      /\ state (after c) = state me /\ error (after c) = error me)
  /\ (forall file rest,
        type_rejected me (extension (name file)) = true \/ size_exceeded me file = true ->
        exists text,
          error (after (dispatch (InputChange (file :: rest)) me)) = JS.Str text
          /\ text <> "")
  /\ (forall type, error (after (dispatch (UploadError type) me)) = JS.Str type)
  /\ (forall loaded xhr_response response success,
        loaded <> 0%N -> JSON.parse xhr_response = Some response ->
        JS.get response "success" = Some success -> JS.truthy success = false ->
        JS.get response "message"
        = Some (error (after (dispatch (LoadEnd loaded xhr_response) me))))
  /\ (forall statusResponse,
        is_2xx (status statusResponse) = false ->
        error (after (dispatch (Replied StatusReply statusResponse) me))
        = JS.Str ("Document status service error: " ++ statusText statusResponse)
        /\ error (after (dispatch (Replied DeleteReply statusResponse) me))
           = JS.Str ("Document delete service error: " ++ statusText statusResponse)).
Proof.
  intros c. subst c. split; [| split; [| split; [| split; [| split]]]].
  - destruct ev as [files | | l t | ty | | l body | k | [] r | []];
      try (apply dispatch_completes; discriminate).
    + apply onUploadDone_thrown.
    + apply checkDocumentStatus_resumed_thrown.
    + reflexivity.
    + reflexivity.
  - destruct ev as [files | | l t | ty | | l body | k | [] r | []];
      try (intros H; elim H; apply dispatch_completes; discriminate).
    + intros H. destruct (proj2 (onUploadDone_thrown l body me) H) as [Ha He].
      cbn [dispatch]. rewrite Ha, He. repeat split.
    + intros H. destruct (proj2 (checkDocumentStatus_resumed_thrown r me) H) as [Ha He].
      cbn [dispatch]. rewrite Ha, He. repeat split.
    + intros _. repeat split.
    + intros _. repeat split.
  - intros file rest H. cbn [dispatch].
    destruct (type_rejected me (extension (name file))) eqn:Ht.
    + rewrite (onInputValueChange_type_rejected me file rest Ht). unfold after.
      rewrite error_set_error. eexists. split; [reflexivity | discriminate].
    + destruct H as [H | Hs]; [discriminate |].
      rewrite (onInputValueChange_size_exceeded me file rest Ht Hs). unfold after.
      rewrite error_set_error. eexists. split; [reflexivity | discriminate].
  - intros type. cbn [dispatch]. rewrite onUploadError_unfold. unfold after.
    apply error_set_error.
  - intros loaded xhr_response response success Hl Hp Hg Hf. cbn [dispatch].
    destruct (onUploadDone_refused loaded xhr_response me response success Hl Hp Hg Hf)
      as [message [Hm ->]].
    unfold after. rewrite error_set_state by discriminate. rewrite error_set_error.
    exact Hm.
  - intros r Hr. cbn [dispatch].
    unfold checkDocumentStatus_resumed, deleteDocument_resumed. rewrite Hr.
    unfold assign, after. rewrite !error_set_error. split; reflexivity.
Qed.

Lemma exceptions_that_escape_witness :
  is_2xx (status (http 500 "Internal Server Error" "")) = false
  /\ error (after (dispatch (Replied StatusReply (http 500 "Internal Server Error" ""))
                  processing_widget))
  = JS.Str "Document status service error: Internal Server Error"
  /\ thrown (dispatch (UploadError "error") uploading_widget) = None
  /\ (let c := dispatch (Replied StatusReply
                           {| status := 200; statusText := "OK"; json := Malformed |})
                        processing_widget in
      thrown c = Some SyntaxError
      /\ state (after c) = "processing" /\ error (after c) = JS.Str "")
  /\ thrown (dispatch (Failed DeleteReply) processing_widget) = Some TypeError.
Proof.
  pose proof (exceptions_that_escape (UploadError "error") uploading_widget)
    as (Hthrown & _).
  pose proof (exceptions_that_escape ButtonClick processing_widget)
    as (_ & _ & _ & _ & _ & Hstatus).
  pose proof (exceptions_that_escape
                (Replied StatusReply {| status := 200; statusText := "OK"; json := Malformed |})
                processing_widget) as (Hbody & Hkept & _).
  split; [reflexivity |].
  split; [apply (Hstatus (http 500 "Internal Server Error" "")); reflexivity |].
  split; [exact Hthrown |].
  pose proof (exceptions_that_escape (Failed DeleteReply) processing_widget)
    as (Hfailed & _).
  cbv zeta. split; [| exact Hfailed]. split; [exact Hbody |].
  destruct Hkept as (_ & _ & Hs & He); [rewrite Hbody; discriminate |].
  split; [exact Hs | exact He].
Defined.

(** C4, as stated, fails: the upload service answers with a body that is
    not JSON; the completion listener throws a SyntaxError, the error text
    stays empty and the state stays uploading. *)
Lemma malformed_upload_response_throws :
  let c := dispatch (LoadEnd 6 "<html>") uploading_widget in
  state uploading_widget = "uploading"
  /\ JSON.parse "<html>" = None
  /\ thrown c = Some SyntaxError
  /\ error (after c) = JS.Str ""
  /\ state (after c) = "uploading".
Proof. repeat split. Qed.

(** *** A delete that races a status check *)

(** A status check that fires once the state has left processing, after a
    delete or an abort has reset the widget to ready for one, asks nothing
    of the host and changes nothing. *)
Lemma stale_check_is_idle (s s' : System) :
  state (widget s) <> "processing" -> turn (Elapsed StatusCheck) s = Some s' ->
  widget s' = widget s
  /\ Some (pending s') = take (answers (Elapsed StatusCheck)) (pending s).
Proof.
  intros Hst Hturn. unfold turn in Hturn.
  destruct (take (answers (Elapsed StatusCheck)) (pending s)) as [rest |];
    [| discriminate].
  cbn [dispatch] in Hturn. rewrite (checkDocumentStatus_guard (widget s) Hst) in Hturn.
  injection Hturn as <-. simpl. rewrite app_nil_r. split; reflexivity.
Qed.

(** The reply of a poll is applied whatever the state has become since the
    poll was sent: the state is read before the request, not after it. *)
Lemma status_reply_ignores_state
  (me : Widget) (statusResponse : HttpResponse) (reported : string) :
  is_2xx (status statusResponse) = true ->
  json statusResponse = Document reported -> reported <> "scanning" ->
  state (after (checkDocumentStatus_resumed statusResponse me)) = reported.
Proof.
  intros H2xx Hj Hs. rewrite (checkDocumentStatus_resumed_document _ _ me H2xx Hj).
  destruct (String.eqb_spec reported "scanning") as [E | _]; [contradiction |].
  apply state_set_state.
Qed.

(** C2 does not hold of the code. In the session [delete_during_poll] the
    user asks for the deletion while a status check is scheduled; the check
    fires while the delete request is under way, finds the state still
    processing and sends its poll; the delete service answers 200 and the
    widget is reset to ready; then the reply of the poll arrives and
    [checkDocumentStatus] takes its status as the state without reading
    the state again: the widget leaves ready for downloadable. *)
Theorem stale_status_reply_leaves_ready :
  pending_after 5 delete_during_poll
  = Some [ SetTimeout StatusCheck 2000;
           Fetch {| base := Some "/delete"; parameter := "documentId"; id := JS.Num 7 0 |}
             DeleteReply ]
  /\ state_after 5 delete_during_poll = Some "processing"
  /\ state_after 6 delete_during_poll = Some "processing"
  /\ pending_after 6 delete_during_poll
     = Some [ Fetch {| base := Some "/delete"; parameter := "documentId"; id := JS.Num 7 0 |}
                DeleteReply;
              Fetch {| base := Some "/status"; parameter := "documentId"; id := JS.Num 7 0 |}
                StatusReply ]
  /\ state_after 7 delete_during_poll = Some "ready"
  /\ state_after 8 delete_during_poll = Some "downloadable".
Proof. repeat split. Qed.

(** ** Further properties *)

(** *** What every listener preserves *)

Lemma preserves_ret {A : Type} (P : Widget -> Prop) (a : A) : preserves P (ret a).
Proof. intros me H. exact H. Qed.

Lemma preserves_read {A : Type} (P : Widget -> Prop) (f : Widget -> A) :
  preserves P (read f).
Proof. intros me H. exact H. Qed.

Lemma preserves_host (P : Widget -> Prop) (e : Effect) : preserves P (host e).
Proof. intros me H. exact H. Qed.

Lemma preserves_throw {A : Type} (P : Widget -> Prop) (e : Exception) :
  preserves P (@throw A e).
Proof. intros me H. exact H. Qed.

Lemma preserves_or_throw {A : Type} (P : Widget -> Prop) (e : Exception) (o : option A) :
  preserves P (or_throw e o).
Proof. destruct o; [apply preserves_ret | apply preserves_throw]. Qed.

Lemma preserves_assign (P : Widget -> Prop) (f : Widget -> Widget) :
  (forall me, P me -> P (f me)) -> preserves P (assign f).
Proof. intros H me HP. apply H. exact HP. Qed.

Lemma preserves_bind {A B : Type} (P : Widget -> Prop) (c : Method A) (k : A -> Method B) :
  preserves P c -> (forall a, preserves P (k a)) -> preserves P (bind c k).
Proof.
  intros Hc Hk me HP. unfold bind. specialize (Hc me HP).
  destruct (c me) as [a me' eff | e me' eff]; simpl in Hc; [| exact Hc].
  specialize (Hk a me' Hc). destruct (k a me'); exact Hk.
Qed.

Lemma turn_widget (ev : Event) (s s' : System) :
  turn ev s = Some s' -> widget s' = after (dispatch ev (widget s)).
Proof.
  intros Ht. unfold turn in Ht.
  destruct ev; simpl in Ht;
    repeat match type of Ht with
           | match ?x with _ => _ end = _ => destruct x; try discriminate
           | (if ?x then _ else _) = _ => destruct x; try discriminate
           end;
    injection Ht as <-; reflexivity.
Qed.

Lemma run_preserves (P : Widget -> Prop) (evs : list Event) (s s' : System) :
  (forall ev, In ev evs -> preserves P (dispatch ev)) ->
  run evs s = Some s' -> P (widget s) -> P (widget s').
Proof.
  revert s. induction evs as [| ev evs IH]; intros s Hall Hrun HP; simpl in Hrun.
  - injection Hrun as <-. exact HP.
  - destruct (turn ev s) as [s1 |] eqn:Ht; [| discriminate].
    apply (IH s1); [intros e He; apply Hall; now right | exact Hrun |].
    rewrite (turn_widget ev s s1 Ht). apply (Hall ev); [now left | exact HP].
Qed.

Section Frame.

Variable P : Widget -> Prop.
Variable ev : Event.

Hypothesis P_xhr : forall x me, P me -> P (with_xhr x me).
Hypothesis P_documentId : forall x me, P me -> P (with_documentId x me).
Hypothesis P_fileSize : forall x me, P me -> P (with_fileSize x me).
Hypothesis P_uploadSize : forall x me, P me -> P (with_uploadSize x me).
Hypothesis P_progress : forall x me, P me -> P (with_progress x me).
Hypothesis P_input : forall x me, P me -> P (with_vdom (with_input_value x (vdom me)) me).
Hypothesis P_anchor :
  forall x me, P me -> P (with_vdom (with_anchor_innerHTML x (vdom me)) me).
Hypothesis P_style :
  forall x me, P me -> P (with_vdom (with_progress_style x (vdom me)) me).
Hypothesis P_status :
  forall x me, P me -> P (with_vdom (with_status_innerHTML x (vdom me)) me).
Hypothesis P_error : forall t me, P me -> P (set_error t me).
Hypothesis P_state :
  forall v me, In v (assigned_states ev) -> P me -> P (set_state v me).

Ltac frame :=
  repeat first
    [ apply preserves_ret | apply preserves_read | apply preserves_host
    | apply preserves_throw | apply preserves_or_throw
    | apply preserves_bind; [| intros]
    | apply preserves_assign; intros ? ?;
      first [ apply P_xhr | apply P_documentId | apply P_fileSize | apply P_uploadSize
            | apply P_progress | apply P_input | apply P_anchor | apply P_style
            | apply P_status | apply P_error
            | apply P_state; [unfold assigned_states; simpl; tauto |] ];
      assumption
    | match goal with
      | |- preserves _ (if ?b then _ else _) => destruct b
      | |- preserves _ (match ?x with _ => _ end) => destruct x
      end ].

(** A property that the field updates, the error setter and the assignment
    of the states an event can assign all keep is kept by the listener of
    that event. *)
Lemma dispatch_preserves : preserves P (dispatch ev).
Proof.
  destruct ev as [files | | l t | ty | | l body | k | k r | k]; cbn [dispatch].
  - unfold onInputValueChange, upload. frame.
  - unfold onActionButtonClick, abortUpload, deleteDocument, clear. frame.
  - unfold onUploadProgress. frame.
  - unfold onUploadError. frame.
  - unfold onUploadAbort, clear. frame.
  - unfold onUploadDone, checkDocumentStatus. frame.
  - destruct k; [unfold clear_resumed | unfold upload_resumed | unfold checkDocumentStatus];
      frame.
  - destruct k; [unfold deleteDocument_resumed, clear; frame |].
    intros me HP. unfold checkDocumentStatus_resumed.
    destruct (is_2xx (status r)) eqn:H2; [| apply P_error; exact HP].
    destruct (json r) as [| | reported] eqn:Hj; [exact HP | exact HP |].
    unfold bind, ret.
    destruct (String.eqb_spec reported "scanning") as [E | E]; [exact HP |].
    apply P_state; [| exact HP].
    unfold assigned_states, reported_status. rewrite H2, Hj.
    apply in_app_iff. right.
    destruct (String.eqb_spec reported "scanning"); [contradiction | now left].
  - destruct k; [unfold deleteDocument_failed | unfold checkDocumentStatus_failed]; frame.
Qed.

End Frame.

(** *** The tags of the widget *)

Lemma In_NeoArray_add (arr : list string) (item x : string) :
  In x (NeoArray_add arr item) <-> x = item \/ In x arr.
Proof.
  unfold NeoArray_add. destruct (existsb (String.eqb item) arr) eqn:E.
  - split; [now right |]. intros [-> | H]; [| exact H].
    apply existsb_exists in E as [y [Hy Ey]]. apply String.eqb_eq in Ey. now subst.
  - rewrite in_app_iff. simpl. split.
    + intros [H | [H | []]]; [now right | left; now symmetry].
    + intros [H | H]; [right; left; now symmetry | now left].
Qed.

Lemma In_NeoArray_remove (arr : list string) (item x : string) :
  In x (NeoArray_remove arr item) <-> In x arr /\ x <> item.
Proof.
  unfold NeoArray_remove. rewrite filter_In, negb_true_iff.
  destruct (String.eqb_spec item x) as [E | N].
  - split; [intros [_ H]; discriminate | intros [_ H]; now elim H].
  - split; [intros [H _]; split; [exact H | congruence] | intros [H _]; now split].
Qed.

Lemma state_tag_inj (v w : string) : state_tag v = state_tag w -> v = w.
Proof. unfold state_tag. simpl. congruence. Qed.

Lemma state_tag_not_invalid (v : string) : state_tag v <> "neo-invalid".
Proof. unfold state_tag. simpl. congruence. Qed.

(** The tags after an assignment of a new state: the tag of the new state,
    and the tags there were but for the tag of the old state; the invalid
    tag is added on the way into scan-failed. *)
Lemma In_cls_set_state (v : string) (me : Widget) (x : string) :
  v <> state me ->
  In x (cls (set_state v me)) <->
  x = state_tag v
  \/ ((In x (cls me) \/ (v = "scan-failed" /\ x = "neo-invalid"))
      /\ x <> state_tag (state me)).
Proof.
  intros Hv. unfold set_state.
  destruct (String.eqb_spec v (state me)) as [E | _]; [contradiction |].
  unfold afterSetState, state_tag.
  destruct (String.eqb_spec v "scan-failed") as [-> | Hn].
  - cbn -[NeoArray_add NeoArray_remove].
    rewrite In_NeoArray_add, In_NeoArray_remove, In_NeoArray_add. tauto.
  - repeat match goal with
           | |- context [if (?a =? ?b)%string then _ else _] =>
               destruct (String.eqb_spec a b)
           end;
      cbn -[NeoArray_add NeoArray_remove];
      rewrite In_NeoArray_add, In_NeoArray_remove; tauto.
Qed.

Lemma In_cls_set_error (t : JS.value) (me : Widget) (x : string) :
  In x (cls (set_error t me)) <->
  (if JS.truthy t then x = "neo-invalid" \/ In x (cls me)
   else In x (cls me) /\ x <> "neo-invalid").
Proof.
  unfold set_error. destruct (JS.truthy t); cbn -[NeoArray_add NeoArray_remove].
  - apply In_NeoArray_add.
  - apply In_NeoArray_remove.
Qed.

Lemma tagged_set_state (v : string) (me : Widget) : tagged me -> tagged (set_state v me).
Proof.
  intros H u. rewrite state_set_state.
  destruct (String.eqb_spec v (state me)) as [-> | Hv].
  - rewrite set_state_same. apply H.
  - rewrite (In_cls_set_state v me (state_tag u) Hv). split.
    + intros [E | [[Hin | [_ E]] Hne]].
      * now apply state_tag_inj.
      * apply H in Hin. subst u. now elim Hne.
      * now elim (state_tag_not_invalid u).
    + intros ->. now left.
Qed.

Lemma tagged_set_error (t : JS.value) (me : Widget) : tagged me -> tagged (set_error t me).
Proof.
  intros H u. rewrite state_set_error, In_cls_set_error. rewrite <- (H u).
  pose proof (state_tag_not_invalid u). destruct (JS.truthy t); tauto.
Qed.

(** X1. In every run from the constructed widget, the widget carries in
    its class list the tag of its current state and the tag of no other
    state. *)
Theorem state_tag_follows_state (cfg : Config) (evs : list Event) (s : System) :
  run evs (boot cfg) = Some s ->
  forall v, In ("neo-file-upload-state-" ++ v) (cls (widget s)) <-> v = state (widget s).
Proof.
  intros Hrun. change (tagged (widget s)).
  apply (run_preserves tagged evs (boot cfg) s); [| exact Hrun |].
  - intros ev _. apply dispatch_preserves; intros; try assumption.
    + now apply tagged_set_error.
    + now apply tagged_set_state.
  - intros v. simpl. split.
    + intros [E | [E | []]]; [discriminate E | symmetry; now apply state_tag_inj].
    + intros ->. right. now left.
Qed.

Lemma state_tag_follows_state_witness :
  state_after 4 upload_and_scan = Some "downloadable"
  /\ forall s, run upload_and_scan (boot demo_config) = Some s ->
               In "neo-file-upload-state-downloadable" (cls (widget s)).
Proof.
  split; [reflexivity |]. intros s Hs.
  apply (state_tag_follows_state demo_config upload_and_scan s Hs).
  vm_compute in Hs. injection Hs as <-. reflexivity.
Defined.

Lemma error_message_set_state (v : string) (me : Widget) :
  v <> "scan-failed" -> error_message (vdom (set_state v me)) = error_message (vdom me).
Proof.
  intros Hv. unfold set_state, afterSetState.
  destruct (String.eqb_spec v "scan-failed") as [E | _]; [contradiction |].
  split_ifs; reflexivity.
Qed.

Lemma set_state_scan_failed (me : Widget) :
  state me <> "scan-failed" ->
  error (set_state "scan-failed" me) = JS.Str "Please check the file and try again"
  /\ error_message (vdom (set_state "scan-failed" me))
     = Some (JS.Str "Please check the file and try again").
Proof.
  intros Hs. unfold set_state.
  destruct (String.eqb_spec "scan-failed" (state me)) as [E | _];
    [now elim Hs |].
  split; reflexivity.
Qed.

Lemma error_shown_set_error (t : JS.value) (me : Widget) : error_shown (set_error t me).
Proof.
  unfold error_shown. rewrite error_set_error, In_cls_set_error.
  destruct (JS.truthy t) eqn:Ht.
  - split; [split; [reflexivity | now left] |].
    intros _. apply (set_error_shown t me Ht).
  - split; [| discriminate]. split; [intros [_ H]; now elim H | discriminate].
Qed.

Lemma error_shown_set_state (v : string) (me : Widget) :
  error_shown me -> error_shown (set_state v me).
Proof.
  intros [Htag Hmsg].
  destruct (String.eqb_spec v (state me)) as [-> | Hv].
  { rewrite set_state_same. now split. }
  unfold error_shown. rewrite (In_cls_set_state v me "neo-invalid" Hv).
  assert (Hne : forall u, "neo-invalid" <> state_tag u)
    by (intros u E; now apply (state_tag_not_invalid u)).
  destruct (String.eqb_spec v "scan-failed") as [-> | Hn].
  - assert (Hs : state me <> "scan-failed") by congruence.
    destruct (set_state_scan_failed me Hs) as [-> ->].
    split; [| reflexivity]. split; [reflexivity |].
    intros _. right. split; [right; now split | apply Hne].
  - rewrite (error_set_state v me Hn), (error_message_set_state v me Hn).
    split; [| exact Hmsg]. rewrite <- Htag. split.
    + intros [E | [[H | [E _]] _]]; [now elim (Hne v) | exact H | contradiction].
    + intros H. right. split; [now left | apply Hne].
Qed.

(** X2. In every run from the constructed widget, the widget is tagged
    invalid exactly when the error text last set is not empty, and then the
    message node shows that very text. *)
Theorem invalid_tag_follows_error (cfg : Config) (evs : list Event) (s : System) :
  run evs (boot cfg) = Some s ->
  (In "neo-invalid" (cls (widget s)) <-> JS.truthy (error (widget s)) = true)
  /\ (JS.truthy (error (widget s)) = true ->
      error_message (vdom (widget s)) = Some (error (widget s))).
Proof.
  intros Hrun. change (error_shown (widget s)).
  apply (run_preserves error_shown evs (boot cfg) s); [| exact Hrun |].
  - intros ev _. apply dispatch_preserves; intros; try assumption.
    + apply error_shown_set_error.
    + now apply error_shown_set_state.
  - split; [| discriminate]. simpl. split; [| discriminate].
    intros [E | [E | []]]; discriminate E.
Qed.

Lemma invalid_tag_follows_error_witness :
  let evs := [InputChange [ {| name := "notes.txt"; size := 1 |} ]] in
  option_map (fun s => error (widget s)) (run evs (boot demo_config))
  = Some (JS.Str "Please use these file types: .pdf")
  /\ forall s, run evs (boot demo_config) = Some s -> In "neo-invalid" (cls (widget s)).
Proof.
  intros evs. split; [reflexivity |]. intros s Hs.
  apply (invalid_tag_follows_error demo_config evs s Hs).
  vm_compute in Hs. injection Hs as <-. reflexivity.
Defined.

(** *** The states of the widget *)

Lemma reported_status_spec (ev : Event) (v : string) :
  In v (reported_status ev) <->
  exists statusResponse,
    ev = Replied StatusReply statusResponse
    /\ is_2xx (status statusResponse) = true
    /\ json statusResponse = Document v /\ v <> "scanning".
Proof.
  split.
  - destruct ev as [| | | | | | | [] r |]; cbn [reported_status]; try contradiction.
    destruct (is_2xx (status r)) eqn:H2; [| contradiction].
    destruct (json r) as [| | reported] eqn:Hj; try contradiction.
    destruct (String.eqb_spec reported "scanning") as [E | E]; [contradiction |].
    intros [<- | []]. exists r. repeat split; assumption.
  - intros (r & -> & H2 & Hj & Hv). cbn [reported_status]. rewrite H2, Hj.
    destruct (String.eqb_spec v "scanning"); [contradiction | now left].
Qed.

Lemma reported_statuses_spec (evs : list Event) (v : string) :
  In v (reported_statuses evs) <-> exists ev, In ev evs /\ In v (reported_status ev).
Proof.
  induction evs as [| ev evs IH]; cbn [reported_statuses].
  - split; [contradiction | intros (ev & [] & _)].
  - rewrite in_app_iff, IH. split.
    + intros [H | (e & He & H)]; [exists ev | exists e]; split; auto; now left + right.
    + intros (e & [<- | He] & H); [now left | right; now exists e].
Qed.

(** X3. In every run from the constructed widget the state is one of the
    six states the code names in an assignment, or a status other than
    scanning that a 2xx reply of the status service has reported in that
    run; so scan-failed and not-downloadable are entered only on the word
    of the status service, and scanning is never the state. *)
Theorem state_is_assigned_or_reported (cfg : Config) (evs : list Event) (s : System) :
  run evs (boot cfg) = Some s ->
  In (state (widget s))
     ([ "ready"; "starting"; "uploading"; "upload-failed"; "processing"; "downloadable" ]
        ++ reported_statuses evs)
  /\ (In (state (widget s))
         [ "ready"; "starting"; "uploading"; "upload-failed"; "processing"; "downloadable" ]
      \/ exists statusResponse,
           In (Replied StatusReply statusResponse) evs
           /\ is_2xx (status statusResponse) = true
           /\ json statusResponse = Document (state (widget s)))
  /\ state (widget s) <> "scanning".
Proof.
  intros Hrun.
  assert (H : In (state (widget s)) (assigned_literals ++ reported_statuses evs)).
  { apply (run_preserves
             (fun me => In (state me) (assigned_literals ++ reported_statuses evs))
             evs (boot cfg) s); [| exact Hrun | now left].
    intros ev Hev. apply dispatch_preserves; intros; try assumption.
    - now rewrite state_set_error.
    - rewrite state_set_state. unfold assigned_states in *.
      apply in_app_iff. apply in_app_iff in H as [H | H]; [now left | right].
      apply reported_statuses_spec. now exists ev. }
  split; [exact H |].
  apply in_app_iff in H as [H | H].
  - split; [now left |].
    intros E. rewrite E in H. unfold assigned_literals in H. simpl in H.
    repeat (destruct H as [H | H]; [discriminate H |]). exact H.
  - apply reported_statuses_spec in H as (ev & Hev & H).
    apply reported_status_spec in H as (r & -> & H2 & Hj & Hv).
    split; [right; now exists r | exact Hv].
Qed.

Lemma state_is_assigned_or_reported_witness :
  state_after 8 delete_during_poll = Some "downloadable"
  /\ reported_statuses delete_during_poll = [ "downloadable" ]
  /\ forall s, run delete_during_poll (boot demo_config) = Some s ->
               In (state (widget s))
                  [ "ready"; "starting"; "uploading"; "upload-failed"; "processing";
                    "downloadable"; "downloadable" ]
               /\ state (widget s) <> "scanning".
Proof.
  split; [reflexivity |]. split; [reflexivity |]. intros s Hs.
  destruct (state_is_assigned_or_reported demo_config delete_during_poll s Hs)
    as (H & _ & Hn).
  split; [exact H | exact Hn].
Defined.

(** *** What the listeners ask of the host *)

Lemma emits_ret {A : Type} (L : Effect -> Prop) (a : A) : emits L (ret a).
Proof. intros me e []. Qed.

Lemma emits_read {A : Type} (L : Effect -> Prop) (f : Widget -> A) : emits L (read f).
Proof. intros me e []. Qed.

Lemma emits_assign (L : Effect -> Prop) (f : Widget -> Widget) : emits L (assign f).
Proof. intros me e []. Qed.

Lemma emits_throw {A : Type} (L : Effect -> Prop) (x : Exception) : emits L (@throw A x).
Proof. intros me e []. Qed.

Lemma emits_or_throw {A : Type} (L : Effect -> Prop) (x : Exception) (o : option A) :
  emits L (or_throw x o).
Proof. destruct o; [apply emits_ret | apply emits_throw]. Qed.

Lemma emits_host (L : Effect -> Prop) (e : Effect) : L e -> emits L (host e).
Proof. intros H me e' [<- | []]. exact H. Qed.

Lemma emits_bind {A B : Type} (L : Effect -> Prop) (c : Method A) (k : A -> Method B) :
  emits L c -> (forall a, emits L (k a)) -> emits L (bind c k).
Proof.
  intros Hc Hk me e. unfold bind. specialize (Hc me).
  destruct (c me) as [a me' eff | x me' eff]; simpl in Hc; [| apply Hc].
  specialize (Hk a me'). destruct (k a me'); simpl in *;
    intros H; apply in_app_iff in H as [H | H]; auto.
Qed.

Ltac emitting :=
  repeat first
    [ apply emits_ret | apply emits_read | apply emits_assign | apply emits_throw
    | apply emits_or_throw
    | apply emits_host; exact I
    | apply emits_bind; [| intros]
    | match goal with
      | |- emits _ (if ?b then _ else _) => destruct b
      | |- emits _ (match ?x with _ => _ end) => destruct x
      end ].

Lemma clear_emits (L : Effect -> Prop) : L (SetTimeout ClearFocus 100) -> emits L clear.
Proof.
  intros H. unfold clear.
  repeat (apply emits_bind; [apply emits_assign | intros]). now apply emits_host.
Qed.

(** What [onUploadDone] asks of the host: the first poll when it enters
    processing, and nothing otherwise. *)
Lemma onUploadDone_effects (loaded : N) (xhr_response : string) (me : Widget) :
  let c := onUploadDone loaded xhr_response me in
  effects c = []
  \/ (state (after c) = "processing"
      /\ effects c = [Fetch (status_link (after c)) StatusReply]).
Proof.
  intros c. subst c.
  destruct (N.eqb_spec loaded 0) as [-> | Hl]; [now left |].
  destruct (JSON.parse xhr_response) as [response |] eqn:Hp.
  - destruct (JS.get response "success") as [success |] eqn:Hg.
    + destruct (JS.truthy success) eqn:Ht.
      * destruct (truthy_member response success "success" Hg Ht) as [fields ->].
        simpl in Hg. injection Hg as <-.
        rewrite (onUploadDone_accepted loaded xhr_response me fields Hl Hp Ht).
        destruct (configured (documentStatusUrl (config me))); [right | now left].
        unfold after, effects. rewrite state_set_state. split; [reflexivity |].
        unfold status_link. rewrite config_set_state, documentId_set_state. reflexivity.
      * destruct (onUploadDone_refused loaded xhr_response me response success
                    Hl Hp Hg Ht) as [message [_ ->]].
        now left.
    + left. destruct (onUploadDone_thrown loaded xhr_response me) as [Hth Hab].
      apply Hab. rewrite Hth. apply N.eqb_neq in Hl. rewrite Hl, Hp.
      destruct response; simpl in Hg; discriminate.
  - left. destruct (onUploadDone_thrown loaded xhr_response me) as [Hth Hab].
    apply Hab. rewrite Hth. apply N.eqb_neq in Hl. rewrite Hl, Hp. discriminate.
Qed.

Lemma dispatch_config (ev : Event) (me : Widget) :
  config (after (dispatch ev me)) = config me.
Proof.
  apply (dispatch_preserves (fun w => config w = config me) ev); intros;
    try assumption; try reflexivity.
  - now rewrite config_set_error.
  - now rewrite config_set_state.
Qed.

(** X4. The status service is asked only while the state is processing:
    whenever a listener sends a status request, the widget is in the state
    processing as the request leaves, and the request carries the status
    URL, the configured parameter name and the stored document identifier. *)
Theorem status_request_only_while_processing (ev : Event) (me : Widget) (url : Url) :
  In (Fetch url StatusReply) (effects (dispatch ev me)) ->
  state (after (dispatch ev me)) = "processing"
  /\ url = {| base := documentStatusUrl (config me);
              parameter := documentIdParameter (config me);
              id := documentId (after (dispatch ev me)) |}.
Proof.
  intros Hin.
  assert (Hquiet : emits no_status_request (dispatch ev) ->
                   state (after (dispatch ev me)) = "processing"
                   /\ url = {| base := documentStatusUrl (config me);
                               parameter := documentIdParameter (config me);
                               id := documentId (after (dispatch ev me)) |}).
  { intros H. elim (H me _ Hin). }
  pose proof (dispatch_config ev me) as Hcfg.
  destruct ev as [files | | l t | ty | | l body | k | k r | k]; cbn [dispatch] in *.
  - apply Hquiet. unfold onInputValueChange, upload. emitting.
  - apply Hquiet. unfold onActionButtonClick, abortUpload, deleteDocument.
    pose proof (clear_emits no_status_request I). emitting; assumption.
  - apply Hquiet. unfold onUploadProgress. emitting.
  - apply Hquiet. unfold onUploadError. emitting.
  - apply Hquiet. unfold onUploadAbort.
    pose proof (clear_emits no_status_request I). emitting; assumption.
  - destruct (onUploadDone_effects l body me) as [E | [Hst E]]; rewrite E in Hin.
    + contradiction.
    + destruct Hin as [Hin | []]. injection Hin as <-. split; [exact Hst |].
      unfold status_link. rewrite Hcfg. reflexivity.
  - destruct k; cbn [dispatch] in *.
    + apply Hquiet. unfold clear_resumed. emitting.
    + apply Hquiet. unfold upload_resumed. emitting.
    + destruct (String.eqb_spec (state me) "processing") as [Hst | Hst].
      * rewrite (checkDocumentStatus_polls me Hst) in *. simpl in Hin.
        destruct Hin as [Hin | []]. injection Hin as <-. split; [exact Hst | reflexivity].
      * rewrite (checkDocumentStatus_guard me Hst) in Hin. contradiction.
  - destruct k; cbn [dispatch] in *.
    + apply Hquiet. unfold deleteDocument_resumed.
      pose proof (clear_emits no_status_request I). emitting; assumption.
    + apply Hquiet. unfold checkDocumentStatus_resumed. emitting.
  - apply Hquiet.
    destruct k; cbn [dispatch]; unfold deleteDocument_failed, checkDocumentStatus_failed;
      emitting.
Qed.

Lemma status_request_only_while_processing_witness :
  let ev := LoadEnd 31 upload_accepted in
  let url := {| base := Some "/status"; parameter := "documentId"; id := JS.Num 7 0 |} in
  In (Fetch url StatusReply) (effects (dispatch ev uploading_widget))
  /\ state (after (dispatch ev uploading_widget)) = "processing".
Proof.
  intros ev url.
  assert (Hin : In (Fetch url StatusReply) (effects (dispatch ev uploading_widget)))
    by (left; reflexivity).
  split; [exact Hin |].
  exact (proj1 (status_request_only_while_processing ev uploading_widget url Hin)).
Defined.

(** *** Reset *)

Lemma clear_unfold (me : Widget) :
  clear me =
  Normal tt
    (set_error (JS.Str "")
       (set_state "ready" (with_vdom (with_input_value (Some "") (vdom me)) me)))
    [SetTimeout ClearFocus 100].
Proof. reflexivity. Qed.

Lemma set_state_current (v : string) (me : Widget) : state me = v -> set_state v me = me.
Proof. intros <-. apply set_state_same. Qed.

Lemma with_input_value_current (v : option string) (me : Widget) :
  input_value (vdom me) = v -> with_vdom (with_input_value v (vdom me)) me = me.
Proof. intros <-. destruct me as [c s x d f u p e [] k]. reflexivity. Qed.

Lemma NeoArray_remove_idem (arr : list string) (item : string) :
  NeoArray_remove (NeoArray_remove arr item) item = NeoArray_remove arr item.
Proof.
  unfold NeoArray_remove. induction arr as [| a arr IH]; simpl; [reflexivity |].
  destruct (negb (item =? a)%string) eqn:E; simpl; [rewrite E; now f_equal | exact IH].
Qed.

Lemma NeoArray_add_idem (arr : list string) (item : string) :
  NeoArray_add (NeoArray_add arr item) item = NeoArray_add arr item.
Proof.
  assert (H : existsb (String.eqb item) (NeoArray_add arr item) = true).
  { apply existsb_exists. exists item. split; [apply NeoArray_add_spec |].
    apply String.eqb_refl. }
  unfold NeoArray_add at 1. now rewrite H.
Qed.

(** Setting the same error text twice is setting it once. *)
Lemma set_error_idem (t : JS.value) (me : Widget) :
  set_error t (set_error t me) = set_error t me.
Proof.
  unfold set_error. destruct (JS.truthy t); destruct me; simpl.
  - now rewrite NeoArray_add_idem.
  - now rewrite NeoArray_remove_idem.
Qed.

(** What clear() leaves behind. *)
Lemma after_clear (me : Widget) :
  state (after (clear me)) = "ready"
  /\ error (after (clear me)) = JS.Str ""
  /\ input_value (vdom (after (clear me))) = Some "".
Proof.
  rewrite clear_unfold. unfold after.
  rewrite state_set_error, state_set_state, error_set_error, input_value_set_error,
    input_value_set_state.
  repeat split.
Qed.

(** X5. clear() is idempotent: on a widget that clear() has just reset, a
    second clear() changes nothing more; and clear() leaves the document
    identifier and the transfer handle as they are. *)
Theorem clear_idempotent (me : Widget) :
  after (clear (after (clear me))) = after (clear me)
  /\ documentId (after (clear me)) = documentId me
  /\ xhr (after (clear me)) = xhr me.
Proof.
  destruct (after_clear me) as (Hst & _ & Hin).
  split.
  - rewrite (clear_unfold (after (clear me))). unfold after at 1.
    rewrite (with_input_value_current _ _ Hin), (set_state_current _ _ Hst).
    rewrite clear_unfold. unfold after. apply set_error_idem.
  - rewrite clear_unfold. unfold after.
    rewrite documentId_set_error, documentId_set_state, xhr_set_error, xhr_set_state.
    split; reflexivity.
Qed.

(** The assignment of ready that follows clear() in the code changes
    nothing: clear() has set that state already. *)
Lemma clear_then_ready (me : Widget) :
  bind clear (fun _ => assign (set_state "ready")) me
  = Normal tt (after (clear me)) [SetTimeout ClearFocus 100].
Proof.
  unfold bind. rewrite clear_unfold. unfold assign, after. cbn [app].
  set (w := set_error (JS.Str "") _).
  rewrite (set_state_current "ready" w); [reflexivity |].
  unfold w. rewrite state_set_error. apply state_set_state.
Qed.

Lemma anchor_set_state_ready (me : Widget) :
  state me <> "ready" ->
  anchor_tag (vdom (set_state "ready" me)) = Some "div"
  /\ anchor_href (vdom (set_state "ready" me)) = Some None.
Proof.
  intros H. unfold set_state.
  destruct (String.eqb_spec "ready" (state me)) as [E | _]; [now elim H |].
  split; reflexivity.
Qed.

Lemma anchor_set_error (t : JS.value) (me : Widget) :
  anchor_tag (vdom (set_error t me)) = anchor_tag (vdom me)
  /\ anchor_href (vdom (set_error t me)) = anchor_href (vdom me).
Proof. unfold set_error. destruct (JS.truthy t); split; reflexivity. Qed.

(** *** Deletion *)

(** X6. When the delete service answers: a 2xx status resets the widget
    exactly as clear() does (state ready, empty error text, fresh file
    input, and the download link taken down), while the stored document
    identifier and the transfer handle stay as they were; any other status
    only sets the error text, naming the status text of the reply, and the
    document stays as it was. *)
Theorem deleteDocument_reply (me : Widget) (statusResponse : HttpResponse) :
  state me <> "ready" ->
  let c := deleteDocument_resumed statusResponse me in
  (is_2xx (status statusResponse) = true ->
     c = Normal tt (after (clear me)) [SetTimeout ClearFocus 100]
     /\ state (after c) = "ready" /\ error (after c) = JS.Str ""
     /\ input_value (vdom (after c)) = Some ""
     /\ anchor_tag (vdom (after c)) = Some "div"
     /\ anchor_href (vdom (after c)) = Some None
     /\ documentId (after c) = documentId me /\ xhr (after c) = xhr me)
  /\ (is_2xx (status statusResponse) = false ->
      c = Normal tt
            (set_error (JS.Str ("Document delete service error: "
                                  ++ statusText statusResponse)) me) []
      /\ state (after c) = state me /\ documentId (after c) = documentId me
      /\ error (after c) =
           JS.Str ("Document delete service error: " ++ statusText statusResponse)).
Proof.
  intros Hst c. subst c. unfold deleteDocument_resumed. split; intros H2; rewrite H2.
  - rewrite clear_then_ready. split; [reflexivity |].
    change (after (Normal tt (after (clear me)) [SetTimeout ClearFocus 100]))
      with (after (clear me)).
    destruct (after_clear me) as (Hs & He & Hi).
    rewrite clear_unfold in *. unfold after in *.
    repeat split; try assumption.
    + rewrite (proj1 (anchor_set_error _ _)).
      apply (anchor_set_state_ready (with_vdom _ me)). exact Hst.
    + rewrite (proj2 (anchor_set_error _ _)).
      apply (anchor_set_state_ready (with_vdom _ me)). exact Hst.
    + now rewrite documentId_set_error, documentId_set_state.
    + now rewrite xhr_set_error, xhr_set_state.
  - unfold assign, after. split; [reflexivity |].
    rewrite state_set_error, documentId_set_error, error_set_error. repeat split.
Qed.

Lemma deleteDocument_reply_witness :
  state processing_widget <> "ready"
  /\ is_2xx (status (http 204 "No Content" "")) = true
  /\ state (after (deleteDocument_resumed (http 204 "No Content" "") processing_widget))
     = "ready"
  /\ documentId (after (deleteDocument_resumed (http 204 "No Content" "")
                          processing_widget)) = JS.Num 7 0
  /\ error (after (deleteDocument_resumed (http 404 "Not Found" "") processing_widget))
     = JS.Str "Document delete service error: Not Found".
Proof.
  assert (Hst : state processing_widget <> "ready") by discriminate.
  destruct (deleteDocument_reply processing_widget (http 204 "No Content" "") Hst)
    as [Hok _].
  destruct (deleteDocument_reply processing_widget (http 404 "Not Found" "") Hst)
    as [_ Hno].
  destruct (Hok eq_refl) as (_ & H1 & _ & _ & _ & _ & H2 & _).
  destruct (Hno eq_refl) as (_ & _ & _ & H3).
  split; [exact Hst |]. split; [reflexivity |].
  split; [exact H1 |]. split; [exact H2 | exact H3].
Defined.

(** *** The action button *)

Lemma onActionButtonClick_unfold (me : Widget) :
  onActionButtonClick me =
  if (state me =? "uploading")%string then
    Normal tt me (match xhr me with Some _ => [XhrAbort] | None => [] end)
  else if (state me =? "upload-failed")%string || (state me =? "scan-failed")%string then
    Normal tt (after (clear me)) [SetTimeout ClearFocus 100]
  else if (state me =? "processing")%string || (state me =? "downloadable")%string
          || (state me =? "not-downloadable")%string then
    Normal tt me [Fetch (delete_link me) DeleteReply]
  else Normal tt me [].
Proof.
  unfold onActionButtonClick. unfold bind at 1. unfold read at 1.
  destruct (state me =? "uploading")%string.
  - unfold abortUpload, bind, read. destruct (xhr me); reflexivity.
  - destruct ((state me =? "upload-failed")%string || (state me =? "scan-failed")%string).
    + rewrite clear_then_ready. reflexivity.
    + destruct ((state me =? "processing")%string || (state me =? "downloadable")%string
                || (state me =? "not-downloadable")%string); reflexivity.
Qed.

(** X7. A click on the action button: while uploading it asks the transfer
    to abort, if there is a handle, and changes nothing itself; after a
    failed upload or a failed scan it resets the widget as clear() does and
    contacts no service; while processing and for a stored document it
    sends the delete request and changes nothing until the answer comes; in
    every other state, ready and starting among them, it does nothing. *)
Theorem onActionButtonClick_cases (me : Widget) :
  let c := onActionButtonClick me in
  thrown c = None
  /\ (state me = "uploading" ->
      after c = me
      /\ effects c = match xhr me with Some _ => [XhrAbort] | None => [] end)
  /\ (state me = "upload-failed" \/ state me = "scan-failed" ->
      after c = after (clear me) /\ effects c = [SetTimeout ClearFocus 100])
  /\ (state me = "processing" \/ state me = "downloadable"
      \/ state me = "not-downloadable" ->
      after c = me /\ effects c = [Fetch (delete_link me) DeleteReply])
  /\ (~ In (state me) [ "uploading"; "upload-failed"; "scan-failed"; "processing";
                        "downloadable"; "not-downloadable" ] ->
      c = Normal tt me []).
Proof.
  intros c. subst c. rewrite onActionButtonClick_unfold.
  split; [| split; [| split; [| split]]].
  - repeat match goal with
           | |- context [if ?b then _ else _] => destruct b
           end; reflexivity.
  - intros ->. split; reflexivity.
  - intros [-> | ->]; split; reflexivity.
  - intros [-> | [-> | ->]]; split; reflexivity.
  - intros Hn. simpl in Hn.
    repeat match goal with
           | |- context [(state me =? ?v)%string] =>
               destruct (String.eqb_spec (state me) v) as [E | E];
               [exfalso; apply Hn; rewrite E; auto 10 | clear E]
           end.
    reflexivity.
Qed.

Lemma onActionButtonClick_cases_witness :
  state processing_widget = "processing"
  /\ effects (onActionButtonClick processing_widget)
     = [Fetch {| base := Some "/delete"; parameter := "documentId"; id := JS.Num 7 0 |}
          DeleteReply]
  /\ ~ In (state (initial demo_config))
          [ "uploading"; "upload-failed"; "scan-failed"; "processing"; "downloadable";
            "not-downloadable" ]
  /\ onActionButtonClick (initial demo_config) = Normal tt (initial demo_config) [].
Proof.
  assert (Hn : ~ In (state (initial demo_config))
                    [ "uploading"; "upload-failed"; "scan-failed"; "processing";
                      "downloadable"; "not-downloadable" ]).
  { simpl. intros H. repeat (destruct H as [H | H]; [discriminate H |]). exact H. }
  destruct (onActionButtonClick_cases processing_widget) as (_ & _ & _ & Hd & _).
  destruct (onActionButtonClick_cases (initial demo_config)) as (_ & _ & _ & _ & Hi).
  split; [reflexivity |]. split; [| split; [exact Hn | exact (Hi Hn)]].
  apply Hd. left. reflexivity.
Defined.

(** X8. The delete service is asked only by a click on the action button
    in one of the states processing, downloadable and not-downloadable; the
    request carries the delete URL, the configured parameter name and the
    stored document identifier, and the click itself changes nothing. *)
Theorem delete_request_only_from_click (ev : Event) (me : Widget) (url : Url) :
  In (Fetch url DeleteReply) (effects (dispatch ev me)) ->
  ev = ButtonClick
  /\ (state me = "processing" \/ state me = "downloadable"
      \/ state me = "not-downloadable")
  /\ url = {| base := documentDeleteUrl (config me);
              parameter := documentIdParameter (config me);
              id := documentId me |}
  /\ after (dispatch ev me) = me.
Proof.
  intros Hin.
  assert (Hquiet : emits no_delete_request (dispatch ev) -> False).
  { intros H. exact (H me _ Hin). }
  destruct ev as [files | | l t | ty | | l body | k | k r | k]; cbn [dispatch] in *;
    [exfalso; apply Hquiet | | exfalso; apply Hquiet ..].
  - unfold onInputValueChange, upload. emitting.
  - rewrite onActionButtonClick_unfold in *.
    destruct (state me =? "uploading")%string.
    { simpl in Hin. destruct (xhr me); simpl in Hin; [| contradiction].
      destruct Hin as [Hin | []]. discriminate Hin. }
    destruct ((state me =? "upload-failed")%string || (state me =? "scan-failed")%string).
    { simpl in Hin. destruct Hin as [Hin | []]. discriminate Hin. }
    destruct ((state me =? "processing")%string || (state me =? "downloadable")%string
              || (state me =? "not-downloadable")%string) eqn:E; [| contradiction].
    simpl in Hin. destruct Hin as [Hin | []]. injection Hin as <-.
    split; [reflexivity |]. split; [| split; reflexivity].
    apply orb_true_iff in E as [E | E]; [apply orb_true_iff in E as [E | E] |];
      apply String.eqb_eq in E; auto.
  - unfold onUploadProgress. emitting.
  - unfold onUploadError. emitting.
  - unfold onUploadAbort. pose proof (clear_emits no_delete_request I).
    emitting; assumption.
  - unfold onUploadDone, checkDocumentStatus. emitting.
  - destruct k; [unfold clear_resumed | unfold upload_resumed | unfold checkDocumentStatus];
      emitting.
  - destruct k; [unfold deleteDocument_resumed | unfold checkDocumentStatus_resumed].
    + pose proof (clear_emits no_delete_request I). emitting; assumption.
    + emitting.
  - destruct k; cbn [dispatch]; unfold deleteDocument_failed, checkDocumentStatus_failed;
      emitting.
Qed.

Lemma delete_request_only_from_click_witness :
  let url := {| base := Some "/delete"; parameter := "documentId"; id := JS.Num 7 0 |} in
  In (Fetch url DeleteReply) (effects (dispatch ButtonClick processing_widget))
  /\ after (dispatch ButtonClick processing_widget) = processing_widget.
Proof.
  intros url.
  assert (Hin : In (Fetch url DeleteReply) (effects (dispatch ButtonClick processing_widget)))
    by (left; reflexivity).
  split; [exact Hin |].
  apply (delete_request_only_from_click ButtonClick processing_widget url Hin).
Defined.

(** *** Transfers *)

Lemma File_eqb_eq (a b : File) : File_eqb a b = true -> a = b.
Proof.
  destruct a as [n1 s1], b as [n2 s2]. unfold File_eqb. simpl.
  rewrite andb_true_iff, String.eqb_eq, N.eqb_eq. intros [-> ->]. reflexivity.
Qed.

Lemma take_In (p : Effect -> bool) (l rest : list Effect) :
  take p l = Some rest ->
  (exists e, In e l /\ p e = true) /\ (forall x, In x rest -> In x l).
Proof.
  revert rest. induction l as [| a l IH]; intros rest H; simpl in H; [discriminate |].
  destruct (p a) eqn:Hp.
  - injection H as <-. split; [exists a; split; [now left | exact Hp] |].
    intros x Hx. now right.
  - destruct (take p l) as [rest' |]; [| discriminate]. injection H as <-.
    destruct (IH rest' eq_refl) as [[e [He Hpe]] Hsub]. split.
    + exists e. split; [now right | exact Hpe].
    + intros x [<- | Hx]; [now left | right; now apply Hsub].
Qed.

(** What a turn of the event loop leaves pending: part of what was pending,
    and what the listener asked for; the timer of an upload fires only if it
    was pending. *)
Lemma turn_pending (ev : Event) (s s' : System) :
  turn ev s = Some s' ->
  (exists rest,
     pending s' = (rest ++ filter waits (effects (dispatch ev (widget s))))%list
     /\ forall x, In x rest -> In x (pending s))
  /\ (forall file, ev = Elapsed (UploadStart file) ->
      exists ms, In (SetTimeout (UploadStart file) ms) (pending s)).
Proof.
  intros Ht. unfold turn in Ht. split.
  - destruct ev; simpl in Ht;
      first
        [ injection Ht as <-; eexists; split; [reflexivity | auto]
        | match type of Ht with
          | match take ?p ?l with _ => _ end = _ =>
              destruct (take p l) as [rest |] eqn:E; [| discriminate];
              injection Ht as <-; exists rest; split;
              [reflexivity | apply (take_In _ _ _ E)]
          end
        | match type of Ht with
          | (if ?b then _ else _) = _ => destruct b; [| discriminate]
          end;
          injection Ht as <-; eexists; split; [reflexivity | auto] ].
  - intros file ->. simpl in Ht.
    destruct (take (answers (Elapsed (UploadStart file))) (pending s)) as [rest |] eqn:E;
      [| discriminate].
    destruct (take_In _ _ _ E) as [[e [He Hp]] _].
    destruct e as [k ms | | | |]; simpl in Hp; try discriminate.
    destruct k as [| g |]; simpl in Hp; try discriminate.
    apply File_eqb_eq in Hp. subst g. now exists ms.
Qed.

Lemma type_rejected_config (me me' : Widget) (type : string) :
  config me = config me' -> type_rejected me type = type_rejected me' type.
Proof. intros H. unfold type_rejected. now rewrite H. Qed.

Lemma size_exceeded_config (me me' : Widget) (file : File) :
  config me = config me' -> size_exceeded me file = size_exceeded me' file.
Proof. intros H. unfold size_exceeded, maxSize. now rewrite H. Qed.

Lemma no_transfer_sound (cfg : Config) (e : Effect) : no_transfer e -> sound_transfer cfg e.
Proof. destruct e as [[] ms | | | |]; simpl; tauto. Qed.

Lemma dispatch_sound (cfg : Config) (ev : Event) (me : Widget) :
  config me = cfg ->
  (forall file, ev = Elapsed (UploadStart file) -> acceptable cfg file) ->
  forall e, In e (effects (dispatch ev me)) -> sound_transfer cfg e.
Proof.
  intros Hcfg Hfire e Hin.
  assert (Hquiet : emits no_transfer (dispatch ev) -> sound_transfer cfg e).
  { intros H. apply no_transfer_sound. exact (H me e Hin). }
  destruct ev as [files | | l t | ty | | l body | k | k r | k]; cbn [dispatch] in *.
  - destruct files as [| file rest]; [contradiction |].
    destruct (type_rejected me (extension (name file))) eqn:Ht.
    { rewrite (onInputValueChange_type_rejected me file rest Ht) in Hin. contradiction. }
    destruct (size_exceeded me file) eqn:Hs.
    { rewrite (onInputValueChange_size_exceeded me file rest Ht Hs) in Hin.
      contradiction. }
    rewrite (onInputValueChange_accepted me file rest Ht Hs) in Hin.
    destruct Hin as [<- | []]. simpl. split.
    + rewrite <- Ht. apply type_rejected_config. now subst cfg.
    + rewrite <- Hs. apply size_exceeded_config. now subst cfg.
  - apply Hquiet. unfold onActionButtonClick, abortUpload, deleteDocument.
    pose proof (clear_emits no_transfer I). emitting; assumption.
  - apply Hquiet. unfold onUploadProgress. emitting.
  - apply Hquiet. unfold onUploadError. emitting.
  - apply Hquiet. unfold onUploadAbort. pose proof (clear_emits no_transfer I).
    emitting; assumption.
  - apply Hquiet. unfold onUploadDone, checkDocumentStatus. emitting.
  - destruct k as [| file |]; cbn [dispatch] in *.
    + apply Hquiet. unfold clear_resumed. emitting.
    + rewrite upload_resumed_sends in Hin.
      destruct Hin as [<- | [<- | []]]; simpl; [exact I |].
      rewrite Hcfg. repeat split; apply (Hfire file eq_refl).
    + apply Hquiet. unfold checkDocumentStatus. emitting.
  - apply Hquiet.
    destruct k; [unfold deleteDocument_resumed | unfold checkDocumentStatus_resumed].
    + pose proof (clear_emits no_transfer I). emitting; assumption.
    + emitting.
  - apply Hquiet.
    destruct k; cbn [dispatch]; unfold deleteDocument_failed, checkDocumentStatus_failed;
      emitting.
Qed.

Lemma run_sound (cfg : Config) (evs : list Event) (s s' : System) :
  run evs s = Some s' -> config (widget s) = cfg ->
  (forall e, In e (pending s) -> sound_transfer cfg e) ->
  forall e, In e (pending s') -> sound_transfer cfg e.
Proof.
  revert s. induction evs as [| ev evs IH]; intros s Hrun Hcfg Hpend; simpl in Hrun.
  - injection Hrun as <-. exact Hpend.
  - destruct (turn ev s) as [s1 |] eqn:Ht; [| discriminate].
    destruct (turn_pending ev s s1 Ht) as [[rest [Hp Hsub]] Hfire].
    apply (IH s1 Hrun).
    + rewrite (turn_widget ev s s1 Ht), dispatch_config. exact Hcfg.
    + intros e He. rewrite Hp in He. apply in_app_iff in He as [He | He].
      * apply Hpend, Hsub, He.
      * apply filter_In in He as [He _].
        apply (dispatch_sound cfg ev (widget s) Hcfg); [| exact He].
        intros file Hev. destruct (Hfire file Hev) as [ms Hms].
        exact (Hpend _ Hms).
Qed.

(** X9. In every run from the constructed widget, each transfer under way
    is a POST to the configured upload URL of a file that passes the type
    check and the size check of the configuration: nothing is sent that
    file selection would have rejected. *)
Theorem transfers_are_validated
  (cfg : Config) (evs : list Event) (s : System)
  (method : string) (url : option string) (file : File) :
  run evs (boot cfg) = Some s -> In (XhrSend method url file) (pending s) ->
  method = "POST" /\ url = uploadUrl cfg
  /\ type_rejected (initial cfg) (extension (name file)) = false
  /\ size_exceeded (initial cfg) file = false.
Proof.
  intros Hrun Hin.
  assert (H : sound_transfer cfg (XhrSend method url file)).
  { apply (run_sound cfg evs (boot cfg) s Hrun eq_refl); [| exact Hin].
    intros e []. }
  destruct H as (Hm & Hu & Ht & Hs). repeat split; assumption.
Qed.

Lemma transfers_are_validated_witness :
  let evs := [InputChange [report_pdf]; Elapsed (UploadStart report_pdf)] in
  let s := {| widget := uploading_widget;
              pending := [XhrSend "POST" (Some "/upload") report_pdf] |} in
  run evs (boot demo_config) = Some s
  /\ size_exceeded (initial demo_config) report_pdf = false.
Proof.
  intros evs s.
  assert (Hrun : run evs (boot demo_config) = Some s) by (vm_compute; reflexivity).
  split; [exact Hrun |].
  apply (transfers_are_validated demo_config evs s "POST" (Some "/upload") report_pdf Hrun).
  left. reflexivity.
Defined.

(** *** From selection to download *)

Lemma File_eqb_refl (f : File) : File_eqb f f = true.
Proof. unfold File_eqb. now rewrite String.eqb_refl, N.eqb_refl. Qed.

Lemma upload_resumed_unfold (file : File) (me : Widget) :
  upload_resumed file me =
  Normal tt
    (set_state "uploading" (with_vdom (with_anchor_innerHTML (name file) (vdom me)) me))
    [Focus ActionButton; XhrSend "POST" (uploadUrl (config me)) file].
Proof.
  unfold upload_resumed, bind, read, assign, host. cbn [app].
  rewrite config_set_state. reflexivity.
Qed.

Lemma set_state_downloadable (me : Widget) :
  state me <> "downloadable" ->
  anchor_tag (vdom (set_state "downloadable" me)) = Some "a"
  /\ anchor_href (vdom (set_state "downloadable" me)) = Some (Some (download_link me)).
Proof.
  intros H. unfold set_state.
  destruct (String.eqb_spec "downloadable" (state me)) as [E | _]; [now elim H |].
  split; reflexivity.
Qed.

Lemma anchor_innerHTML_set_state (v : string) (me : Widget) :
  anchor_innerHTML (vdom (set_state v me)) = anchor_innerHTML (vdom me).
Proof. setters; reflexivity. Qed.

(** The widget while an acceptable file is being transferred. *)
Lemma while_uploading (cfg : Config) (file : File) :
  acceptable cfg file ->
  let w := after (upload_resumed file (after (onInputValueChange [file] (initial cfg)))) in
  state w = "uploading" /\ config w = cfg
  /\ anchor_innerHTML (vdom w) = Some (name file)
  /\ error w = JS.Str "" /\ xhr w = Some NewXMLHttpRequest
  /\ documentId w = JS.Undefined.
Proof.
  intros [Ht Hs] w. subst w.
  rewrite (onInputValueChange_accepted (initial cfg) file [] Ht Hs).
  rewrite upload_resumed_unfold. unfold after.
  set (w0 := with_fileSize (Some (formatSize (Some (size file)) "" "")) (initial cfg)).
  set (w1 := set_state "starting" (with_xhr (Some NewXMLHttpRequest)
                                     (set_error (JS.Str "") w0))).
  assert (H1 : config w1 = cfg /\ error w1 = JS.Str ""
               /\ xhr w1 = Some NewXMLHttpRequest /\ documentId w1 = JS.Undefined).
  { unfold w1. rewrite config_set_state, xhr_set_state, documentId_set_state.
    rewrite error_set_state by discriminate.
    cbn [config error xhr documentId with_xhr].
    rewrite config_set_error, error_set_error, documentId_set_error.
    repeat split. }
  destruct H1 as (Hc & He & Hx & Hd).
  rewrite state_set_state, config_set_state, anchor_innerHTML_set_state, xhr_set_state,
    documentId_set_state.
  rewrite error_set_state by discriminate.
  cbn [config error xhr documentId vdom anchor_innerHTML with_vdom with_anchor_innerHTML].
  repeat split; assumption.
Qed.

(** Entering downloadable from another state puts up the link. *)
Lemma enter_downloadable (cfg : Config) (file : File) (id : JS.value) (w : Widget) :
  state w <> "downloadable" -> config w = cfg -> documentId w = id ->
  anchor_innerHTML (vdom w) = Some (name file) -> error w = JS.Str "" -> xhr w = None ->
  offers_download cfg file id (set_state "downloadable" w).
Proof.
  intros Hst Hc Hd Ha He Hx. unfold offers_download.
  destruct (set_state_downloadable w Hst) as [Htag Href].
  rewrite state_set_state, documentId_set_state, xhr_set_state, anchor_innerHTML_set_state.
  rewrite error_set_state by discriminate.
  rewrite Htag, Href. unfold download_link. rewrite Hc, Hd.
  repeat split; assumption.
Qed.

Lemma run_app (evs evs' : list Event) (s : System) :
  run (evs ++ evs')%list s = match run evs s with
                             | Some s' => run evs' s'
                             | None => None
                             end.
Proof.
  revert s. induction evs as [| ev evs IH]; intros s; simpl; [reflexivity |].
  destruct (turn ev s); [apply IH | reflexivity].
Qed.

(** X10. From the constructed widget, selecting an acceptable file, letting
    the transfer start, and receiving an acknowledgement with a truthy
    success leads to a widget that offers the document for download under
    the identifier the response gave: at once when no status URL is
    configured, and otherwise after the status service has answered 2xx with
    the status downloadable.  Nothing is then left pending, and the link is
    built from the download URL, the parameter name and that identifier. *)
Theorem selection_to_download
  (cfg : Config) (file : File) (loaded : N) (xhr_response : string)
  (fields : list (string * JS.value)) (statusResponse : HttpResponse) :
  acceptable cfg file -> loaded <> 0%N ->
  JSON.parse xhr_response = Some (JS.Obj fields) ->
  JS.truthy (JS.lookup fields "success") = true ->
  is_2xx (status statusResponse) = true ->
  json statusResponse = Document "downloadable" ->
  let id := JS.lookup fields (documentIdParameter cfg) in
  let upload := [InputChange [file]; Elapsed (UploadStart file); LoadEnd loaded xhr_response] in
  exists s,
    run (if configured (documentStatusUrl cfg)
         then upload ++ [Replied StatusReply statusResponse]
         else upload)%list (boot cfg) = Some s
    /\ pending s = [] /\ offers_download cfg file id (widget s).
Proof.
  intros Hacc Hl Hp Hsucc H2xx Hjson id upload.
  pose proof Hacc as [Ht Hs].
  pose proof (while_uploading cfg file Hacc) as Hup.
  cbv zeta in Hup.
  set (w2 := after (upload_resumed file (after (onInputValueChange [file] (initial cfg)))))
    in *.
  destruct Hup as (Hst2 & Hcfg2 & Ha2 & He2 & _ & _).
  assert (Hrun2 : run [InputChange [file]; Elapsed (UploadStart file)] (boot cfg)
                  = Some {| widget := w2;
                            pending := [XhrSend "POST" (uploadUrl cfg) file] |}).
  { unfold run. unfold turn at 1. cbn [dispatch boot widget pending].
    unfold w2.
    rewrite (onInputValueChange_accepted (initial cfg) file [] Ht Hs).
    cbn [after effects filter waits app].
    unfold turn at 1. cbn [answers take Timer_eqb widget pending]. rewrite File_eqb_refl.
    cbn [dispatch]. rewrite upload_resumed_unfold. cbn [after effects filter waits app].
    rewrite config_set_state. cbn [config with_xhr]. rewrite config_set_error.
    reflexivity. }
  assert (Hdone : onUploadDone loaded xhr_response w2 =
                  if configured (documentStatusUrl cfg) then
                    Normal tt (set_state "processing" (with_documentId id (with_xhr None w2)))
                      [Fetch {| base := documentStatusUrl cfg;
                                parameter := documentIdParameter cfg;
                                id := id |} StatusReply]
                  else
                    Normal tt (set_state "downloadable"
                                 (with_documentId id (with_xhr None w2))) []).
  { rewrite (onUploadDone_accepted loaded xhr_response w2 fields Hl Hp Hsucc).
    rewrite Hcfg2. reflexivity. }
  set (w := with_documentId id (with_xhr None w2)) in *.
  assert (Hturn : turn (LoadEnd loaded xhr_response)
                    {| widget := w2; pending := [XhrSend "POST" (uploadUrl cfg) file] |}
                  = Some {| widget := after (onUploadDone loaded xhr_response w2);
                            pending := filter waits
                                         (effects (onUploadDone loaded xhr_response w2)) |})
    by reflexivity.
  change upload
    with ([InputChange [file]; Elapsed (UploadStart file)]
            ++ [LoadEnd loaded xhr_response])%list.
  destruct (configured (documentStatusUrl cfg)).
  - rewrite <- app_assoc, run_app, Hrun2. cbn [app run]. rewrite Hturn, Hdone.
    cbn [after effects filter waits].
    unfold turn. cbn [answers take Reply_eqb widget pending dispatch].
    rewrite (checkDocumentStatus_resumed_document _ _ _ H2xx Hjson).
    cbn [String.eqb Ascii.eqb].
    eexists. split; [reflexivity |]. split; [reflexivity |]. cbn [widget after assign].
    apply enter_downloadable.
    + rewrite state_set_state. discriminate.
    + now rewrite config_set_state.
    + now rewrite documentId_set_state.
    + now rewrite anchor_innerHTML_set_state.
    + now rewrite error_set_state by discriminate.
    + now rewrite xhr_set_state.
  - rewrite run_app, Hrun2. cbn [run]. rewrite Hturn, Hdone.
    cbn [after effects filter waits].
    eexists. split; [reflexivity |]. split; [reflexivity |]. cbn [widget].
    apply enter_downloadable; try assumption; try reflexivity.
    change (state w) with (state w2). rewrite Hst2. discriminate.
Qed.

Lemma selection_to_download_witness :
  acceptable demo_config report_pdf
  /\ JSON.parse upload_accepted
     = Some (JS.Obj [("success", JS.Bool true); ("documentId", JS.Num 7 0)])
  /\ exists s,
       run upload_and_scan (boot demo_config) = Some s
       /\ pending s = [] /\ offers_download demo_config report_pdf (JS.Num 7 0) (widget s).
Proof.
  assert (Hacc : acceptable demo_config report_pdf) by (split; reflexivity).
  split; [exact Hacc |]. split; [reflexivity |].
  exact (selection_to_download demo_config report_pdf 31 upload_accepted
           [("success", JS.Bool true); ("documentId", JS.Num 7 0)]
           (http 200 "OK" "downloadable") Hacc ltac:(discriminate) eq_refl eq_refl
           eq_refl eq_refl).
Defined.

(** *** Size limits, the other way round *)

Lemma append_empty (s : string) : s ++ "" = s.
Proof. induction s as [| c s IH]; simpl; [reflexivity | now rewrite IH]. Qed.

Lemma span_digits_spec (s ds rest : string) :
  span_digits s = (ds, rest) ->
  s = ds ++ rest /\ all_digits ds = true
  /\ match rest with String c _ => is_digit c = false | EmptyString => True end.
Proof.
  revert ds rest. induction s as [| c s IH]; intros ds rest H; simpl in H.
  - injection H as <- <-. repeat split.
  - destruct (is_digit c) eqn:Hc.
    + destruct (span_digits s) as [ds' out] eqn:E. injection H as <- <-.
      destruct (IH ds' out eq_refl) as (-> & Hd & Hr).
      simpl. rewrite Hc, Hd. repeat split. exact Hr.
    + injection H as <- <-. repeat split. exact Hc.
Qed.

Lemma sizeRE_inversion (s digits : string) (unit : option string) :
  sizeRE s = Some (digits, unit) ->
  digits <> "" /\ all_digits digits = true
  /\ match unit with
     | None => s = digits
     | Some u => s = digits ++ u
                 /\ exists multiplier, In (toLowerCase u, multiplier) unit_multipliers
     end.
Proof.
  unfold sizeRE. destruct (span_digits s) as [ds rest] eqn:E.
  destruct (span_digits_spec s ds rest E) as (-> & Hd & _).
  destruct ds as [| d ds]; [discriminate |].
  destruct rest as [| c rest].
  - intros H. inversion H; subst. split; [discriminate |]. split; [exact Hd |].
    apply append_empty.
  - destruct (String.eqb_spec (toLowerCase (String c rest)) "kb") as [Ek | _];
      [| destruct (String.eqb_spec (toLowerCase (String c rest)) "mb") as [Em | _];
         [| destruct (String.eqb_spec (toLowerCase (String c rest)) "gb") as [Eg | _] ] ];
      simpl orb; intros H; try discriminate H; inversion H; subst;
      (split; [discriminate |]); (split; [exact Hd |]); (split; [reflexivity |]).
    + exists 1000. rewrite Ek. simpl. auto.
    + exists 1000000. rewrite Em. simpl. auto.
    + exists 1000000000. rewrite Eg. simpl. auto.
Qed.

(** A Number below 2^53 has not been rounded. *)
Lemma to_double_small (n : Z) : to_double n < 2 ^ 53 -> to_double n = n.
Proof.
  intros H. destruct (Z.lt_ge_cases n (2 ^ 53)) as [Hn | Hn].
  - now apply to_double_exact.
  - pose proof (to_double_large n Hn). lia.
Qed.

Lemma to_double_nonneg (n : Z) : 0 <= n -> 0 <= to_double n.
Proof.
  intros H. destruct (Z.lt_ge_cases n (2 ^ 53)) as [Hn | Hn].
  - now rewrite to_double_exact.
  - pose proof (to_double_large n Hn). lia.
Qed.

(** X11. The size limits that are understood: whenever a configured string
    yields a maximum, the string is a non-empty run of decimal digits,
    followed by nothing or by kb, mb or gb in some mix of letter cases, and
    the maximum is the number the digits spell times the multiplier of the
    unit, computed in doubles: whenever the maximum is below 2^53 it is
    that product exactly.  So a maximum is never negative, and a string
    with a sign, a blank, a decimal point or any other unit yields none. *)
Theorem beforeGetMaxSize_inversion (s : string) (n : Z) :
  beforeGetMaxSize (Some s) = Some n ->
  exists digits unit multiplier,
    s = digits ++ unit
    /\ digits <> "" /\ all_digits digits = true
    /\ (unit = "" /\ multiplier = 1 \/ In (toLowerCase unit, multiplier) unit_multipliers)
    /\ n = to_double (to_double (parseInt digits) * multiplier)
    /\ (n < 2 ^ 53 -> n = parseInt digits * multiplier)
    /\ 0 <= n.
Proof.
  assert (Hexact : forall d m, 0 <= d -> 1 <= m ->
            to_double (to_double d * m) < 2 ^ 53 ->
            to_double (to_double d * m) = d * m).
  { intros d m Hd Hm H. pose proof (to_double_nonneg d Hd) as H0.
    pose proof (to_double_small _ H) as E1. rewrite E1 in H. rewrite E1.
    assert (Hle : to_double d <= to_double d * m) by nia.
    rewrite (to_double_small d) by lia. reflexivity. }
  assert (Hnonneg : forall d m, 0 <= d -> 1 <= m -> 0 <= to_double (to_double d * m)).
  { intros d m Hd Hm. pose proof (to_double_nonneg d Hd). apply to_double_nonneg. nia. }
  unfold beforeGetMaxSize. destruct (sizeRE s) as [[digits unit] |] eqn:E; [| discriminate].
  destruct (sizeRE_inversion s digits unit E) as (Hne & Hd & Hu).
  pose proof (parseInt_nonneg digits Hd) as Hpos.
  destruct unit as [u |].
  - destruct Hu as [-> [m Hm]].
    assert (Hassoc : assoc (toLowerCase u) sizeMultiplier = Some m /\ 1 <= m).
    { simpl in Hm. destruct Hm as [H | [H | [H | []]]]; injection H as <- <-;
        split; (reflexivity || lia). }
    destruct Hassoc as [-> Hm0]. intros H. injection H as <-.
    exists digits, u, m.
    split; [reflexivity |]. split; [exact Hne |]. split; [exact Hd |].
    split; [now right |]. split; [reflexivity |].
    split; [now apply Hexact | now apply Hnonneg].
  - subst s. change (assoc (toLowerCase "unit") sizeMultiplier) with (Some 1).
    cbv iota. intros H. injection H as <-.
    exists digits, "", 1.
    split; [symmetry; apply append_empty |]. split; [exact Hne |]. split; [exact Hd |].
    split; [now left |]. split; [reflexivity |].
    split; [apply Hexact; lia | apply Hnonneg; lia].
Qed.

Lemma beforeGetMaxSize_inversion_witness :
  beforeGetMaxSize (Some "20Mb") = Some 20000000
  /\ 20000000 < 2 ^ 53
  /\ exists digits unit multiplier,
       "20Mb" = digits ++ unit /\ all_digits digits = true
       /\ 20000000 = parseInt digits * multiplier.
Proof.
  assert (H : beforeGetMaxSize (Some "20Mb") = Some 20000000) by reflexivity.
  assert (Hb : 20000000 < 2 ^ 53) by reflexivity.
  split; [exact H |]. split; [exact Hb |].
  destruct (beforeGetMaxSize_inversion "20Mb" 20000000 H)
    as (digits & unit & multiplier & Hs & _ & Hd & _ & _ & Hn & _).
  exists digits, unit, multiplier. split; [exact Hs |]. split; [exact Hd | exact (Hn Hb)].
Defined.

Lemma digit_char (d : Z) :
  0 <= d < 10 ->
  is_digit (ascii_of_N (Z.to_N (48 + d))) = true
  /\ digit_value (ascii_of_N (Z.to_N (48 + d))) = d.
Proof.
  intros H.
  assert (E : d = 0 \/ d = 1 \/ d = 2 \/ d = 3 \/ d = 4 \/ d = 5 \/ d = 6 \/ d = 7
              \/ d = 8 \/ d = 9) by lia.
  repeat (destruct E as [-> | E]; [split; reflexivity |]). subst. split; reflexivity.
Qed.

Lemma append_assoc (s t u : string) : (s ++ t) ++ u = s ++ (t ++ u).
Proof. induction s as [| c s IH]; simpl; [reflexivity | now rewrite IH]. Qed.

Lemma digits_of_step (fuel : nat) (n : Z) (acc : string) :
  digits_of (S fuel) n acc =
  if n <? 10 then String (ascii_of_N (Z.to_N (48 + n mod 10))) acc
  else digits_of fuel (n / 10) (String (ascii_of_N (Z.to_N (48 + n mod 10))) acc).
Proof. reflexivity. Qed.

Lemma digits_of_acc (fuel : nat) (n : Z) (acc : string) :
  digits_of fuel n acc = digits_of fuel n "" ++ acc.
Proof.
  revert n acc. induction fuel as [| fuel IH]; intros n acc; [reflexivity |].
  rewrite !digits_of_step. destruct (n <? 10); [reflexivity |].
  rewrite (IH (n / 10) (String _ acc)), (IH (n / 10) (String _ "")).
  rewrite append_assoc. reflexivity.
Qed.

Lemma parseInt_from_app (s t : string) (acc : Z) :
  parseInt_from acc (s ++ t) = parseInt_from (parseInt_from acc s) t.
Proof.
  revert acc. induction s as [| c s IH]; intros acc; [reflexivity | apply IH].
Qed.

Lemma all_digits_app (s t : string) :
  all_digits (s ++ t) = all_digits s && all_digits t.
Proof.
  induction s as [| c s IH]; simpl; [reflexivity |]. rewrite IH. apply andb_assoc.
Qed.

(** The decimal numeral of a number is made of digits and reads back as the
    number. *)
Lemma digits_of_spec (fuel : nat) (n : Z) :
  0 <= n < 2 ^ Z.of_nat (S fuel) ->
  all_digits (digits_of (S fuel) n "") = true
  /\ digits_of (S fuel) n "" <> ""
  /\ parseInt_from 0 (digits_of (S fuel) n "") = n.
Proof.
  revert n. induction fuel as [| fuel IH]; intros n Hn.
  - assert (Hlt : n < 10) by (change (2 ^ Z.of_nat 1) with 2 in Hn; lia).
    rewrite digits_of_step. apply Z.ltb_lt in Hlt. rewrite Hlt. apply Z.ltb_lt in Hlt.
    rewrite Z.mod_small by lia.
    destruct (digit_char n ltac:(lia)) as [Hd Hv].
    cbn [all_digits parseInt_from]. rewrite Hd, Hv. repeat split; first [discriminate | lia].
  - rewrite digits_of_step. destruct (Z.ltb_spec n 10) as [Hlt | Hge].
    + rewrite Z.mod_small by lia.
      destruct (digit_char n ltac:(lia)) as [Hd Hv].
      cbn [all_digits parseInt_from]. rewrite Hd, Hv. repeat split; first [discriminate | lia].
    + assert (Hq : 0 <= n / 10 < 2 ^ Z.of_nat (S fuel)).
      { split; [apply Z.div_pos; lia |].
        apply Z.div_lt_upper_bound; [lia |].
        rewrite Nat2Z.inj_succ, Z.pow_succ_r in Hn by lia. lia. }
      destruct (IH (n / 10) Hq) as (Ha & Hne & Hp).
      pose proof (Z.mod_pos_bound n 10 ltac:(lia)) as Hm.
      destruct (digit_char (n mod 10) Hm) as [Hd Hv].
      rewrite digits_of_acc, all_digits_app, parseInt_from_app, Ha, Hp.
      cbn [all_digits parseInt_from]. rewrite Hd, Hv. repeat split.
      * destruct (digits_of (S fuel) (n / 10) ""); [now elim Hne | discriminate].
      * pose proof (Z.div_mod n 10 ltac:(lia)). lia.
Qed.

Lemma decimal_spec (n : Z) :
  0 <= n -> all_digits (decimal n) = true /\ decimal n <> "" /\ parseInt (decimal n) = n.
Proof.
  intros Hn. unfold decimal, parseInt. apply digits_of_spec.
  split; [exact Hn |].
  destruct (Z.eq_dec n 0) as [-> | Hne]; [reflexivity |].
  rewrite Nat2Z.inj_succ, Z2Nat.id by apply Z.log2_nonneg.
  apply Z.log2_spec. lia.
Qed.

(** X12. A size limit given as a plain number of bytes below 2^53, that is
    as the decimal numeral of such an n, makes n the effective maximum: a
    file is over the limit exactly when it has more than n bytes, so a file
    of exactly n bytes passes the size check. *)
Theorem plain_number_limit (me : Widget) (file : File) (n : Z) :
  0 <= n < 2 ^ 53 -> _maxSize (config me) = Some (decimal n) ->
  maxSize me = Some n
  /\ (size_exceeded me file = true <-> n < Z.of_N (size file))
  /\ (Z.of_N (size file) = n -> size_exceeded me file = false).
Proof.
  intros [Hn Hb] Hcfg. destruct (decimal_spec n Hn) as (Hd & Hne & Hp).
  assert (Hmax : maxSize me = Some n).
  { unfold maxSize, beforeGetMaxSize. rewrite Hcfg, (sizeRE_plain _ Hne Hd).
    change (assoc (toLowerCase "unit") sizeMultiplier) with (Some 1). cbv iota.
    rewrite Hp, product_exact by lia. f_equal. lia. }
  split; [exact Hmax |]. unfold size_exceeded. rewrite Hmax. split.
  - rewrite Z.gtb_ltb. apply Z.ltb_lt.
  - intros ->. rewrite Z.gtb_ltb. apply Z.ltb_irrefl.
Qed.

Lemma plain_number_limit_witness :
  let me := initial {| uploadUrl := Some "/upload"; documentIdParameter := "documentId";
                       downloadUrl := None; documentStatusUrl := None;
                       documentDeleteUrl := None; types := None;
                       _maxSize := Some "2048" |} in
  decimal 2048 = "2048"
  /\ 0 <= 2048 < 2 ^ 53
  /\ maxSize me = Some 2048
  /\ size_exceeded me {| name := "a.bin"; size := 2048 |} = false.
Proof.
  intros me.
  assert (Hb : 0 <= 2048 < 2 ^ 53) by (split; [discriminate | reflexivity]).
  destruct (plain_number_limit me {| name := "a.bin"; size := 2048 |} 2048 Hb eq_refl)
    as (Hmax & _ & Heq).
  split; [reflexivity |]. split; [exact Hb |].
  split; [exact Hmax | apply Heq; reflexivity].
Defined.

(** *** Extensions *)

Lemma split_last_dot (s : string) :
  no_dot s = true
  \/ exists stem ext, s = stem ++ String "." ext /\ no_dot ext = true.
Proof.
  induction s as [| c s IH]; [now left |].
  destruct IH as [Hs | (stem & ext & -> & Hext)].
  - destruct (Ascii.eqb_spec c ".") as [-> | Hc].
    + right. exists "", s. split; [reflexivity | exact Hs].
    + left. simpl. rewrite Hs. apply Ascii.eqb_neq in Hc. now rewrite Hc.
  - right. exists (String c stem), ext. split; [reflexivity | exact Hext].
Qed.

(** X13. The extension the type check looks up: for every file name it has
    no dot; a name without a dot has the empty extension, and every other
    name is its stem, a dot and its extension, so that a name ending in a
    dot has the empty extension too.  With an allow-list configured, a file
    with the empty extension is rejected unless the list has a truthy entry
    under the empty key. *)
Theorem extension_total (me : Widget) (file : File) (rest : list File)
  (allowed : list (string * JS.value)) :
  types (config me) = Some allowed ->
  no_dot (extension (name file)) = true
  /\ (no_dot (name file) = true /\ extension (name file) = ""
      \/ exists stem, name file = stem ++ "." ++ extension (name file))
  /\ extension "archive." = ""
  /\ (extension (name file) = "" -> JS.truthy (JS.lookup allowed "") = false ->
      effects (onInputValueChange (file :: rest) me) = []
      /\ state (after (onInputValueChange (file :: rest) me)) = state me
      /\ JS.truthy (error (after (onInputValueChange (file :: rest) me))) = true).
Proof.
  intros Htypes.
  assert (Hshape : no_dot (extension (name file)) = true
                   /\ (no_dot (name file) = true /\ extension (name file) = ""
                       \/ exists stem, name file = stem ++ "." ++ extension (name file))).
  { destruct (split_last_dot (name file)) as [Hn | (stem & ext & E & Hext)].
    - destruct (extension_spec "" (name file) Hn) as [_ He]. rewrite He.
      split; [reflexivity | left; now split].
    - destruct (extension_spec stem ext Hext) as [He _].
      change (stem ++ "." ++ ext) with (stem ++ String "." ext) in He.
      rewrite E, He. split; [exact Hext | right; now exists stem]. }
  destruct Hshape as [Hnd Hsh].
  split; [exact Hnd |]. split; [exact Hsh |]. split; [reflexivity |].
  intros He Hf.
  assert (Hrej : type_rejected me (extension (name file)) = true).
  { unfold type_rejected. rewrite Htypes, He, Hf. reflexivity. }
  rewrite (onInputValueChange_type_rejected me file rest Hrej). unfold effects, after.
  rewrite state_set_error, error_set_error. repeat split.
Qed.

Lemma extension_total_witness :
  types (config (initial demo_config)) = Some [("pdf", JS.Bool true)]
  /\ extension "README" = ""
  /\ effects (onInputValueChange [ {| name := "README"; size := 10 |} ]
                (initial demo_config)) = [].
Proof.
  split; [reflexivity |]. split; [reflexivity |].
  destruct (extension_total (initial demo_config) {| name := "README"; size := 10 |} []
              [("pdf", JS.Bool true)] eq_refl) as (_ & _ & _ & H).
  apply H; reflexivity.
Defined.

(** X14. The allow-list is read as a plain object, so the names that every
    object inherits count as allowed: a file whose extension is one of
    them, constructor or toString for example, passes the type check of
    any allow-list that does not itself carry that key, the empty list
    included. *)
Theorem inherited_names_pass (me : Widget) (allowed : list (string * JS.value))
  (stem ext : string) (bytes : N) (rest : list File) :
  types (config me) = Some allowed ->
  JS.own allowed ext = None -> JS.inherited ext = true -> no_dot ext = true ->
  let file := {| name := stem ++ "." ++ ext; size := bytes |} in
  type_rejected me (extension (name file)) = false
  /\ (size_exceeded me file = false ->
      effects (onInputValueChange (file :: rest) me) = [SetTimeout (UploadStart file) 100])
  /\ JS.inherited "constructor" = true /\ JS.inherited "toString" = true.
Proof.
  intros Htypes Hown Hinh Hext file.
  assert (Ht : type_rejected me (extension (name file)) = false).
  { unfold type_rejected. rewrite Htypes.
    destruct (extension_spec stem ext Hext) as [He _]. cbn [name file]. rewrite He.
    unfold JS.lookup. rewrite Hown, Hinh. reflexivity. }
  split; [exact Ht |]. split; [| split; reflexivity].
  intros Hs. rewrite (onInputValueChange_accepted me file rest Ht Hs). reflexivity.
Qed.

Lemma inherited_names_pass_witness :
  JS.own [("pdf", JS.Bool true)] "constructor" = None
  /\ effects (onInputValueChange [ {| name := "evil" ++ "." ++ "constructor"; size := 1 |} ]
                (initial demo_config))
     = [SetTimeout (UploadStart {| name := "evil.constructor"; size := 1 |}) 100].
Proof.
  split; [reflexivity |].
  destruct (inherited_names_pass (initial demo_config) [("pdf", JS.Bool true)]
              "evil" "constructor" 1 [] eq_refl eq_refl eq_refl eq_refl) as (_ & H & _).
  apply H. reflexivity.
Defined.

(** *** An empty selection *)

(** X15. When the selection is emptied, the widget goes to ready and that
    is all: a transfer under way is not aborted, the transfer handle, the
    document identifier, the file input and the error text stay as they
    are, and nothing is asked of the host; in the state ready nothing
    changes at all. *)
Theorem empty_selection (me : Widget) :
  let c := onInputValueChange [] me in
  state (after c) = "ready" /\ effects c = [] /\ thrown c = None
  /\ xhr (after c) = xhr me /\ documentId (after c) = documentId me
  /\ input_value (vdom (after c)) = input_value (vdom me)
  /\ error (after c) = error me
  /\ (state me = "ready" -> after c = me).
Proof.
  intros c. subst c. unfold onInputValueChange, assign, after, effects, thrown.
  rewrite state_set_state, xhr_set_state, documentId_set_state, input_value_set_state.
  rewrite error_set_state by discriminate.
  repeat split. intros H. now apply set_state_current.
Qed.

Lemma empty_selection_witness :
  state (after (onInputValueChange [] uploading_widget)) = "ready"
  /\ xhr (after (onInputValueChange [] uploading_widget)) = Some NewXMLHttpRequest
  /\ after (onInputValueChange [] (initial demo_config)) = initial demo_config.
Proof.
  destruct (empty_selection uploading_widget) as (H1 & _ & _ & H2 & _).
  destruct (empty_selection (initial demo_config)) as (_ & _ & _ & _ & _ & _ & _ & H3).
  split; [exact H1 |]. split; [exact H2 | apply H3; reflexivity].
Defined.

(** *** A failed scan *)

Lemma status_innerHTML_set_state_scan_failed (me : Widget) :
  state me <> "scan-failed" ->
  status_innerHTML (vdom (set_state "scan-failed" me)) = Some (MalwareFound (fileSize me)).
Proof.
  intros Hs. unfold set_state.
  destruct (String.eqb_spec "scan-failed" (state me)) as [E | _]; [now elim Hs |].
  reflexivity.
Qed.

(** X16. A scan that fails: when, in the state processing, the status
    service answers 2xx with the status scan-failed, the widget enters
    scan-failed, shows the fixed text asking to check the file and is
    tagged invalid; a click on the action button then resets it as clear()
    does, to ready with an empty error text, and sends no delete request:
    the only thing asked of the host is the pause before the focus. *)
Theorem failed_scan_then_click (me : Widget) (statusResponse : HttpResponse) :
  state me = "processing" ->
  is_2xx (status statusResponse) = true ->
  json statusResponse = Document "scan-failed" ->
  let failed := after (checkDocumentStatus_resumed statusResponse me) in
  let c := onActionButtonClick failed in
  (state failed = "scan-failed"
   /\ error failed = JS.Str "Please check the file and try again"
   /\ In "neo-invalid" (cls failed)
   /\ status_innerHTML (vdom failed) = Some (MalwareFound (fileSize me))
   /\ documentId failed = documentId me)
  /\ (after c = after (clear failed)
      /\ state (after c) = "ready" /\ error (after c) = JS.Str ""
      /\ ~ In "neo-invalid" (cls (after c))
      /\ effects c = [SetTimeout ClearFocus 100]).
Proof.
  intros Hst H2xx Hjson failed c.
  assert (Hne : state me <> "scan-failed") by (rewrite Hst; discriminate).
  assert (Hf : failed = set_state "scan-failed" me).
  { unfold failed. rewrite (checkDocumentStatus_resumed_document _ _ me H2xx Hjson).
    reflexivity. }
  assert (Hstate : state failed = "scan-failed") by (rewrite Hf; apply state_set_state).
  split.
  - rewrite Hf. destruct (set_state_scan_failed me Hne) as [He Hm].
    rewrite state_set_state, documentId_set_state, He.
    rewrite (status_innerHTML_set_state_scan_failed me Hne).
    repeat split.
    apply (In_cls_set_state "scan-failed" me "neo-invalid"); [congruence |].
    right. split; [right; now split |]. unfold state_tag. simpl. congruence.
  - subst c. rewrite onActionButtonClick_unfold, Hstate. cbn [String.eqb Ascii.eqb orb].
    destruct (after_clear failed) as (Hs & He & _).
    unfold after at 1 2 3 4, effects. repeat split; try assumption.
    rewrite clear_unfold. unfold after. apply set_error_hidden. reflexivity.
Qed.

Lemma failed_scan_then_click_witness :
  let failed := after (checkDocumentStatus_resumed (http 200 "OK" "scan-failed")
                         processing_widget) in
  state processing_widget = "processing"
  /\ state failed = "scan-failed"
  /\ effects (onActionButtonClick failed) = [SetTimeout ClearFocus 100].
Proof.
  intros failed.
  destruct (failed_scan_then_click processing_widget (http 200 "OK" "scan-failed")
              eq_refl eq_refl eq_refl) as [(H1 & _) (_ & _ & _ & _ & H2)].
  split; [reflexivity |]. split; [exact H1 | exact H2].
Defined.

(** *** Polling *)

(** X17. Polling is steady: in the state processing with one status
    request under way, a reply that says scanning followed by the timer it
    sets puts the widget and the host back exactly where they were, one
    status request under way; and so does any number of such rounds. *)
Theorem polling_is_steady (s : System) (statusResponse : HttpResponse) (n : nat) :
  state (widget s) = "processing" ->
  pending s = [Fetch (status_link (widget s)) StatusReply] ->
  is_2xx (status statusResponse) = true ->
  json statusResponse = Document "scanning" ->
  run (List.concat (List.repeat [Replied StatusReply statusResponse; Elapsed StatusCheck] n)) s
  = Some s.
Proof.
  intros Hst Hp H2xx Hjson. induction n as [| n IH]; [reflexivity |].
  cbn [List.repeat List.concat]. rewrite run_app.
  assert (Hround : run [Replied StatusReply statusResponse; Elapsed StatusCheck] s = Some s).
  { destruct s as [w p]. cbn [widget pending] in *. subst p.
    unfold run. unfold turn at 1. cbn [answers take Reply_eqb widget pending dispatch].
    rewrite (checkDocumentStatus_resumed_document _ _ w H2xx Hjson), String.eqb_refl.
    cbn [host after effects filter waits app].
    unfold turn. cbn [answers take Timer_eqb widget pending dispatch].
    rewrite (checkDocumentStatus_polls w Hst). reflexivity. }
  rewrite Hround. exact IH.
Qed.

Lemma polling_is_steady_witness :
  let s := {| widget := processing_widget;
              pending := [Fetch (status_link processing_widget) StatusReply] |} in
  state_after 3 delete_during_poll = Some "processing"
  /\ run (List.concat (List.repeat [Replied StatusReply (http 200 "OK" "scanning");
                          Elapsed StatusCheck] 3)) s = Some s.
Proof.
  intros s. split; [reflexivity |].
  apply (polling_is_steady s (http 200 "OK" "scanning") 3); reflexivity.
Defined.

(** *** The end of a failed transfer *)

Lemma with_xhr_current (me : Widget) : xhr me = None -> with_xhr None me = me.
Proof. intros <-. destruct me. reflexivity. Qed.

(** X18. The loadend event that closes a transfer which failed or was
    aborted reports zero bytes loaded; coming after the error or the abort
    event it changes nothing, whatever its body: the state stays
    upload-failed with the error text of the error event, or ready after an
    abort.  The same holds for any completion with zero bytes on a widget
    that holds no transfer handle. *)
Theorem loadend_after_failure (me : Widget) (type xhr_response : string) :
  after (onUploadDone 0 xhr_response (after (onUploadError type me)))
  = after (onUploadError type me)
  /\ after (onUploadDone 0 xhr_response (after (onUploadAbort me)))
     = after (onUploadAbort me)
  /\ (xhr me = None -> onUploadDone 0 xhr_response me = Normal tt me []).
Proof.
  assert (H : forall w, xhr w = None -> onUploadDone 0 xhr_response w = Normal tt w []).
  { intros w Hw. rewrite onUploadDone_nothing_loaded. now rewrite with_xhr_current. }
  split; [| split; [| apply H]].
  - rewrite H; [reflexivity |]. rewrite onUploadError_unfold. unfold after.
    now rewrite xhr_set_error, xhr_set_state.
  - rewrite H; [reflexivity |]. rewrite onUploadAbort_unfold. unfold after.
    now rewrite xhr_set_error, xhr_set_state.
Qed.

Lemma loadend_after_failure_witness :
  xhr (after (onUploadAbort uploading_widget)) = None
  /\ onUploadDone 0 "" (after (onUploadAbort uploading_widget))
     = Normal tt (after (onUploadAbort uploading_widget)) [].
Proof.
  split; [reflexivity |].
  apply (loadend_after_failure (after (onUploadAbort uploading_widget)) "abort" "").
  reflexivity.
Defined.

(** *** Radio groups *)

(** X19. After uncheckGroupItems() of a radio, no other radio field of its
    name is checked, so that of the radios that find() returns for the group
    only the radio itself can be checked; the registry keeps its components
    in place, and a component that is no radio field, has another name, is
    the radio itself or was not checked is left as it is.  Running it twice
    is running it once. *)
Theorem uncheckGroupItems_spec (me : Radio.Component) (registry : list Radio.Component) :
  let after := Radio.uncheckGroupItems me registry in
  map Radio.id after = map Radio.id registry
  /\ (forall item, In item (Radio.find "radiofield" (Radio.name me) after) ->
        Radio._checked item = true -> Radio.id item = Radio.id me)
  /\ (forall item, In item registry ->
        Radio.ntype item <> "radiofield" \/ Radio.name item <> Radio.name me
        \/ Radio.id item = Radio.id me \/ Radio._checked item = false ->
        In item after)
  /\ Radio.uncheckGroupItems me after = after
  /\ Radio.afterSetChecked false me registry = registry.
Proof.
  intros after. subst after.
  split; [| split; [| split; [| split; [| reflexivity]]]].
  - unfold Radio.uncheckGroupItems. rewrite map_map. apply map_ext.
    intros x. repeat match goal with |- context [if ?b then _ else _] => destruct b end;
      reflexivity.
  - intros item Hin Hc. unfold Radio.find in Hin. apply filter_In in Hin as [Hin Hm].
    unfold Radio.uncheckGroupItems in Hin. apply in_map_iff in Hin as [x [Hx _]].
    destruct (Radio.matches "radiofield" (Radio.name me) x) eqn:Hg.
    + destruct (negb (Radio.id x =? Radio.id me)%string && Radio._checked x) eqn:Hu.
      * subst item. discriminate Hc.
      * subst item. rewrite Hc, andb_true_r in Hu.
        now apply negb_false_iff, String.eqb_eq in Hu.
    + subst item. congruence.
  - intros item Hin H. unfold Radio.uncheckGroupItems. apply in_map_iff.
    exists item. split; [| exact Hin]. unfold Radio.matches.
    destruct (String.eqb_spec (Radio.ntype item) "radiofield") as [Hn | Hn]; [| reflexivity].
    destruct (String.eqb_spec (Radio.name item) (Radio.name me)) as [Hm | Hm];
      [| reflexivity].
    destruct (String.eqb_spec (Radio.id item) (Radio.id me)) as [Hi | Hi]; [reflexivity |].
    destruct (Radio._checked item) eqn:Hc; [| reflexivity].
    exfalso. destruct H as [H | [H | [H | H]]]; congruence.
  - unfold Radio.uncheckGroupItems. rewrite map_map.
    apply map_ext_in. intros x Hx.
    destruct (Radio.matches "radiofield" (Radio.name me) x) eqn:Hg; [| now rewrite Hg].
    destruct (negb (Radio.id x =? Radio.id me)%string && Radio._checked x) eqn:Hc.
    + assert (Hg' : Radio.matches "radiofield" (Radio.name me) (Radio.set_checked false x)
                    = true) by exact Hg.
      rewrite Hg'. cbn [Radio.set_checked Radio._checked]. now rewrite andb_false_r.
    + now rewrite Hg, Hc.
Qed.

Lemma uncheckGroupItems_spec_witness :
  let radio i n c := {| Radio.id := i; Radio.ntype := "radiofield"; Radio.name := n;
                        Radio._checked := c; Radio.value := JS.Str i |} in
  Radio.uncheckGroupItems (radio "b" "fruit" true)
    [radio "a" "fruit" true; radio "b" "fruit" true; radio "c" "colour" true]
  = [radio "a" "fruit" false; radio "b" "fruit" true; radio "c" "colour" true]
  /\ In (radio "c" "colour" true)
        (Radio.uncheckGroupItems (radio "b" "fruit" true)
           [radio "a" "fruit" true; radio "b" "fruit" true; radio "c" "colour" true]).
Proof.
  intros radio. split; [reflexivity |].
  destruct (uncheckGroupItems_spec (radio "b" "fruit" true)
              [radio "a" "fruit" true; radio "b" "fruit" true; radio "c" "colour" true])
    as (_ & _ & H & _).
  apply H; [simpl; tauto |]. right. left. discriminate.
Defined.

(** *** The side navigation list *)

Lemma onStoreLoad_fold (items : list (list (string * JS.value))) (start : Z) :
  fold_left
    (fun maxIndex record =>
       if negb (JS.truthy (JS.lookup record "isHeader")) then maxIndex + 1 else maxIndex)
    items start
  = start + Z.of_nat (List.length (filter SideNavList.is_item items)).
Proof.
  revert start. induction items as [| r items IH]; intros start;
    cbn [fold_left filter List.length]; [lia |].
  rewrite IH. change (negb (JS.truthy (JS.lookup r "isHeader"))) with (SideNavList.is_item r).
  destruct (SideNavList.is_item r); cbn [List.length]; [| reflexivity].
  rewrite Nat2Z.inj_succ. unfold Z.succ. ring.
Qed.

Lemma filter_none {A : Type} (f : A -> bool) (l : list A) :
  (forall x, In x l -> f x = false) -> filter f l = [].
Proof.
  induction l as [| a l IH]; intros H; [reflexivity |]. simpl.
  rewrite (H a (or_introl eq_refl)). apply IH. intros x Hx. apply H. now right.
Qed.

(** X20. onStoreLoad() stores as maxIndex the number of records that are
    no headers, less one: the index of the last item when the items are
    counted from zero.  It is -1 exactly when the store holds no item, an
    empty store included, and it is always below the number of records. *)
Theorem onStoreLoad_spec (items : list (list (string * JS.value))) :
  SideNavList.onStoreLoad items
  = Z.of_nat (List.length (filter SideNavList.is_item items)) - 1
  /\ -1 <= SideNavList.onStoreLoad items < Z.of_nat (List.length items)
  /\ (SideNavList.onStoreLoad items = -1 <->
      forall record, In record items -> SideNavList.is_item record = false)
  /\ SideNavList.onStoreLoad [] = -1.
Proof.
  assert (H : SideNavList.onStoreLoad items
              = Z.of_nat (List.length (filter SideNavList.is_item items)) - 1).
  { unfold SideNavList.onStoreLoad. rewrite onStoreLoad_fold. lia. }
  split; [exact H |]. split; [| split; [| reflexivity]].
  - rewrite H. pose proof (filter_length_le SideNavList.is_item items). lia.
  - rewrite H. split.
    + intros E record Hin.
      destruct (SideNavList.is_item record) eqn:Hi; [| reflexivity].
      assert (Hf : In record (filter SideNavList.is_item items))
        by (apply filter_In; now split).
      destruct (filter SideNavList.is_item items); [contradiction | cbn [List.length] in E; lia].
    + intros Hall. rewrite (filter_none SideNavList.is_item items Hall). reflexivity.
Qed.

Lemma onStoreLoad_spec_witness :
  let header := [("name", JS.Str "General"); ("isHeader", JS.Bool true)] in
  let page n := [("name", JS.Str n); ("cardIndex", JS.Num 0 0)] in
  SideNavList.onStoreLoad [header; page "a"; header; page "b"; page "c"] = 2
  /\ SideNavList.onStoreLoad [header; header] = -1.
Proof.
  intros header page. split; [reflexivity |].
  destruct (onStoreLoad_spec [header; header]) as (_ & _ & [_ H] & _).
  apply H. intros record [<- | [<- | []]]; reflexivity.
Defined.
